(** * RailTrack decision pipeline: a shallow embedding and its properties

    The Python modules [distance_ttc], [severity_classification],
    [track_segmentation], [obstacle_detection], [multi_frame_confirmation]
    and the per-frame driver of [main] are embedded as Rocq functions.

    Conventions of the embedding:
    - a Python [float] is a [pyfloat]: an exact rational, one of the two
      infinities, or NaN.  Rounding of binary floating point is not
      modelled; every comparison and every arithmetic step of the source
      is kept, on exact values.  The documented example of the distance
      estimator is run on binary64 as well ([Binary64]);
    - a Python [int] is a [Z] (pixel coordinates) or a [nat] (identifiers,
      counters, frame numbers, which the code only ever counts upwards);
    - a Python [str] is a [string];
    - a Python [dict] whose iteration order is observable is a [dict]
      (insertion-ordered association list); the [defaultdict] of the
      confirmation stage, only ever accessed by key, is a [gmap];
    - an exception is the [None] of an [option] result;
    - [time.time()] is an argument of the function that reads it. *)

From Stdlib Require Import ZArith QArith Qround Qabs Qminmax String List Lia Lqa Bool.
From Stdlib Require PrimFloat Uint63.
From Stdlib Require Import Sorting.Sorted Sorting.Permutation.
From stdpp Require Import base option list gmap strings.

Open Scope Q_scope.

(** ** Python values *)

Inductive pyfloat : Type :=
| Fin (q : Q)
| PInf
| NInf
| NaN.

Definition Qltb (x y : Q) : bool := negb (Qle_bool y x).

(** [x < c], [x >= c] and [x > c] for a float [x] and a finite [c]. *)
Definition pf_ltb (x : pyfloat) (c : Q) : bool :=
  match x with
  | Fin q => Qltb q c
  | NInf => true
  | PInf | NaN => false
  end.

Definition pf_lt (x : pyfloat) (c : Q) : Prop :=
  match x with
  | Fin q => q < c
  | NInf => True
  | PInf | NaN => False
  end.

(** Equality of floats as values (a rational has many fractions). *)
Definition pf_eq (x y : pyfloat) : Prop :=
  match x, y with
  | Fin a, Fin b => a == b
  | PInf, PInf | NInf, NInf => True
  | _, _ => False
  end.

(** [x / y] for a finite non-zero [y]. *)
Definition pf_div (x : pyfloat) (y : Q) : pyfloat :=
  match x with
  | Fin a => Fin (a / y)
  | PInf => if Qltb 0 y then PInf else NInf
  | NInf => if Qltb 0 y then NInf else PInf
  | NaN => NaN
  end.

(** Python's [x / y]: [ZeroDivisionError] on a zero divisor. *)
Definition py_truediv (x : pyfloat) (y : Q) : option pyfloat :=
  if Qeq_bool y 0 then None else Some (pf_div x y).

(** [round(q)] to the nearest integer, ties to the even one. *)
Definition round_half_even (q : Q) : Z :=
  let f := Qfloor q in
  let r := q - inject_Z f in
  if Qltb r (1 # 2) then f
  else if Qltb (1 # 2) r then (f + 1)%Z
  else if Z.even f then f else (f + 1)%Z.

(** [round(x, 2)]. *)
Definition py_round2 (x : pyfloat) : pyfloat :=
  match x with
  | Fin q => Fin (inject_Z (round_half_even (q * 100)) / 100)
  | other => other
  end.

(** A bounding box [(x1, y1, x2, y2)]. *)
Definition bbox : Type := (Z * Z * Z * Z)%type.

(** A detection, as [ObstacleDetector.detect] builds it. *)
Record detection : Type := Detection {
  det_class : string;
  det_confidence : Q;
  det_bbox : bbox;
  det_class_id : Z
}.

(** ** Insertion-ordered dictionaries keyed by integers *)

Section Dict.
Context {V : Type}.

Definition dict : Type := list (nat * V).

Fixpoint dict_get (k : nat) (d : dict) : option V :=
  match d with
  | [] => None
  | (k', v) :: rest => if Nat.eqb k k' then Some v else dict_get k rest
  end.

(** [d[k] = v]: in place when [k] is a key, at the end otherwise. *)
Fixpoint dict_set (k : nat) (v : V) (d : dict) : dict :=
  match d with
  | [] => [(k, v)]
  | (k', v') :: rest =>
      if Nat.eqb k k' then (k', v) :: rest else (k', v') :: dict_set k v rest
  end.

Definition dict_remove (k : nat) (d : dict) : dict :=
  List.filter (fun kv => negb (Nat.eqb k (fst kv))) d.

(** [del d[k]]: [KeyError] when [k] is not a key. *)
Definition dict_del (k : nat) (d : dict) : option dict :=
  match dict_get k d with
  | Some _ => Some (dict_remove k d)
  | None => None
  end.

Definition dict_keys (d : dict) : list nat := List.map fst d.
End Dict.

Arguments dict : clear implicits.

(** ** distance_ttc.py *)

Module DistanceEstimator.

Record t : Type := Make {
  focal_length : Q;
  known_heights : list (string * Q);
  train_speed : Q;
  ttc_critical : Q;
  ttc_high : Q;
  ttc_medium : Q
}.

(** [known_heights.get(obstacle_class, default)]. *)
Fixpoint heights_get (c : string) (hs : list (string * Q)) (default : Q) : Q :=
  match hs with
  | [] => default
  | (k, h) :: rest => if String.eqb c k then h else heights_get c rest default
  end.

(** The values [__init__] falls back to when the configuration file
    gives none. *)
Definition defaults : t :=
  {| focal_length := 800;
     known_heights :=
       [("human"%string, 1.7); ("vehicle"%string, 1.5);
        ("animal"%string, 0.8); ("debris"%string, 0.3)];
     train_speed := 60;
     ttc_critical := 20;
     ttc_high := 40;
     ttc_medium := 60 |}.

Definition estimate_distance (self : t) (obstacle_class : string) (b : bbox)
  : pyfloat :=
  let '(_, y1, _, y2) := b in
  let known_height := heights_get obstacle_class (known_heights self) 1 in
  let pixel_height := (y2 - y1)%Z in
  if (pixel_height =? 0)%Z then PInf
  else
    let distance := (known_height * focal_length self) / inject_Z pixel_height in
    (* max(0, distance) *)
    Fin (if Qltb 0 distance then distance else 0).

Definition calculate_ttc (self : t) (distance : pyfloat) (speed_kmh : option Q)
  : option pyfloat :=
  let speed_kmh := default (train_speed self) speed_kmh in
  if Qeq_bool speed_kmh 0 then Some PInf
  else
    let speed_ms := speed_kmh / 3.6 in
    py_truediv distance speed_ms.

Inductive level : Type := critical | high | medium | low.

Definition get_ttc_level (self : t) (ttc : pyfloat) : level :=
  if pf_ltb ttc (ttc_critical self) then critical
  else if pf_ltb ttc (ttc_high self) then high
  else if pf_ltb ttc (ttc_medium self) then medium
  else low.

End DistanceEstimator.

(** The two functions again, on IEEE binary64 values, to run the
    documented example with the rounding of the machine. *)
Module Binary64.

Import PrimFloat.
#[local] Set Warnings "-inexact-float".

(** An [int] as the [float] Python converts it to, for the integers a
    pixel difference can be. *)
Definition of_int (z : Z) : float :=
  if (z <? 0)%Z then opp (of_uint63 (Uint63.of_Z (- z)))
  else of_uint63 (Uint63.of_Z z).

Definition estimate_distance (known_height focal_length : float) (b : bbox)
  : float :=
  let '(_, y1, _, y2) := b in
  let pixel_height := (y2 - y1)%Z in
  if (pixel_height =? 0)%Z then infinity
  else
    let distance := div (mul known_height focal_length) (of_int pixel_height) in
    if ltb zero distance then distance else zero.

Definition calculate_ttc (distance speed_kmh : float) : float :=
  if eqb speed_kmh zero then infinity
  else
    let speed_ms := div speed_kmh 3.6%float in
    div distance speed_ms.

End Binary64.

Module CollisionRiskAssessor.

Import DistanceEstimator.

(** [class_scores.get(obstacle_class, 25)]. *)
Definition class_scores_get (obstacle_class : string) : Q :=
  if String.eqb obstacle_class "human" then 40
  else if String.eqb obstacle_class "vehicle" then 35
  else if String.eqb obstacle_class "animal" then 30
  else if String.eqb obstacle_class "debris" then 20
  else 25.

(** [zone_multipliers.get(zone, 1.0)]. *)
Definition zone_multipliers_get (zone : string) : Q :=
  if String.eqb zone "critical" then 2.0
  else if String.eqb zone "warning" then 1.5
  else if String.eqb zone "safe" then 0.5
  else 1.0.

Definition _calculate_risk_score
    (obstacle_class zone : string) (ttc : pyfloat) (is_static : bool) : Q :=
  let score := 0 in
  let score := score + class_scores_get obstacle_class in
  let score := score * zone_multipliers_get zone in
  let score :=
    if pf_ltb ttc 10 then score + 30
    else if pf_ltb ttc 20 then score + 20
    else if pf_ltb ttc 40 then score + 10
    else score in
  let score := if is_static then score + 10 else score in
  (* min(100, score) *)
  if Qltb score 100 then score else 100.

Definition _get_risk_level (risk_score : Q) : level :=
  if Qle_bool 75 risk_score then critical
  else if Qle_bool 50 risk_score then high
  else if Qle_bool 25 risk_score then medium
  else low.

(** The dictionary [assess_risk] returns. *)
Record risk : Type := Risk {
  r_obstacle_class : string;
  r_distance_m : pyfloat;
  r_ttc_seconds : pyfloat;
  r_ttc_level : level;
  r_zone : string;
  r_risk_score : Q;
  r_risk_level : level;
  r_is_static : bool
}.

Definition assess_risk (est : DistanceEstimator.t)
    (obstacle_class : string) (b : bbox) (is_static : bool) (zone : string)
  : option risk :=
  let distance := estimate_distance est obstacle_class b in
  ttc ← calculate_ttc est distance None;
  let ttc_level := get_ttc_level est ttc in
  let risk_score := _calculate_risk_score obstacle_class zone ttc is_static in
  Some {| r_obstacle_class := obstacle_class;
          r_distance_m := py_round2 distance;
          r_ttc_seconds := py_round2 ttc;
          r_ttc_level := ttc_level;
          r_zone := zone;
          r_risk_score := risk_score;
          r_risk_level := _get_risk_level risk_score;
          r_is_static := is_static |}.

End CollisionRiskAssessor.

(** ** severity_classification.py *)

Module SeverityClassifier.

Inductive severity : Type := critical | high | medium | low.

(** The incident dictionary; an absent key is [None]. *)
Record incident : Type := Incident {
  obstacle_class : option string;
  zone : option string;
  ttc : option pyfloat;
  distance : option pyfloat;
  is_static : option bool;
  confidence : option Q;
  inc_bbox : option bbox
}.

Definition _is_critical
    (obstacle_class zone : string) (ttc : pyfloat) (is_static : bool) : bool :=
  let critical_conditions :=
    [ String.eqb obstacle_class "human" && String.eqb zone "critical"
        && pf_ltb ttc 20;
      String.eqb obstacle_class "vehicle" && String.eqb zone "critical"
        && pf_ltb ttc 15;
      is_static && String.eqb zone "critical" && pf_ltb ttc 25;
      (String.eqb obstacle_class "human" || String.eqb obstacle_class "vehicle")
        && String.eqb zone "critical" && pf_ltb ttc 10 ] in
  existsb id critical_conditions.

Definition _is_high
    (obstacle_class zone : string) (ttc : pyfloat) (is_static : bool) : bool :=
  let high_conditions :=
    [ String.eqb obstacle_class "human" && String.eqb zone "warning"
        && pf_ltb ttc 40;
      String.eqb obstacle_class "animal" && String.eqb zone "critical";
      String.eqb obstacle_class "debris" && String.eqb zone "critical"
        && is_static;
      String.eqb obstacle_class "vehicle" && String.eqb zone "warning"
        && pf_ltb ttc 30;
      String.eqb zone "critical" && pf_ltb ttc 40 ] in
  existsb id high_conditions.

Definition _is_medium (obstacle_class zone : string) (ttc : pyfloat) : bool :=
  let medium_conditions :=
    [ String.eqb obstacle_class "animal" && String.eqb zone "warning";
      String.eqb obstacle_class "debris" && String.eqb zone "critical";
      String.eqb obstacle_class "vehicle" && String.eqb zone "warning"
        && pf_ltb ttc 60;
      String.eqb obstacle_class "human" && pf_ltb ttc 60;
      String.eqb zone "critical" && pf_ltb ttc 60 ] in
  existsb id medium_conditions.

Definition classify (inc : incident) : severity :=
  let obstacle_class := default "unknown"%string (obstacle_class inc) in
  let zone := default "safe"%string (zone inc) in
  let ttc := default PInf (ttc inc) in
  let is_static := default false (is_static inc) in
  if _is_critical obstacle_class zone ttc is_static then critical
  else if _is_high obstacle_class zone ttc is_static then high
  else if _is_medium obstacle_class zone ttc then medium
  else low.

End SeverityClassifier.

(** ** track_segmentation.py *)

Module TrackSegmentation.

Record t : Type := Make {
  track_top_y : Q;
  track_bottom_y : Q;
  critical_zone_width : Q;
  warning_zone_width : Q;
  frame_width : option Z;
  frame_height : option Z
}.

Definition defaults : t :=
  {| track_top_y := 0.4;
     track_bottom_y := 0.95;
     critical_zone_width := 0.25;
     warning_zone_width := 0.40;
     frame_width := None;
     frame_height := None |}.

(** [initialize_frame_dimensions(frame)], for a frame of the given shape. *)
Definition initialize_frame_dimensions (self : t) (height width : Z) : t :=
  {| track_top_y := track_top_y self;
     track_bottom_y := track_bottom_y self;
     critical_zone_width := critical_zone_width self;
     warning_zone_width := warning_zone_width self;
     frame_width := Some width;
     frame_height := Some height |}.

(** [int / int] of Python: [ZeroDivisionError] on a zero divisor. *)
Definition q_truediv (a b : Q) : option Q :=
  if Qeq_bool b 0 then None else Some (a / b).

(** [None] is the [TypeError] of dividing by an unset dimension, or the
    [ZeroDivisionError] of an empty frame. *)
Definition classify_zone (self : t) (b : bbox) : option string :=
  let '(x1, y1, x2, y2) := b in
  let center_x := inject_Z (x1 + x2) / 2 in
  let center_y := inject_Z (y1 + y2) / 2 in
  width ← frame_width self;
  norm_x ← q_truediv center_x (inject_Z width);
  height ← frame_height self;
  norm_y ← q_truediv center_y (inject_Z height);
  if Qltb norm_y (track_top_y self) || Qltb (track_bottom_y self) norm_y
  then Some "safe"%string
  else
    let track_center := 0.5 in
    let distance_from_center := Qabs (norm_x - track_center) in
    if Qle_bool distance_from_center (critical_zone_width self / 2)
    then Some "critical"%string
    else if Qle_bool distance_from_center (warning_zone_width self / 2)
    then Some "warning"%string
    else Some "safe"%string.

End TrackSegmentation.

(** ** Loops and norms *)

(** A [for] loop whose body may raise: the state is threaded through the
    elements, the first exception ends the loop. *)
Fixpoint for_each {S A : Type} (body : S -> A -> option S) (xs : list A) (s : S)
  : option S :=
  match xs with
  | [] => Some s
  | x :: rest => s' ← body s x; for_each body rest s'
  end.

(** [xs.remove(x)]: drops the first occurrence, [ValueError] when there is
    none. *)
Fixpoint list_remove_first (x : nat) (xs : list nat) : option (list nat) :=
  match xs with
  | [] => None
  | y :: rest =>
      if Nat.eqb x y then Some rest
      else rest' ← list_remove_first x rest; Some (y :: rest')
  end.

(** Centre of a bounding box, [((x1 + x2) / 2, (y1 + y2) / 2)]. *)
Definition _get_center (b : bbox) : Q * Q :=
  let '(x1, y1, x2, y2) := b in
  (inject_Z (x1 + x2) / 2, inject_Z (y1 + y2) / 2).

(** A Euclidean norm [np.linalg.norm(v)] is carried as its square: the
    square root is increasing, so norms compare as their squares do. *)
Definition norm_sq (p q : Q * Q) : Q :=
  (fst p - fst q) * (fst p - fst q) + (snd p - snd q) * (snd p - snd q).

(** [norm < c] for a norm given by its square [n2]. *)
Definition norm_ltb (n2 : Q) (c : Q) : bool := Qltb 0 c && Qltb n2 (c * c).

(** ** obstacle_detection.py: the tracker *)

Module ObstacleTracker.

Record t : Type := Make {
  next_object_id : nat;
  objects : dict detection;
  disappeared : dict nat;
  max_disappeared : nat
}.

Definition init (max_disappeared : nat) : t :=
  {| next_object_id := 0; objects := []; disappeared := [];
     max_disappeared := max_disappeared |}.

Definition register (self : t) (d : detection) : t * nat :=
  let self' :=
    {| next_object_id := next_object_id self + 1;
       objects := dict_set (next_object_id self) d (objects self);
       disappeared := dict_set (next_object_id self) 0%nat (disappeared self);
       max_disappeared := max_disappeared self |} in
  (self', (next_object_id self' - 1)%nat).

Definition deregister (self : t) (object_id : nat) : option t :=
  objs ← dict_del object_id (objects self);
  dis ← dict_del object_id (disappeared self);
  Some {| next_object_id := next_object_id self;
          objects := objs;
          disappeared := dis;
          max_disappeared := max_disappeared self |}.

(** The body shared by the two "mark as disappeared" loops:
    [self.disappeared[object_id] += 1], then the deregistration test. *)
Definition mark_disappeared (self : t) (object_id : nat) : option t :=
  n ← dict_get object_id (disappeared self);
  let self' :=
    {| next_object_id := next_object_id self;
       objects := objects self;
       disappeared := dict_set object_id (n + 1)%nat (disappeared self);
       max_disappeared := max_disappeared self |} in
  n' ← dict_get object_id (disappeared self');
  if (max_disappeared self' <? n')%nat then deregister self' object_id
  else Some self'.

(** One turn of the inner loop: [best_match] and [min_distance] (squared;
    [None] is the initial [inf]). *)
Definition closer (self : t) (det_center : Q * Q)
    (acc : option nat * option Q) (object_id : nat)
  : option (option nat * option Q) :=
  let '(best_match, min_distance) := acc in
  obj ← dict_get object_id (objects self);
  let obj_center := _get_center (det_bbox obj) in
  let distance := norm_sq det_center obj_center in
  let is_less :=
    match min_distance with
    | None => true
    | Some m => Qltb distance m
    end in
  if is_less then Some (Some object_id, Some distance)
  else Some (best_match, min_distance).

(** One turn of the outer loop, on the tracker and the list
    [object_ids] of the tracks no detection has claimed yet. *)
Definition match_detection (st : t * list nat) (d : detection)
  : option (t * list nat) :=
  let '(self, object_ids) := st in
  let det_center := _get_center (det_bbox d) in
  '(best_match, min_distance) ←
    for_each (closer self det_center) object_ids (None, None);
  match best_match, min_distance with
  | Some best, Some m =>
      if norm_ltb m 100 then
        let self' :=
          {| next_object_id := next_object_id self;
             objects := dict_set best d (objects self);
             disappeared := dict_set best 0%nat (disappeared self);
             max_disappeared := max_disappeared self |} in
        object_ids' ← list_remove_first best object_ids;
        Some (self', object_ids')
      else Some (fst (register self d), object_ids)
  | _, _ => Some (fst (register self d), object_ids)
  end.

(** [update] returns the dictionary [self.objects] itself. *)
Definition update (self : t) (detections : list detection)
  : option (t * dict detection) :=
  if (length detections =? 0)%nat then
    self' ← for_each mark_disappeared (dict_keys (disappeared self)) self;
    Some (self', objects self')
  else if (length (objects self) =? 0)%nat then
    let self' := fold_left (fun s d => fst (register s d)) detections self in
    Some (self', objects self')
  else
    let object_ids := dict_keys (objects self) in
    '(self1, object_ids) ←
      for_each match_detection detections (self, object_ids);
    self2 ← for_each mark_disappeared object_ids self1;
    Some (self2, objects self2).

(** The tracks of [self] that [update] leaves unclaimed: the final
    [object_ids] of the matching loop (all of them when there is no
    detection). *)
Definition unmatched (self : t) (detections : list detection) : list nat :=
  if (length detections =? 0)%nat then dict_keys (disappeared self)
  else if (length (objects self) =? 0)%nat then []
  else
    match for_each match_detection detections (self, dict_keys (objects self)) with
    | Some (_, object_ids) => object_ids
    | None => []
    end.

End ObstacleTracker.

(** ** multi_frame_confirmation.py *)

(** A confirmed obstacle: [{**detection, 'object_id': .., 'duration': ..,
    'is_static': .., 'frame_count': ..}]. *)
Record obstacle : Type := Obstacle {
  o_detection : detection;
  o_object_id : nat;
  o_duration : Q;
  o_is_static : bool;
  o_frame_count : nat
}.

Module MultiFrameConfirmation.

(** An element of [history['detections']]. *)
Record entry : Type := Entry {
  e_detection : detection;
  e_frame : nat;
  e_timestamp : Q
}.

Record history : Type := History {
  detections : list entry;
  first_seen : option Q;
  last_seen : option Q;
  confirmed : bool;
  positions : list (Q * Q);
  is_static : bool
}.

Record t : Type := Make {
  min_consecutive_frames : nat;
  max_frame_gap : nat;
  movement_threshold : Z;
  obstacle_history : gmap nat history;
  confirmed_obstacles : gmap nat detection;
  frame_count : nat
}.

Definition init (min_consecutive_frames max_frame_gap : nat)
    (movement_threshold : Z) : t :=
  {| min_consecutive_frames := min_consecutive_frames;
     max_frame_gap := max_frame_gap;
     movement_threshold := movement_threshold;
     obstacle_history := ∅;
     confirmed_obstacles := ∅;
     frame_count := 0 |}.

(** The value the [defaultdict] builds for a key it does not hold. *)
Definition new_history : history :=
  {| detections := []; first_seen := None; last_seen := None;
     confirmed := false; positions := []; is_static := false |}.

(** [self.obstacle_history[obj_id]]. *)
Definition get_history (self : t) (obj_id : nat) : history :=
  default new_history (obstacle_history self !! obj_id).

(** [dq.append(x)] on a [deque(maxlen=maxlen)]: the oldest elements
    leave when the bound is passed. *)
Definition deque_append {A : Type} (maxlen : nat) (dq : list A) (x : A) : list A :=
  let dq' := dq ++ [x] in
  drop (length dq' - maxlen) dq'.

(** [xs[-n:]]. *)
Definition slice_last {A : Type} (n : nat) (xs : list A) : list A :=
  if (n =? 0)%nat then xs else drop (length xs - n) xs.

(** [[fs[i+1] - fs[i] - 1 for i in range(len(fs) - 1)]]. *)
Fixpoint frame_gaps (fs : list nat) : list Z :=
  match fs with
  | a :: (b :: _) as rest => (Z.of_nat b - Z.of_nat a - 1)%Z :: frame_gaps rest
  | _ => []
  end.

Definition _should_confirm (self : t) (obj_id : nat) : bool :=
  let history := get_history self obj_id in
  let detections := detections history in
  if (length detections <? min_consecutive_frames self)%nat then false
  else
    let recent_frames :=
      List.map e_frame (slice_last (min_consecutive_frames self) detections) in
    let gaps := frame_gaps recent_frames in
    forallb (fun gap => (gap <=? Z.of_nat (max_frame_gap self))%Z) gaps.

(** Squared lengths of the steps between consecutive positions. *)
Fixpoint displacements (ps : list (Q * Q)) : list Q :=
  match ps with
  | p :: (q :: _) as rest => norm_sq q p :: displacements rest
  | _ => []
  end.

Definition Qmaxb (a b : Q) : Q := if Qltb a b then b else a.

Definition _is_static (self : t) (positions : list (Q * Q)) : bool :=
  if (length positions <? 2)%nat then true
  else
    match displacements positions with
    | [] => true
    | d :: ds =>
        let max_displacement := fold_left Qmaxb ds d in
        norm_ltb max_displacement (inject_Z (movement_threshold self))
    end.

Definition set_history (self : t) (obj_id : nat) (h : history) : t :=
  {| min_consecutive_frames := min_consecutive_frames self;
     max_frame_gap := max_frame_gap self;
     movement_threshold := movement_threshold self;
     obstacle_history := <[obj_id := h]> (obstacle_history self);
     confirmed_obstacles := confirmed_obstacles self;
     frame_count := frame_count self |}.

(** The body of the loop over [tracked_objects.items()]; [out] is the
    list [confirmed] under construction. *)
Definition track_step (current_time : Q) (st : t * list obstacle)
    (item : nat * detection) : t * list obstacle :=
  let '(self, out) := st in
  let '(obj_id, detection) := item in
  let history := get_history self obj_id in
  let dets :=
    deque_append (min_consecutive_frames self + max_frame_gap self)
      (detections history)
      {| e_detection := detection; e_frame := frame_count self;
         e_timestamp := current_time |} in
  let first :=
    match first_seen history with
    | None => current_time
    | Some f => f
    end in
  let center := _get_center (det_bbox detection) in
  let poss := deque_append 10 (positions history) center in
  let static :=
    if (3 <=? length poss)%nat then _is_static self poss
    else is_static history in
  let history :=
    {| detections := dets; first_seen := Some first;
       last_seen := Some current_time; confirmed := confirmed history;
       positions := poss; is_static := static |} in
  let self := set_history self obj_id history in
  if _should_confirm self obj_id then
    let self :=
      if negb (confirmed history) then
        {| min_consecutive_frames := min_consecutive_frames self;
           max_frame_gap := max_frame_gap self;
           movement_threshold := movement_threshold self;
           obstacle_history :=
             <[obj_id := {| detections := dets; first_seen := Some first;
                            last_seen := Some current_time; confirmed := true;
                            positions := poss; is_static := static |}]>
               (obstacle_history self);
           confirmed_obstacles :=
             <[obj_id := detection]> (confirmed_obstacles self);
           frame_count := frame_count self |}
      else self in
    (self,
     out ++ [ {| o_detection := detection; o_object_id := obj_id;
                 o_duration := current_time - first;
                 o_is_static := static;
                 o_frame_count := length dets |} ])
  else (self, out).

(** [history['last_seen'] and (current_time - history['last_seen']) > timeout]. *)
Definition expired (current_time timeout : Q) (h : history) : bool :=
  match last_seen h with
  | None => false
  | Some seen => negb (Qeq_bool seen 0) && Qltb timeout (current_time - seen)
  end.

Definition expired_key (current_time timeout : Q) (m : gmap nat history)
    (obj_id : nat) : bool :=
  match m !! obj_id with
  | Some h => expired current_time timeout h
  | None => false
  end.

Definition _cleanup_old_obstacles (self : t) (current_time timeout : Q) : t :=
  let old := obstacle_history self in
  {| min_consecutive_frames := min_consecutive_frames self;
     max_frame_gap := max_frame_gap self;
     movement_threshold := movement_threshold self;
     obstacle_history :=
       filter (fun kv => expired current_time timeout (snd kv) = false) old;
     confirmed_obstacles :=
       filter (fun kv => expired_key current_time timeout old (fst kv) = false)
         (confirmed_obstacles self);
     frame_count := frame_count self |}.

(** [update(detections, tracked_objects)], with the clock reading
    [current_time].  The argument [detections] is not read. *)
Definition update (self : t) (current_time : Q)
    (tracked_objects : dict detection) : t * list obstacle :=
  let self :=
    {| min_consecutive_frames := min_consecutive_frames self;
       max_frame_gap := max_frame_gap self;
       movement_threshold := movement_threshold self;
       obstacle_history := obstacle_history self;
       confirmed_obstacles := confirmed_obstacles self;
       frame_count := frame_count self + 1 |} in
  let '(self, confirmed) :=
    fold_left (track_step current_time) tracked_objects (self, []) in
  (_cleanup_old_obstacles self current_time 10, confirmed).

End MultiFrameConfirmation.

Module FalseAlertFilter.

Record t : Type := Make { suppressed_count : nat }.

(** The three rejection tests, in the order the loop body applies them. *)
Definition rejected (o : obstacle) (min_size : Z) : bool :=
  let '(x1, y1, x2, y2) := det_bbox (o_detection o) in
  let area := ((x2 - x1) * (y2 - y1))%Z in
  if (area <? min_size)%Z then true
  else
    let width := (x2 - x1)%Z in
    let height := (y2 - y1)%Z in
    let aspect_ratio :=
      if (0 <? Z.min width height)%Z
      then inject_Z (Z.max width height) / inject_Z (Z.min width height)
      else 0 in
    if Qltb 10 aspect_ratio then true
    else
      String.eqb (det_class (o_detection o)) "debris"
      && Qltb (det_confidence (o_detection o)) 0.6.

Definition filter_step (min_size : Z) (st : t * list obstacle) (o : obstacle)
  : t * list obstacle :=
  let '(self, filtered) := st in
  if rejected o min_size
  then ({| suppressed_count := suppressed_count self + 1 |}, filtered)
  else (self, filtered ++ [o]).

(** [filter(obstacles, min_size=1000)]. *)
Definition filter (self : t) (obstacles : list obstacle) (min_size : Z)
  : t * list obstacle :=
  fold_left (filter_step min_size) obstacles (self, []).

End FalseAlertFilter.

(** ** severity_classification.py: the reporter *)

Module IncidentReporter.

Import SeverityClassifier.

Definition get_severity_priority (s : severity) : nat :=
  match s with
  | critical => 4
  | high => 3
  | medium => 2
  | low => 1
  end.

Definition get_recommended_action (s : severity) : string :=
  match s with
  | critical =>
      "IMMEDIATE ACTION REQUIRED: Alert driver, activate emergency braking if available, notify control room"
  | high =>
      "URGENT: Alert driver, reduce speed, notify control room and nearest station"
  | medium =>
      "CAUTION: Monitor situation, notify control room, prepare for potential action"
  | low => "ADVISORY: Log incident, continue monitoring"
  end.

(** The report, without its clock-derived identifier and timestamp and
    without the explanation text. *)
Record report : Type := Report {
  rep_severity : severity;
  rep_severity_priority : nat;
  rep_type : string;
  rep_confidence : Q;
  rep_is_static : bool;
  rep_zone : string;
  rep_bbox : option bbox;
  rep_distance_meters : option pyfloat;
  rep_ttc_seconds : option pyfloat;
  rep_recommended_action : string
}.

Definition generate_report (inc : incident) : report :=
  let severity := classify inc in
  {| rep_severity := severity;
     rep_severity_priority := get_severity_priority severity;
     rep_type := default "unknown"%string (obstacle_class inc);
     rep_confidence := default 0 (confidence inc);
     rep_is_static := default false (SeverityClassifier.is_static inc);
     rep_zone := default "unknown"%string (zone inc);
     rep_bbox := inc_bbox inc;
     rep_distance_meters := distance inc;
     rep_ttc_seconds := ttc inc;
     rep_recommended_action := get_recommended_action severity |}.

End IncidentReporter.

(** ** main.py: the per-frame driver *)

Module RailTrackSystem.

Import SeverityClassifier IncidentReporter.

(** What [process_frame] hands to the alerting and logging collaborators. *)
Inductive event : Type :=
| send_alert (r : report)
| log_incident (r : report).

Record stats : Type := Stats {
  frames_processed : nat;
  detections_count : nat;
  confirmed_obstacles_count : nat;
  alerts_sent : nat
}.

Record t : Type := Make {
  track_segmentation : TrackSegmentation.t;
  obstacle_tracker : ObstacleTracker.t;
  multi_frame_confirmation : MultiFrameConfirmation.t;
  false_alert_filter : FalseAlertFilter.t;
  collision_risk_assessor : DistanceEstimator.t;
  sys_stats : stats
}.

(** The state [__init__] builds (the estimator is the one the risk
    assessor owns). *)
Definition init (ts : TrackSegmentation.t) (est : DistanceEstimator.t) : t :=
  {| track_segmentation := ts;
     obstacle_tracker := ObstacleTracker.init 5;
     multi_frame_confirmation := MultiFrameConfirmation.init 5 3 50;
     false_alert_filter := {| FalseAlertFilter.suppressed_count := 0 |};
     collision_risk_assessor := est;
     sys_stats := {| frames_processed := 0; detections_count := 0;
                     confirmed_obstacles_count := 0; alerts_sent := 0 |} |}.

(** Step 5: the zone of each filtered obstacle. *)
Definition zone_step (ts : TrackSegmentation.t)
    (acc : list (obstacle * string)) (o : obstacle)
  : option (list (obstacle * string)) :=
  zone ← TrackSegmentation.classify_zone ts (det_bbox (o_detection o));
  Some (acc ++ [(o, zone)]).

(** The incident dictionary step 6 builds for an obstacle. *)
Definition make_incident (est : DistanceEstimator.t) (oz : obstacle * string)
  : option incident :=
  let '(o, zone) := oz in
  risk ← CollisionRiskAssessor.assess_risk est
           (det_class (o_detection o)) (det_bbox (o_detection o))
           (o_is_static o) zone;
  Some {| obstacle_class := Some (det_class (o_detection o));
          SeverityClassifier.zone := Some zone;
          ttc := Some (CollisionRiskAssessor.r_ttc_seconds risk);
          distance := Some (CollisionRiskAssessor.r_distance_m risk);
          SeverityClassifier.is_static := Some (o_is_static o);
          confidence := Some (det_confidence (o_detection o));
          inc_bbox := Some (det_bbox (o_detection o)) |}.

(** [severity in ['critical', 'high']]. *)
Definition reportable (s : severity) : bool :=
  match s with
  | critical | high => true
  | medium | low => false
  end.

(** Step 6, one obstacle: the reports and the emitted events so far. *)
Definition incident_step (est : DistanceEstimator.t)
    (acc : list report * list event) (oz : obstacle * string)
  : option (list report * list event) :=
  let '(incidents, emitted) := acc in
  incident ← make_incident est oz;
  let severity := classify incident in
  if reportable severity then
    let report := generate_report incident in
    Some (incidents ++ [report],
          emitted ++ [send_alert report; log_incident report])
  else Some (incidents, emitted).

Record results : Type := Results {
  res_detections : list detection;
  res_confirmed_obstacles : list obstacle;
  res_filtered_obstacles : list obstacle;
  res_incidents : list report;
  res_emitted : list event
}.

(** [process_frame(frame)]: [shape] is [frame.shape[:2]], [detections]
    what the detector returns for the frame, [current_time] the clock
    reading of the confirmation stage. *)
Definition process_frame (self : t) (shape : Z * Z)
    (detections : list detection) (current_time : Q)
  : option (t * results) :=
  let ts :=
    match TrackSegmentation.frame_width (track_segmentation self) with
    | None =>
        TrackSegmentation.initialize_frame_dimensions
          (track_segmentation self) (fst shape) (snd shape)
    | Some _ => track_segmentation self
    end in
  '(tracker, tracked_objects) ←
    ObstacleTracker.update (obstacle_tracker self) detections;
  let '(mfc, confirmed_obstacles) :=
    MultiFrameConfirmation.update (multi_frame_confirmation self)
      current_time tracked_objects in
  let '(faf, filtered_obstacles) :=
    FalseAlertFilter.filter (false_alert_filter self) confirmed_obstacles 1000 in
  obstacles_with_zones ← for_each (zone_step ts) filtered_obstacles [];
  '(incidents, emitted) ←
    for_each (incident_step (collision_risk_assessor self))
      obstacles_with_zones ([], []);
  let st := sys_stats self in
  Some ({| track_segmentation := ts;
           obstacle_tracker := tracker;
           multi_frame_confirmation := mfc;
           false_alert_filter := faf;
           collision_risk_assessor := collision_risk_assessor self;
           sys_stats :=
             {| frames_processed := frames_processed st + 1;
                detections_count := detections_count st + length detections;
                confirmed_obstacles_count :=
                  confirmed_obstacles_count st + length confirmed_obstacles;
                alerts_sent := alerts_sent st + length incidents |} |},
        {| res_detections := detections;
           res_confirmed_obstacles := confirmed_obstacles;
           res_filtered_obstacles := filtered_obstacles;
           res_incidents := incidents;
           res_emitted := emitted |}).

End RailTrackSystem.

(** * Further functions of the same modules *)

(** ** severity_classification.py: batches and summaries *)

Module SeverityBatch.

Import SeverityClassifier IncidentReporter.

(** [get_severity_color], as a BGR triple. *)
Definition get_severity_color (s : severity) : Z * Z * Z :=
  match s with
  | critical => (0, 0, 255)%Z
  | high => (0, 165, 255)%Z
  | medium => (0, 255, 255)%Z
  | low => (0, 255, 0)%Z
  end.

(** [{**incident, 'severity': .., 'severity_priority': ..,
    'severity_color': ..}]; the timestamp is left out. *)
Record classified : Type := Classified {
  cl_incident : incident;
  cl_severity : severity;
  cl_severity_priority : nat;
  cl_severity_color : Z * Z * Z
}.

Definition annotate (inc : incident) : classified :=
  let severity := classify inc in
  {| cl_incident := inc;
     cl_severity := severity;
     cl_severity_priority := get_severity_priority severity;
     cl_severity_color := get_severity_color severity |}.

(** [list.sort(key=..., reverse=True)] is a stable sort: elements of
    equal key keep their order.  Here as an insertion sort, each element
    placed in front of the sorted rest of the list, before the first
    element whose key is not larger. *)
Fixpoint insert_desc {A : Type} (key : A -> nat) (x : A) (sorted : list A)
  : list A :=
  match sorted with
  | [] => [x]
  | y :: rest =>
      if (key y <=? key x)%nat then x :: y :: rest
      else y :: insert_desc key x rest
  end.

Definition sort_desc {A : Type} (key : A -> nat) (xs : list A) : list A :=
  fold_right (insert_desc key) [] xs.

Definition classify_batch (incidents : list incident) : list classified :=
  sort_desc cl_severity_priority (List.map annotate incidents).

(** [counts[k] = counts.get(k, 0) + 1] on an insertion-ordered
    dictionary of counters. *)
Fixpoint count_incr {K : Type} (eqb : K -> K -> bool) (k : K)
    (counts : list (K * nat)) : list (K * nat) :=
  match counts with
  | [] => [(k, 1%nat)]
  | (k', n) :: rest =>
      if eqb k k' then (k', (n + 1)%nat) :: rest
      else (k', n) :: count_incr eqb k rest
  end.

Definition severity_eqb (a b : severity) : bool :=
  match a, b with
  | critical, critical | high, high | medium, medium | low, low => true
  | _, _ => false
  end.

Record summary : Type := Summary {
  total_incidents : nat;
  by_severity : list (severity * nat);
  by_type : list (string * nat);
  critical_incidents : list classified
}.

(** [IncidentReporter.generate_summary_report]. *)
Definition generate_summary_report (incidents : list incident) : summary :=
  match incidents with
  | [] =>
      {| total_incidents := 0; by_severity := []; by_type := [];
         critical_incidents := [] |}
  | _ =>
      let classified := classify_batch incidents in
      let severity_counts :=
        fold_left (fun counts inc => count_incr severity_eqb (cl_severity inc) counts)
          classified
          [(critical, 0%nat); (high, 0%nat); (medium, 0%nat); (low, 0%nat)] in
      let type_counts :=
        fold_left
          (fun counts inc =>
             count_incr String.eqb
               (default "unknown"%string (obstacle_class inc)) counts)
          incidents [] in
      let critical_ones :=
        List.filter (fun inc => severity_eqb (cl_severity inc) critical)
          classified in
      {| total_incidents := length incidents;
         by_severity := severity_counts;
         by_type := type_counts;
         critical_incidents := firstn 5 critical_ones |}
  end.

End SeverityBatch.

(** ** distance_ttc.py: speed, calibration, stereo, batches *)

Module Calibration.

Import DistanceEstimator.


(** [estimate_with_triangulation(bbox1, bbox2, baseline)]. *)
Definition estimate_with_triangulation (self : t) (bbox1 bbox2 : bbox)
    (baseline : Q) : pyfloat :=
  let '(x1a, _, x2a, _) := bbox1 in
  let '(x1b, _, x2b, _) := bbox2 in
  let center1_x := inject_Z (x1a + x2a) / 2 in
  let center2_x := inject_Z (x1b + x2b) / 2 in
  let disparity := Qabs (center1_x - center2_x) in
  if Qeq_bool disparity 0 then PInf
  else Fin ((focal_length self * baseline) / disparity).


End Calibration.

Module RiskBatch.

Import DistanceEstimator CollisionRiskAssessor.

(** An obstacle dictionary as [assess_risk] reads it. *)
Record risk_obstacle : Type := RiskObstacle {
  ro_class : string;
  ro_bbox : bbox;
  ro_is_static : option bool
}.

Definition assess (est : DistanceEstimator.t) (oz : risk_obstacle * string)
  : option risk :=
  assess_risk est (ro_class (fst oz)) (ro_bbox (fst oz))
    (default false (ro_is_static (fst oz))) (snd oz).

(** [max(xs, key=key)], started on the first element: a later element
    replaces the current maximum only when its key is larger. *)
Fixpoint max_by {A : Type} (key : A -> Q) (best : A) (xs : list A) : A :=
  match xs with
  | [] => best
  | x :: rest => max_by key (if Qltb (key best) (key x) then x else best) rest
  end.

Definition level_eqb (a b : level) : bool :=
  match a, b with
  | critical, critical | high, high | medium, medium | low, low => true
  | _, _ => false
  end.

Definition count_level (l : level) (assessments : list risk) : nat :=
  length (List.filter (fun a => level_eqb (r_risk_level a) l) assessments).

(** The dictionary returned; the two counts are absent in the branch
    for no obstacle. *)
Record overall : Type := Overall {
  max_risk_level : level;
  max_risk_score : Q;
  obstacle_count : nat;
  assessments : list risk;
  critical_count : option nat;
  high_count : option nat
}.

Fixpoint assess_all (est : DistanceEstimator.t)
    (pairs : list (risk_obstacle * string)) : option (list risk) :=
  match pairs with
  | [] => Some []
  | oz :: rest =>
      a ← assess est oz;
      others ← assess_all est rest;
      Some (a :: others)
  end.

(** [assess_multiple_obstacles(obstacles, zones)]; [None] is an
    exception: of [assess_risk], or the [ValueError] of [max] on an
    empty list. *)
Definition assess_multiple_obstacles (est : DistanceEstimator.t)
    (obstacles : list risk_obstacle) (zones : list string) : option overall :=
  match obstacles with
  | [] =>
      Some {| max_risk_level := low; max_risk_score := 0;
              obstacle_count := 0; assessments := [];
              critical_count := None; high_count := None |}
  | _ =>
      assessments ← assess_all est (combine obstacles zones);
      match assessments with
      | [] => None
      | first :: rest =>
          let max_assessment := max_by r_risk_score first rest in
          Some {| max_risk_level := r_risk_level max_assessment;
                  max_risk_score := r_risk_score max_assessment;
                  obstacle_count := length obstacles;
                  assessments := assessments;
                  critical_count := Some (count_level critical assessments);
                  high_count := Some (count_level high assessments) |}
      end
  end.

End RiskBatch.

(** ** multi_frame_confirmation.py: duplicate alerts and queries *)

Module AlertHistory.

(** An element of [alert_history]. *)
Record alert : Type := Alert {
  a_timestamp : Q;
  a_class : string;
  a_bbox : bbox
}.

(** [self.alert_history], a [deque(maxlen=100)], oldest first. *)
Definition t : Type := list alert.

Definition init : t := [].




End AlertHistory.

Module ConfirmationQueries.

Import MultiFrameConfirmation.

(** The dictionary [get_obstacle_info] returns. *)
Record info : Type := Info {
  i_object_id : nat;
  i_first_seen : option Q;
  i_last_seen : option Q;
  i_duration : Q;
  i_detection_count : nat;
  i_confirmed : bool;
  i_is_static : bool;
  i_positions : list (Q * Q)
}.

(** [history['last_seen'] - history['first_seen'] if
    history['first_seen'] else 0]; [None] is the [TypeError] of
    subtracting from an unset [last_seen]. *)
Definition duration_of (h : history) : option Q :=
  match first_seen h with
  | None => Some 0
  | Some f =>
      if Qeq_bool f 0 then Some 0
      else
        match last_seen h with
        | Some l => Some (l - f)
        | None => None
        end
  end.

(** [get_obstacle_info(obj_id)]: the outer [None] is an exception, the
    inner one the value [None] returned for an unknown identifier. *)
Definition get_obstacle_info (self : t) (obj_id : nat) : option (option info) :=
  match obstacle_history self !! obj_id with
  | None => Some None
  | Some history =>
      duration ← duration_of history;
      Some (Some {| i_object_id := obj_id;
                    i_first_seen := first_seen history;
                    i_last_seen := last_seen history;
                    i_duration := duration;
                    i_detection_count := length (detections history);
                    i_confirmed := confirmed history;
                    i_is_static := is_static history;
                    i_positions := positions history |})
  end.

(** [reset()]. *)
Definition reset (self : t) : t :=
  {| min_consecutive_frames := min_consecutive_frames self;
     max_frame_gap := max_frame_gap self;
     movement_threshold := movement_threshold self;
     obstacle_history := ∅;
     confirmed_obstacles := ∅;
     frame_count := 0 |}.

Record confirmation_stats : Type := ConfirmationStats {
  s_frame_count : nat;
  s_total_tracked : nat;
  s_total_confirmed : nat;
  s_confirmation_rate : Q;
  s_static_obstacles : nat
}.

(** [get_stats()]. *)
Definition get_stats (self : t) : confirmation_stats :=
  let total_tracked := size (obstacle_history self) in
  let total_confirmed := size (confirmed_obstacles self) in
  let static_count :=
    size (filter (fun kv => is_static (snd kv) = true) (obstacle_history self)) in
  {| s_frame_count := frame_count self;
     s_total_tracked := total_tracked;
     s_total_confirmed := total_confirmed;
     s_confirmation_rate :=
       if (0 <? total_tracked)%nat
       then inject_Z (Z.of_nat total_confirmed) / inject_Z (Z.of_nat total_tracked)
       else 0;
     s_static_obstacles := static_count |}.

End ConfirmationQueries.

(** [int(x)] of a float: rounding towards zero. *)
Definition int_of (x : Q) : Z :=
  if Qle_bool 0 x then Qfloor x else Qceiling x.

(** ** obstacle_detection.py: the detector around the model *)

Module ObstacleDetector.

(** A value of [class_mappings]: one class identifier or a list. *)
Inductive class_ids : Type :=
| One (class_id : Z)
| Many (ids : list Z).

Record t : Type := Make {
  human_ids : class_ids;
  vehicle_ids : class_ids;
  animal_ids : class_ids;
  debris_ids : class_ids
}.

(** The mapping [__init__] builds when the configuration gives none. *)
Definition defaults : t :=
  {| human_ids := One 0;
     vehicle_ids := Many [2; 3; 5; 7]%Z;
     animal_ids := Many (List.map Z.of_nat (seq 15 9));
     debris_ids := Many (List.map Z.of_nat (seq 24 4)) |}.

(** [class_id == ids]: an integer equals no list. *)
Definition equals (class_id : Z) (ids : class_ids) : bool :=
  match ids with
  | One n => (class_id =? n)%Z
  | Many _ => false
  end.

(** [isinstance(ids, list) and class_id in ids], [elif class_id == ids]. *)
Definition among (class_id : Z) (ids : class_ids) : bool :=
  match ids with
  | Many l => existsb (Z.eqb class_id) l
  | One n => (class_id =? n)%Z
  end.

Definition _get_obstacle_class (self : t) (class_id : Z) : option string :=
  if equals class_id (human_ids self) then Some "human"%string
  else if among class_id (vehicle_ids self) then Some "vehicle"%string
  else if among class_id (animal_ids self) then Some "animal"%string
  else if among class_id (debris_ids self) then Some "debris"%string
  else None.

(** A box of the model's result: corner coordinates, confidence and
    class, all floating-point numbers. *)
Record raw_box : Type := RawBox {
  rb_xyxy : Q * Q * Q * Q;
  rb_conf : Q;
  rb_cls : Q
}.

(** The body of the loop over the boxes. *)
Definition detection_of (self : t) (box : raw_box) : list detection :=
  let '(x1, y1, x2, y2) := rb_xyxy box in
  let confidence := rb_conf box in
  let class_id := int_of (rb_cls box) in
  match _get_obstacle_class self class_id with
  | Some class_name =>
      [ {| det_class := class_name;
           det_confidence := confidence;
           det_bbox := (int_of x1, int_of y1, int_of x2, int_of y2);
           det_class_id := class_id |} ]
  | None => []
  end.

(** [detect(frame)], given what the model predicts for the frame: the
    boxes of its results, or [None] when there is no model or the
    prediction raises. *)
Definition detect (self : t) (predicted : option (list raw_box))
  : list detection :=
  match predicted with
  | None => []
  | Some boxes => flat_map (detection_of self) boxes
  end.






End ObstacleDetector.

(** ** track_segmentation.py: the zones in pixels *)

Module ZoneCoordinates.

Import TrackSegmentation.

(** A rectangle [{'x1': .., 'x2': .., 'y1': .., 'y2': ..}]. *)
Record rect : Type := Rect { x1 : Z; x2 : Z; y1 : Z; y2 : Z }.

(** [get_zone_coordinates()]: the rectangles under the keys 'critical'
    and 'warning', or [None] for the empty dictionary returned while
    the frame dimensions are unset. *)
Definition get_zone_coordinates (self : t) : option (rect * rect) :=
  match frame_width self, frame_height self with
  | Some width, Some height =>
      let center_x := (width / 2)%Z in
      let critical_left :=
        int_of (inject_Z center_x
                - (inject_Z width * critical_zone_width self / 2)) in
      let critical_right :=
        int_of (inject_Z center_x
                + (inject_Z width * critical_zone_width self / 2)) in
      let warning_left :=
        int_of (inject_Z center_x
                - (inject_Z width * warning_zone_width self / 2)) in
      let warning_right :=
        int_of (inject_Z center_x
                + (inject_Z width * warning_zone_width self / 2)) in
      let top_y := int_of (inject_Z height * track_top_y self) in
      let bottom_y := int_of (inject_Z height * track_bottom_y self) in
      Some ({| x1 := critical_left; x2 := critical_right;
               y1 := top_y; y2 := bottom_y |},
            {| x1 := warning_left; x2 := warning_right;
               y1 := top_y; y2 := bottom_y |})
  | _, _ => None
  end.

End ZoneCoordinates.

(** ** video_capture.py: the buffer of recent frames *)

Module FrameBuffer.

Record t (frame : Type) : Type := Make {
  max_size : Z;
  frames : list frame;
  timestamps : list Q
}.

Arguments Make {frame}.
Arguments max_size {frame}.
Arguments frames {frame}.
Arguments timestamps {frame}.

Definition init {frame : Type} (max_size : Z) : t frame :=
  {| max_size := max_size; frames := []; timestamps := [] |}.

(** [xs.pop(0)], the list that is left; on an empty list it raises. *)
Definition pop0 {A : Type} (xs : list A) : option (list A) :=
  match xs with
  | [] => None
  | _ :: rest => Some rest
  end.

Definition add_frame {frame : Type} (self : t frame) (f : frame)
    (timestamp : Q) : option (t frame) :=
  let frames := frames self ++ [f] in
  let timestamps := timestamps self ++ [timestamp] in
  if (max_size self <? Z.of_nat (length frames))%Z then
    frames' ← pop0 frames;
    timestamps' ← pop0 timestamps;
    Some {| max_size := max_size self; frames := frames';
            timestamps := timestamps' |}
  else
    Some {| max_size := max_size self; frames := frames;
            timestamps := timestamps |}.

(** [xs[-n:]] for an integer [n] of either sign. *)
Definition slice_from_neg {A : Type} (n : Z) (xs : list A) : list A :=
  if (0 <? n)%Z then drop (length xs - Z.to_nat n) xs
  else drop (Z.to_nat (- n)) xs.

(** [get_frames(n)]; [None] is the default [n=None]. *)
Definition get_frames {frame : Type} (self : t frame) (n : option Z)
  : list frame :=
  match n with
  | None => frames self
  | Some n => slice_from_neg n (frames self)
  end.

Definition get_frame_at {frame : Type} (self : t frame) (index : Z)
  : option frame :=
  if (0 <=? index)%Z && (index <? Z.of_nat (length (frames self)))%Z
  then frames self !! Z.to_nat index
  else None.

Definition clear {frame : Type} (self : t frame) : t frame :=
  {| max_size := max_size self; frames := []; timestamps := [] |}.

Definition len {frame : Type} (self : t frame) : nat := length (frames self).

End FrameBuffer.

(** ** image_processor.py: one image *)

Module ImageProcessor.

Import SeverityClassifier IncidentReporter.

(** The incident dictionary built for a detection: the risk is assessed
    on the detection as it is (it has no 'is_static' key), the incident
    is marked static. *)
Definition incident_data (ts : TrackSegmentation.t) (est : DistanceEstimator.t)
    (det : detection) : option incident :=
  zone ← TrackSegmentation.classify_zone ts (det_bbox det);
  risk ← CollisionRiskAssessor.assess_risk est
           (det_class det) (det_bbox det) false zone;
  Some {| obstacle_class := Some (det_class det);
          SeverityClassifier.zone := Some zone;
          ttc := Some (CollisionRiskAssessor.r_ttc_seconds risk);
          distance := Some (CollisionRiskAssessor.r_distance_m risk);
          SeverityClassifier.is_static := Some true;
          confidence := Some (det_confidence det);
          inc_bbox := Some (det_bbox det) |}.

(** [severity in ['critical', 'high', 'medium']]. *)
Definition reportable (s : severity) : bool :=
  match s with
  | critical | high | medium => true
  | low => false
  end.

Definition image_step (ts : TrackSegmentation.t) (est : DistanceEstimator.t)
    (incidents : list report) (det : detection) : option (list report) :=
  incident ← incident_data ts est det;
  let severity := classify incident in
  if reportable severity
  then Some (incidents ++ [generate_report incident])
  else Some incidents.

(** [process_image], from the loaded image on: [shape] is
    [image.shape[:2]], [detections] what the detector returns; the
    result is the segmentation state and the list 'incidents'. *)
Definition process_image (ts : TrackSegmentation.t) (est : DistanceEstimator.t)
    (shape : Z * Z) (detections : list detection)
  : option (TrackSegmentation.t * list report) :=
  let ts :=
    match TrackSegmentation.frame_width ts with
    | None =>
        TrackSegmentation.initialize_frame_dimensions ts (fst shape) (snd shape)
    | Some _ => ts
    end in
  incidents ← for_each (image_step ts est) detections [];
  Some (ts, incidents).

End ImageProcessor.

(** * Specification-side definitions

    The rule tables and the closed formulas as the specification words
    them, to be compared with the functions embedded above. *)

Module Spec.

(** The three ordered predicate groups of the severity rules. *)
Definition critical_rule (c z : string) (t : pyfloat) (s : bool) : Prop :=
  (c = "human"%string /\ z = "critical"%string /\ pf_lt t 20)
  \/ (c = "vehicle"%string /\ z = "critical"%string /\ pf_lt t 15)
  \/ (s = true /\ z = "critical"%string /\ pf_lt t 25)
  \/ ((c = "human"%string \/ c = "vehicle"%string)
      /\ z = "critical"%string /\ pf_lt t 10).

Definition high_rule (c z : string) (t : pyfloat) (s : bool) : Prop :=
  (c = "human"%string /\ z = "warning"%string /\ pf_lt t 40)
  \/ (c = "animal"%string /\ z = "critical"%string)
  \/ (c = "debris"%string /\ z = "critical"%string /\ s = true)
  \/ (c = "vehicle"%string /\ z = "warning"%string /\ pf_lt t 30)
  \/ (z = "critical"%string /\ pf_lt t 40).

Definition medium_rule (c z : string) (t : pyfloat) : Prop :=
  (c = "animal"%string /\ z = "warning"%string)
  \/ (c = "debris"%string /\ z = "critical"%string)
  \/ (c = "vehicle"%string /\ z = "warning"%string /\ pf_lt t 60)
  \/ (c = "human"%string /\ pf_lt t 60)
  \/ (z = "critical"%string /\ pf_lt t 60).

(** The four terms of the risk score. *)
Definition base (c : string) : Q :=
  if decide (c = "human"%string) then 40
  else if decide (c = "vehicle"%string) then 35
  else if decide (c = "animal"%string) then 30
  else if decide (c = "debris"%string) then 20
  else 25.

Definition mult (z : string) : Q :=
  if decide (z = "critical"%string) then 2
  else if decide (z = "warning"%string) then 3 # 2
  else if decide (z = "safe"%string) then 1 # 2
  else 1.

Definition ttc_bonus (t : pyfloat) : Q :=
  if pf_ltb t 10 then 30
  else if pf_ltb t 20 then 20
  else if pf_ltb t 40 then 10
  else 0.

Definition static_bonus (s : bool) : Q := if s then 10 else 0.

End Spec.

(** * Invariants and runs *)

Module TrackerInv.
Import ObstacleTracker.

(** [self.objects[object_id]] and [self.disappeared[object_id]]. *)
Definition obj (self : t) (object_id : nat) : option detection :=
  dict_get object_id (objects self).

Definition dis (self : t) (object_id : nat) : option nat :=
  dict_get object_id (disappeared self).

Definition registered (self : t) (object_id : nat) : Prop :=
  In object_id (dict_keys (objects self)).

(** The state of a tracker that [__init__], [register], [deregister]
    and [update] can produce: the two dictionaries hold the same keys in
    the same order, and every key is below the next identifier. *)
Definition wf (self : t) : Prop :=
  dict_keys (objects self) = dict_keys (disappeared self)
  /\ List.NoDup (dict_keys (objects self))
  /\ Forall (fun k => (k < next_object_id self)%nat) (dict_keys (objects self)).

(** What one "mark as disappeared" turn does to the track [id], from
    the state [s0] to the state [s]. *)
Definition marked (s0 s : t) (id : nat) : Prop :=
  exists n, dis s0 id = Some n
    /\ if (max_disappeared s0 <? n + 1)%nat
       then obj s id = None /\ dis s id = None
       else obj s id = obj s0 id /\ dis s id = Some (n + 1)%nat.

Definition same_at (s0 s : t) (id : nat) : Prop :=
  obj s id = obj s0 id /\ dis s id = dis s0 id.

(** A detection is within the gating distance of a stored one. *)
Definition close (d stored : detection) : bool :=
  norm_ltb (norm_sq (_get_center (det_bbox d)) (_get_center (det_bbox stored))) 100.

(** In the state [s] the track [id] of [s0] has been claimed by one of
    the detections [dets]. *)
Definition claimed (s0 s : t) (dets : list detection) (id : nat) : Prop :=
  dis s id = Some 0%nat
  /\ exists d old, In d dets /\ obj s0 id = Some old /\ obj s id = Some d
                  /\ close d old = true.

(** Invariant of the matching loop of [update], started in [s0] on
    [dets], when [rest] is still to be processed. *)
Definition matching_inv (s0 : t) (dets : list detection)
    (st : t * list nat) (rest : list detection) : Prop :=
  (exists done,
     dets = done ++ rest
     /\ forall d, In d done ->
          exists id, ~ In id (snd st) /\ obj (fst st) id = Some d)
  /\ wf (fst st)
  /\ max_disappeared (fst st) = max_disappeared s0
  /\ (next_object_id s0 <= next_object_id (fst st))%nat
  /\ List.NoDup (snd st)
  /\ (forall id, In id (snd st) -> registered s0 id /\ same_at s0 (fst st) id)
  /\ (forall id, registered s0 id -> ~ In id (snd st) ->
        claimed s0 (fst st) dets id)
  /\ (forall id, registered (fst st) id ->
        registered s0 id \/ (next_object_id s0 <= id)%nat).

(** [frames] are consecutive updates, from [self] to [final], in each of
    which the track [object_id] is claimed by no detection. *)
Fixpoint unmatched_run (object_id : nat) (self : t)
    (frames : list (list detection)) (final : t) : Prop :=
  match frames with
  | [] => final = self
  | dets :: rest =>
      In object_id (unmatched self dets)
      /\ exists self1 ret,
           update self dets = Some (self1, ret)
           /\ unmatched_run object_id self1 rest final
  end.

End TrackerInv.

Module ConfirmInv.
Import MultiFrameConfirmation.

(** The test of [_should_confirm], on the list of history entries. *)
Definition confirm_test (min_frames max_gap : nat) (dets : list entry) : bool :=
  if (length dets <? min_frames)%nat then false
  else
    forallb (fun gap => (gap <=? Z.of_nat max_gap)%Z)
      (frame_gaps (List.map e_frame (slice_last min_frames dets))).

(** The history entries of a track after the loop body appended the
    current frame. *)
Definition appended (self : t) (now : Q) (d : detection) (h : history)
  : list entry :=
  deque_append (min_consecutive_frames self + max_frame_gap self)
    (detections h)
    {| e_detection := d; e_frame := frame_count self; e_timestamp := now |}.

Definition first_of (now : Q) (h : history) : Q :=
  match first_seen h with
  | None => now
  | Some f => f
  end.

Definition static_of (self : t) (d : detection) (h : history) : bool :=
  let poss := deque_append 10 (positions h) (_get_center (det_bbox d)) in
  if (3 <=? length poss)%nat then _is_static self poss else is_static h.

(** The history of a track after one turn of the loop body. *)
Definition next_history (self : t) (now : Q) (d : detection) (h : history)
  : history :=
  {| detections := appended self now d h;
     first_seen := Some (first_of now h);
     last_seen := Some now;
     confirmed :=
       confirmed h
       || confirm_test (min_consecutive_frames self) (max_frame_gap self)
            (appended self now d h);
     positions := deque_append 10 (positions h) (_get_center (det_bbox d));
     is_static := static_of self d h |}.

(** What one turn of the loop body adds to the returned list. *)
Definition report_of (self : t) (now : Q) (item : nat * detection)
  : list obstacle :=
  let h := get_history self (fst item) in
  if confirm_test (min_consecutive_frames self) (max_frame_gap self)
       (appended self now (snd item) h)
  then [ {| o_detection := snd item; o_object_id := fst item;
            o_duration := now - first_of now h;
            o_is_static := static_of self (snd item) h;
            o_frame_count := length (appended self now (snd item) h) |} ]
  else [].

(** The confirmation state after one turn of the loop body. *)
Definition stepped (self : t) (now : Q) (item : nat * detection) : t :=
  let h := get_history self (fst item) in
  {| min_consecutive_frames := min_consecutive_frames self;
     max_frame_gap := max_frame_gap self;
     movement_threshold := movement_threshold self;
     obstacle_history :=
       <[fst item := next_history self now (snd item) h]> (obstacle_history self);
     confirmed_obstacles :=
       if confirm_test (min_consecutive_frames self) (max_frame_gap self)
            (appended self now (snd item) h)
          && negb (confirmed h)
       then <[fst item := snd item]> (confirmed_obstacles self)
       else confirmed_obstacles self;
     frame_count := frame_count self |}.

Definition same_params (a b : t) : Prop :=
  min_consecutive_frames a = min_consecutive_frames b
  /\ max_frame_gap a = max_frame_gap b
  /\ movement_threshold a = movement_threshold b
  /\ frame_count a = frame_count b.

(** The update counts the frame, then loops. *)
Definition counted (self : t) : t :=
  {| min_consecutive_frames := min_consecutive_frames self;
     max_frame_gap := max_frame_gap self;
     movement_threshold := movement_threshold self;
     obstacle_history := obstacle_history self;
     confirmed_obstacles := confirmed_obstacles self;
     frame_count := frame_count self + 1 |}.

(** The track is among the obstacles a call returned. *)
Definition reported (object_id : nat) (out : list obstacle) : Prop :=
  exists o, In o out /\ o_object_id o = object_id.

(** Consecutive calls of [update], each with its clock reading and its
    tracked objects; the lists returned, in order. *)
Fixpoint run (self : t) (frames : list (Q * dict detection))
  : t * list (list obstacle) :=
  match frames with
  | [] => (self, [])
  | (now, tracked) :: rest =>
      let '(self1, out) := update self now tracked in
      let '(final, outs) := run self1 rest in
      (final, out :: outs)
  end.

End ConfirmInv.

Module ConfirmSpec.

(** The specification's criterion on the frame numbers [frames] of a
    history: at least [min_frames] entries, and between any two
    neighbours among the most recent [min_frames] of them a gap
    (difference of frame numbers minus 1) of at most [max_gap]. *)
Definition confirmable (min_frames max_gap : nat) (frames : list nat) : Prop :=
  (min_frames <= length frames)%nat
  /\ let recent := drop (length frames - min_frames) frames in
     forall (i f1 f2 : nat),
       recent !! i = Some f1 -> recent !! S i = Some f2 ->
       (Z.of_nat f2 - Z.of_nat f1 - 1 <= Z.of_nat max_gap)%Z.

End ConfirmSpec.

Module PipelineInv.
Import RailTrackSystem.

(** The signed area the false-alert filter computes. *)
Definition area (b : bbox) : Z :=
  let '(x1, y1, x2, y2) := b in ((x2 - x1) * (y2 - y1))%Z.

(** A bounding box with [x2 <= x1] or [y2 <= y1]. *)
Definition degenerate (b : bbox) : Prop :=
  let '(x1, y1, x2, y2) := b in (x2 <= x1)%Z \/ (y2 <= y1)%Z.

(** The frame dimensions the zone classifier will divide by are set, or
    are about to be set from the frame, and are not zero. *)
Definition dims_ok (self : t) (shape : Z * Z) : Prop :=
  match TrackSegmentation.frame_width (track_segmentation self) with
  | None => fst shape <> 0%Z /\ snd shape <> 0%Z
  | Some w =>
      w <> 0%Z
      /\ exists h,
           TrackSegmentation.frame_height (track_segmentation self) = Some h
           /\ h <> 0%Z
  end.

(** The track-segmentation state [process_frame] works with. *)
Definition ts_of (self : t) (shape : Z * Z) : TrackSegmentation.t :=
  match TrackSegmentation.frame_width (track_segmentation self) with
  | None =>
      TrackSegmentation.initialize_frame_dimensions
        (track_segmentation self) (fst shape) (snd shape)
  | Some _ => track_segmentation self
  end.

(** What is handed to the collaborators for one report. *)
Definition emitted_for (r : IncidentReporter.report) : list event :=
  [send_alert r; log_incident r].

(** Consecutive frames of one shape, each with its detections and its
    clock reading. *)
Fixpoint process_frames (self : t) (shape : Z * Z)
    (frames : list (list detection * Q)) : option (t * list results) :=
  match frames with
  | [] => Some (self, [])
  | (dets, now) :: rest =>
      '(self1, res) ← process_frame self shape dets now;
      '(final, ress) ← process_frames self1 shape rest;
      Some (final, res :: ress)
  end.

End PipelineInv.

(** * Concrete scenarios *)

Module Scenario.

(** A person standing on the track. *)
Definition person : detection :=
  {| det_class := "human"; det_confidence := 0.95;
     det_bbox := (300, 300, 340, 420)%Z; det_class_id := 0 |}.

(** An animal beside the track. *)
Definition animal : detection :=
  {| det_class := "animal"; det_confidence := 0.9;
     det_bbox := (400, 250, 470, 350)%Z; det_class_id := 16 |}.

(** A box of width 0. *)
Definition sliver : detection :=
  {| det_class := "human"; det_confidence := 0.9;
     det_bbox := (10, 10, 10, 50)%Z; det_class_id := 0 |}.

(** The confirmation stage of [main], after track 1 was seen on frames
    1 to 5 and on none of frames 6 to 9. *)
Definition seen_then_lost : MultiFrameConfirmation.t :=
  fst (ConfirmInv.run (MultiFrameConfirmation.init 5 3 50)
         (repeat (0, [(1%nat, person)]) 5 ++ repeat (0, []) 4)).

(** The history of track 1 in that state. *)
Definition lost_history : MultiFrameConfirmation.history :=
  default MultiFrameConfirmation.new_history
    (MultiFrameConfirmation.obstacle_history seen_then_lost !! 1%nat).


(** A tracker that tolerates one missed frame, holding the person as
    track 0; the same after one and after two frames without
    detections. *)
Definition tracking : ObstacleTracker.t :=
  fst (ObstacleTracker.register (ObstacleTracker.init 1) person).


(** The default zone geometry on frames of 480 rows and 640 columns. *)
Definition framed : TrackSegmentation.t :=
  TrackSegmentation.initialize_frame_dimensions TrackSegmentation.defaults
    480 640.

(** The system of [main] with the default configuration. *)
Definition system : RailTrackSystem.t :=
  RailTrackSystem.init TrackSegmentation.defaults DistanceEstimator.defaults.

Definition no_results : RailTrackSystem.results :=
  {| RailTrackSystem.res_detections := [];
     RailTrackSystem.res_confirmed_obstacles := [];
     RailTrackSystem.res_filtered_obstacles := [];
     RailTrackSystem.res_incidents := [];
     RailTrackSystem.res_emitted := [] |}.

(** The system after [n] frames of 480 rows and 640 columns that all
    show the detection [d]. *)
Definition after (n : nat) (d : detection) : RailTrackSystem.t :=
  match PipelineInv.process_frames system (480, 640)%Z (repeat ([d], 0) n) with
  | Some (self, _) => self
  | None => system
  end.

(** The outcome of one more such frame. *)
Definition next_frame (n : nat) (d : detection)
  : RailTrackSystem.t * RailTrackSystem.results :=
  default (system, no_results)
    (RailTrackSystem.process_frame (after n d) (480, 640)%Z [d] 0).

End Scenario.

(** * Orders used by the further properties *)

Module Order.

(** [x <= y] on floats; NaN is comparable with nothing. *)
Definition pf_le (x y : pyfloat) : Prop :=
  match x, y with
  | Fin a, Fin b => a <= b
  | NInf, (Fin _ | NInf | PInf) => True
  | Fin _, PInf => True
  | PInf, PInf => True
  | _, _ => False
  end.

(** A float that is neither negative nor NaN. *)
Definition nonneg_or_inf (x : pyfloat) : Prop :=
  match x with
  | Fin q => 0 <= q
  | PInf => True
  | NInf | NaN => False
  end.

(** The urgency of a level, 'low' = 1 to 'critical' = 4. *)
Definition level_rank (l : DistanceEstimator.level) : nat :=
  match l with
  | DistanceEstimator.critical => 4
  | DistanceEstimator.high => 3
  | DistanceEstimator.medium => 2
  | DistanceEstimator.low => 1
  end.

(** Number of elements of a list that pass a test. *)
Definition count {A : Type} (p : A -> bool) (xs : list A) : nat :=
  length (List.filter p xs).

(** An incident dictionary with its four deciding fields. *)
Definition incident_of (c z : string) (t : pyfloat) (s : bool)
  : SeverityClassifier.incident :=
  SeverityClassifier.Incident (Some c) (Some z) (Some t) None (Some s) None None.

(** The zones from the outside in; any other string counts as 'safe'. *)
Definition zone_rank (z : string) : nat :=
  if String.eqb z "critical" then 2
  else if String.eqb z "warning" then 1
  else 0.

(** [counts.get(k, 0)] on a dictionary of counters. *)
Fixpoint counts_get {K : Type} (eqb : K -> K -> bool) (k : K)
    (counts : list (K * nat)) : nat :=
  match counts with
  | [] => 0
  | (k', n) :: rest => if eqb k k' then n else counts_get eqb k rest
  end.

End Order.

Module TrackerBounds.
Import ObstacleTracker.

(** No track has been missing for more frames than the tracker
    tolerates. *)
Definition counters_bounded (self : t) : Prop :=
  Forall (fun kv => (snd kv <= max_disappeared self)%nat) (disappeared self).

(** Squared distance between the centres of a detection and of the
    detection stored for a track. *)
Definition gap (d stored : detection) : Q :=
  norm_sq (_get_center (det_bbox d)) (_get_center (det_bbox stored)).

End TrackerBounds.

Module Coverage.

(** The four obstacle categories. *)
Definition four_classes : list string :=
  ["human"; "vehicle"; "animal"; "debris"]%string.

(** Frames added to a buffer one after the other. *)
Fixpoint add_frames {frame : Type} (self : FrameBuffer.t frame)
    (xs : list (frame * Q)) : option (FrameBuffer.t frame) :=
  match xs with
  | [] => Some self
  | (f, timestamp) :: rest =>
      self' ← FrameBuffer.add_frame self f timestamp;
      add_frames self' rest
  end.

(** The frame dimensions the zone classifier of the image processor
    will divide by are set, or are about to be set from the image, and
    are not zero. *)
Definition image_dims_ok (ts : TrackSegmentation.t) (shape : Z * Z) : Prop :=
  match TrackSegmentation.frame_width ts with
  | None => fst shape <> 0%Z /\ snd shape <> 0%Z
  | Some w =>
      w <> 0%Z
      /\ exists h, TrackSegmentation.frame_height ts = Some h /\ h <> 0%Z
  end.

(** What the image processor reports for one detection. *)
Definition image_report (ts : TrackSegmentation.t) (est : DistanceEstimator.t)
    (det : detection) : list IncidentReporter.report :=
  match ImageProcessor.incident_data ts est det with
  | Some inc =>
      if ImageProcessor.reportable (SeverityClassifier.classify inc)
      then [IncidentReporter.generate_report inc]
      else []
  | None => []
  end.


End Coverage.

(** * Properties *)

(** ** Comparisons *)

Lemma Qltb_iff (x y : Q) : Qltb x y = true <-> x < y.
Proof.
  unfold Qltb. rewrite negb_true_iff.
  split.
  - intros H. apply Qnot_le_lt. intros Hle.
    apply Qle_bool_iff in Hle. congruence.
  - intros H. destruct (Qle_bool y x) eqn:E; [|reflexivity].
    apply Qle_bool_iff in E. exfalso. exact (Qlt_not_le _ _ H E).
Qed.

Lemma Qltb_false_iff (x y : Q) : Qltb x y = false <-> y <= x.
Proof.
  unfold Qltb. rewrite negb_false_iff. apply Qle_bool_iff.
Qed.

Lemma pf_ltb_iff (x : pyfloat) (c : Q) : pf_ltb x c = true <-> pf_lt x c.
Proof.
  destruct x; simpl; try apply Qltb_iff; split; auto; discriminate.
Qed.

Lemma String_eqb_iff (a b : string) : String.eqb a b = true <-> a = b.
Proof. apply String.eqb_eq. Qed.

(** ** Severity rules *)

Section SeverityRules.
Import SeverityClassifier.

Ltac bools :=
  unfold existsb, id;
  repeat rewrite orb_true_iff; repeat rewrite andb_true_iff;
  repeat rewrite orb_true_iff;
  repeat rewrite String_eqb_iff; repeat rewrite pf_ltb_iff.

Lemma _is_critical_iff c z t s :
  _is_critical c z t s = true <-> Spec.critical_rule c z t s.
Proof.
  unfold _is_critical, Spec.critical_rule. bools.
  destruct s; intuition congruence.
Qed.

Lemma _is_high_iff c z t s :
  _is_high c z t s = true <-> Spec.high_rule c z t s.
Proof.
  unfold _is_high, Spec.high_rule. bools.
  destruct s; intuition congruence.
Qed.

Lemma _is_medium_iff c z t :
  _is_medium c z t = true <-> Spec.medium_rule c z t.
Proof.
  unfold _is_medium, Spec.medium_rule. bools. intuition congruence.
Qed.

(** C1.  The severity of an incident that carries its four fields is
    'critical' exactly when a critical rule holds, otherwise 'high'
    exactly when a high rule holds, otherwise 'medium' exactly when a
    medium rule holds, otherwise 'low'; a human in the critical zone at
    TTC 15 is critical and an animal in the warning zone at TTC 45 is
    medium. *)
Theorem classify_rules :
  forall (c z : string) (t : pyfloat) (s : bool)
         (d : option pyfloat) (conf : option Q) (b : option bbox),
    let inc := Incident (Some c) (Some z) (Some t) d (Some s) conf b in
    (classify inc = critical <-> Spec.critical_rule c z t s)
    /\ (classify inc = high <->
          ~ Spec.critical_rule c z t s /\ Spec.high_rule c z t s)
    /\ (classify inc = medium <->
          ~ Spec.critical_rule c z t s /\ ~ Spec.high_rule c z t s
          /\ Spec.medium_rule c z t)
    /\ (classify inc = low <->
          ~ Spec.critical_rule c z t s /\ ~ Spec.high_rule c z t s
          /\ ~ Spec.medium_rule c z t)
    /\ classify (Incident (Some "human"%string) (Some "critical"%string)
                   (Some (Fin 15)) d None conf b) = critical
    /\ classify (Incident (Some "animal"%string) (Some "warning"%string)
                   (Some (Fin 45)) d None conf b) = medium.
Proof.
  intros c z t s d conf b inc.
  assert (Hc := _is_critical_iff c z t s).
  assert (Hh := _is_high_iff c z t s).
  assert (Hm := _is_medium_iff c z t).
  unfold inc, classify; simpl.
  destruct (_is_critical c z t s), (_is_high c z t s), (_is_medium c z t);
    repeat split; try reflexivity; try discriminate;
    try (intros; exfalso; intuition congruence);
    try (intros; intuition congruence).
Qed.

End SeverityRules.

(** ** Risk score *)

Section RiskScore.
Import CollisionRiskAssessor.

Lemma class_scores_get_spec c : class_scores_get c = Spec.base c.
Proof.
  unfold class_scores_get, Spec.base.
  repeat (case_decide; subst; simpl; [reflexivity|]).
  repeat match goal with
         | H : ?a <> ?b |- context [String.eqb ?a ?b] =>
             apply String.eqb_neq in H; rewrite H
         end.
  reflexivity.
Qed.

Lemma zone_multipliers_get_spec z : zone_multipliers_get z == Spec.mult z.
Proof.
  unfold zone_multipliers_get, Spec.mult.
  repeat (case_decide; subst; simpl; [reflexivity|]).
  repeat match goal with
         | H : ?a <> ?b |- context [String.eqb ?a ?b] =>
             apply String.eqb_neq in H; rewrite H
         end.
  reflexivity.
Qed.

Lemma min_100 (s x : Q) :
  s == x -> (if Qltb s 100 then s else 100) == Qmin 100 x.
Proof.
  intros E. destruct (Qltb s 100) eqn:L.
  - apply Qltb_iff in L. rewrite Q.min_r; [exact E|].
    rewrite <- E. apply Qlt_le_weak, L.
  - apply Qltb_false_iff in L. rewrite Q.min_l; [reflexivity|].
    rewrite <- E. exact L.
Qed.

Lemma Qle_bool_false (a r : Q) : Qle_bool a r = false <-> r < a.
Proof.
  rewrite <- Qltb_iff. unfold Qltb. rewrite negb_true_iff. reflexivity.
Qed.

(** C5.  The risk score is [min(100, base * mult + ttc_bonus +
    static_bonus)] and the level derived from a score [r] is 'critical'
    from 75, 'high' from 50, 'medium' from 25 and 'low' below. *)
Theorem risk_score_formula :
  forall (c z : string) (t : pyfloat) (s : bool) (r : Q),
    _calculate_risk_score c z t s
      == Qmin 100 (Spec.base c * Spec.mult z + Spec.ttc_bonus t
                   + Spec.static_bonus s)
    /\ (_get_risk_level r = DistanceEstimator.critical <-> 75 <= r)
    /\ (_get_risk_level r = DistanceEstimator.high <-> 50 <= r /\ r < 75)
    /\ (_get_risk_level r = DistanceEstimator.medium <-> 25 <= r /\ r < 50)
    /\ (_get_risk_level r = DistanceEstimator.low <-> r < 25).
Proof.
  intros c z t s r. split.
  - unfold _calculate_risk_score. apply min_100.
    rewrite class_scores_get_spec.
    unfold Spec.ttc_bonus, Spec.static_bonus.
    destruct (pf_ltb t 10), (pf_ltb t 20), (pf_ltb t 40), s;
      rewrite zone_multipliers_get_spec; ring.
  - unfold _get_risk_level.
    destruct (Qle_bool 75 r) eqn:E75, (Qle_bool 50 r) eqn:E50,
             (Qle_bool 25 r) eqn:E25;
      rewrite ?Qle_bool_iff, ?Qle_bool_false in *;
      repeat split; try discriminate; intros;
      repeat match goal with H : _ /\ _ |- _ => destruct H end;
      try reflexivity; try lra.
Qed.

End RiskScore.

(** ** Distance and time to collision *)

Section DistanceAndTTC.
Import DistanceEstimator.


Lemma Qeq_bool_false (x y : Q) : ~ x == y -> Qeq_bool x y = false.
Proof.
  intros H. destruct (Qeq_bool x y) eqn:E; [|reflexivity].
  apply Qeq_bool_iff in E. contradiction.
Qed.

Lemma kmh_to_ms_nonzero (s : Q) : ~ s == 0 -> ~ s / 3.6 == 0.
Proof.
  intros Hs E. apply Hs.
  assert (H : s == s / 3.6 * 3.6) by (field; discriminate).
  rewrite H, E. reflexivity.
Qed.



End DistanceAndTTC.

Section Binary64Example.
Import PrimFloat.
#[local] Set Warnings "-inexact-float".

(** On binary64 the example of C2 gives the double written 6.8, and a
    time to collision within 0.0001 of 0.408. *)
Lemma distance_and_ttc_binary64 :
  Binary64.estimate_distance 1.7%float 800%float (200, 200, 250, 400)%Z
  = 6.8%float
  /\ ltb 0.4079%float (Binary64.calculate_ttc 6.8%float 60%float) = true
  /\ ltb (Binary64.calculate_ttc 6.8%float 60%float) 0.4081%float = true.
Proof. repeat split; vm_compute; reflexivity. Qed.

End Binary64Example.

(** ** Zones *)

Section Zones.
Import TrackSegmentation.



End Zones.

(** ** Dictionaries *)

Section DictFacts.
Context {V : Type}.
Implicit Types (d : dict V) (k : nat) (v : V).

Lemma dict_get_In k d v : dict_get k d = Some v -> In k (dict_keys d).
Proof.
  induction d as [|[k' v'] d IH]; simpl; [discriminate|].
  destruct (Nat.eqb_spec k k'); [intros _; left; congruence|].
  intros H. right. exact (IH H).
Qed.

Lemma dict_get_None k d : dict_get k d = None <-> ~ In k (dict_keys d).
Proof.
  induction d as [|[k' v'] d IH]; simpl; [tauto|].
  destruct (Nat.eqb_spec k k').
  - split; [discriminate|]. intros H. exfalso. apply H. left. congruence.
  - rewrite IH. split; [intros H [E|I]; [congruence|tauto] | tauto].
Qed.

Lemma dict_get_Some_of_In k d : In k (dict_keys d) -> exists v, dict_get k d = Some v.
Proof.
  intros H. destruct (dict_get k d) eqn:E; [eauto|].
  apply dict_get_None in E. contradiction.
Qed.

Lemma dict_get_set_eq k v d : dict_get k (dict_set k v d) = Some v.
Proof.
  induction d as [|[k' v'] d IH]; simpl.
  - rewrite Nat.eqb_refl. reflexivity.
  - destruct (Nat.eqb_spec k k') as [->|N]; simpl.
    + rewrite Nat.eqb_refl. reflexivity.
    + apply Nat.eqb_neq in N. rewrite N. exact IH.
Qed.

Lemma dict_get_set_ne k k' v d :
  k <> k' -> dict_get k' (dict_set k v d) = dict_get k' d.
Proof.
  intros N. induction d as [|[k0 v0] d IH]; simpl.
  - destruct (Nat.eqb_spec k' k); [congruence | reflexivity].
  - destruct (Nat.eqb_spec k k0) as [->|N0]; simpl.
    + destruct (Nat.eqb_spec k' k0); [congruence | reflexivity].
    + destruct (Nat.eqb_spec k' k0); [reflexivity | exact IH].
Qed.

Lemma dict_keys_set_In k v d :
  In k (dict_keys d) -> dict_keys (dict_set k v d) = dict_keys d.
Proof.
  induction d as [|[k' v'] d IH]; simpl; [tauto|].
  destruct (Nat.eqb_spec k k') as [->|N]; simpl; [reflexivity|].
  intros [E|I]; [congruence|]. f_equal. exact (IH I).
Qed.

Lemma dict_keys_set_fresh k v d :
  ~ In k (dict_keys d) -> dict_keys (dict_set k v d) = dict_keys d ++ [k].
Proof.
  induction d as [|[k' v'] d IH]; simpl; [reflexivity|].
  destruct (Nat.eqb_spec k k') as [->|N]; simpl; [tauto|].
  intros H. f_equal. apply IH. tauto.
Qed.

Lemma dict_keys_remove k d :
  dict_keys (dict_remove k d)
  = List.filter (fun k' => negb (Nat.eqb k k')) (dict_keys d).
Proof.
  induction d as [|[k' v'] d IH]; simpl; [reflexivity|].
  destruct (Nat.eqb k k'); simpl; [exact IH | f_equal; exact IH].
Qed.

Lemma dict_get_remove_eq k d : dict_get k (dict_remove k d) = None.
Proof.
  apply dict_get_None. rewrite dict_keys_remove, filter_In.
  intros [_ H]. rewrite Nat.eqb_refl in H. discriminate.
Qed.

Lemma dict_get_remove_ne k k' d :
  k <> k' -> dict_get k' (dict_remove k d) = dict_get k' d.
Proof.
  intros N. induction d as [|[k0 v0] d IH]; simpl; [reflexivity|].
  destruct (Nat.eqb_spec k k0) as [->|N0]; simpl.
  - destruct (Nat.eqb_spec k' k0); [congruence | exact IH].
  - destruct (Nat.eqb_spec k' k0); [reflexivity | exact IH].
Qed.

End DictFacts.

Lemma filter_NoDup {A : Type} (f : A -> bool) (l : list A) :
  List.NoDup l -> List.NoDup (List.filter f l).
Proof.
  induction 1 as [|x l Hx Hl IH]; simpl; [constructor|].
  destruct (f x); [|exact IH].
  constructor; [|exact IH]. rewrite filter_In. tauto.
Qed.

(** ** Loops *)

(** A loop whose body keeps an invariant and never raises on the elements
    of its list ends normally, in a state where the invariant holds. *)
Lemma for_each_invariant {S A : Type} (body : S -> A -> option S)
    (I : S -> list A -> Prop) (xs : list A) (s : S) :
  (forall s x rest, I s (x :: rest) ->
     exists s', body s x = Some s' /\ I s' rest) ->
  I s xs ->
  exists s', for_each body xs s = Some s' /\ I s' [].
Proof.
  intros Hstep. revert s. induction xs as [|x xs IH]; intros s HI; simpl.
  - eauto.
  - destruct (Hstep s x xs HI) as (s' & -> & HI'). simpl. apply IH, HI'.
Qed.

(** ** The tracker *)

Section Tracker.
Import ObstacleTracker TrackerInv.

Lemma wf_init m : wf (init m).
Proof. repeat split; simpl; constructor. Qed.

Lemma wf_registered_dis self id :
  wf self -> registered self id <-> exists n, dis self id = Some n.
Proof.
  intros (K & _ & _). unfold registered, dis. rewrite K. split.
  - apply dict_get_Some_of_In.
  - intros [n H]. exact (dict_get_In _ _ _ H).
Qed.

Lemma registered_obj self id :
  registered self id <-> exists d, obj self id = Some d.
Proof.
  unfold registered, obj. split.
  - apply dict_get_Some_of_In.
  - intros [n H]. exact (dict_get_In _ _ _ H).
Qed.

Lemma register_spec self d :
  wf self ->
  let self' := fst (register self d) in
  snd (register self d) = next_object_id self
  /\ wf self'
  /\ next_object_id self' = S (next_object_id self)
  /\ max_disappeared self' = max_disappeared self
  /\ obj self' (next_object_id self) = Some d
  /\ dis self' (next_object_id self) = Some 0%nat
  /\ (forall k, k <> next_object_id self -> same_at self self' k)
  /\ dict_keys (objects self') = dict_keys (objects self) ++ [next_object_id self].
Proof.
  intros (K & ND & B). destruct self as [n os ds m]; simpl in *.
  assert (Hfresh : ~ In n (dict_keys os)).
  { intros H. rewrite List.Forall_forall in B. specialize (B _ H). lia. }
  assert (Hfresh' : ~ In n (dict_keys ds)) by (rewrite <- K; exact Hfresh).
  unfold obj, dis, same_at, obj, dis, wf; simpl.
  rewrite !dict_keys_set_fresh by assumption.
  repeat split.
  - lia.
  - congruence.
  - apply List.NoDup_app; auto.
    + constructor; [simpl; tauto | constructor].
    + intros x Hx [E|[]]. subst. auto.
  - apply List.Forall_app. split.
    + eapply List.Forall_impl; [|exact B]. simpl. intros. lia.
    + constructor; [lia | constructor].
  - lia.
  - apply dict_get_set_eq.
  - apply dict_get_set_eq.
  - apply dict_get_set_ne. auto.
  - apply dict_get_set_ne. auto.
Qed.

Lemma mark_disappeared_spec self id n :
  wf self -> dis self id = Some n ->
  exists self',
    mark_disappeared self id = Some self'
    /\ wf self'
    /\ next_object_id self' = next_object_id self
    /\ max_disappeared self' = max_disappeared self
    /\ marked self self' id
    /\ (forall k, k <> id -> same_at self self' k).
Proof.
  intros Hwf Hn.
  assert (Hreg : registered self id) by (apply wf_registered_dis; eauto).
  destruct Hwf as (K & ND & B).
  apply registered_obj in Hreg as [d Hd].
  destruct self as [nx os ds m].
  unfold mark_disappeared, marked, same_at, obj, dis, wf in *; simpl in *.
  rewrite Hn; simpl. rewrite dict_get_set_eq; simpl.
  assert (Hin : In id (dict_keys ds)) by exact (dict_get_In _ _ _ Hn).
  destruct (m <? n + 1)%nat eqn:E.
  - unfold deregister, dict_del; simpl.
    rewrite Hd, dict_get_set_eq; simpl.
    eexists. split; [reflexivity|]. simpl.
    rewrite !dict_keys_remove, dict_keys_set_In by assumption.
    repeat split.
    + congruence.
    + apply filter_NoDup, ND.
    + apply List.Forall_forall. intros x Hx. apply filter_In in Hx as [Hx _].
      rewrite List.Forall_forall in B. auto.
    + exists n. split; [reflexivity|]. rewrite E.
      split; apply dict_get_remove_eq.
    + apply dict_get_remove_ne. auto.
    + rewrite dict_get_remove_ne by auto. apply dict_get_set_ne. auto.
  - eexists. split; [reflexivity|]. simpl.
    rewrite dict_keys_set_In by assumption.
    repeat split; auto.
    + exists n. split; [reflexivity|]. rewrite E.
      split; [reflexivity | apply dict_get_set_eq].
    + apply dict_get_set_ne. auto.
Qed.

Lemma mark_loop_spec ids : forall self,
  wf self -> List.NoDup ids ->
  (forall id, In id ids -> exists n, dis self id = Some n) ->
  exists self',
    for_each mark_disappeared ids self = Some self'
    /\ wf self'
    /\ next_object_id self' = next_object_id self
    /\ max_disappeared self' = max_disappeared self
    /\ (forall id, In id ids -> marked self self' id)
    /\ (forall id, ~ In id ids -> same_at self self' id).
Proof.
  induction ids as [|id ids IH]; intros self Hwf ND Hall; simpl.
  - exists self. split; [reflexivity|]. split; [exact Hwf|].
    split; [reflexivity|]. split; [reflexivity|].
    split; [intros ? [] | intros; split; reflexivity].
  - inversion ND as [|? ? Hnotin ND']; subst.
    destruct (Hall id (or_introl eq_refl)) as [n Hn].
    destruct (mark_disappeared_spec self id n Hwf Hn)
      as (s1 & -> & Hwf1 & Hnx1 & Hm1 & Hmk & Hsame).
    simpl.
    destruct (IH s1 Hwf1 ND') as (s2 & Hrun & Hwf2 & Hnx2 & Hm2 & Hmk2 & Hsame2).
    { intros k Hk. destruct (Hall k (or_intror Hk)) as [nk Hnk].
      exists nk. destruct (Hsame k) as [_ ->]; [congruence | exact Hnk]. }
    exists s2. split; [exact Hrun|]. split; [exact Hwf2|].
    split; [congruence|]. split; [congruence|]. split.
    + intros k [<-|Hk].
      * destruct Hmk as (n' & Hn' & Hc). exists n'. split; [exact Hn'|].
        destruct (Hsame2 id Hnotin) as [-> ->]. exact Hc.
      * destruct (Hmk2 k Hk) as (n' & Hn' & Hc).
        assert (k <> id) by congruence.
        destruct (Hsame k) as [Ho Hd]; [assumption|].
        exists n'. split; [congruence|].
        rewrite <- Hm1, <- Ho. exact Hc.
    + intros k Hk.
      assert (k <> id) by (intros ->; apply Hk; left; reflexivity).
      assert (~ In k ids) by (intros ?; apply Hk; right; assumption).
      destruct (Hsame2 k) as [E1 E2]; [assumption|].
      destruct (Hsame k) as [E3 E4]; [assumption|].
      split; congruence.
Qed.

Lemma closer_loop self c ids : forall acc,
  (forall id, In id ids -> registered self id) ->
  exists best m,
    for_each (closer self c) ids acc = Some (best, m)
    /\ ((best, m) = acc
        \/ exists b o, best = Some b /\ In b ids /\ obj self b = Some o
              /\ m = Some (norm_sq c (_get_center (det_bbox o)))).
Proof.
  induction ids as [|id ids IH]; intros [best m] Hreg; simpl.
  - eauto.
  - destruct (proj1 (registered_obj self id) (Hreg id (or_introl eq_refl)))
      as [o Ho].
    unfold obj in Ho. rewrite Ho. simpl.
    match goal with
    | |- context [if ?b then _ else _] => destruct b
    end; simpl.
    + destruct (IH (Some id, Some (norm_sq c (_get_center (det_bbox o)))))
        as (best' & m' & -> & Hres);
        [intros ? ?; apply Hreg; right; assumption|].
      exists best', m'. split; [reflexivity|]. right.
      destruct Hres as [E | (b & o' & -> & Hb & Ho' & ->)].
      * inversion E; subst. exists id, o. simpl. auto.
      * exists b, o'. simpl. auto.
    + destruct (IH (best, m)) as (best' & m' & -> & Hres);
        [intros ? ?; apply Hreg; right; assumption|].
      exists best', m'. split; [reflexivity|].
      destruct Hres as [E | (b & o' & -> & Hb & Ho' & ->)]; [auto|].
      right. exists b, o'. simpl. auto.
Qed.

Lemma list_remove_first_spec x l :
  In x l ->
  exists l', list_remove_first x l = Some l'
    /\ (List.NoDup l ->
        List.NoDup l' /\ forall y, In y l' <-> In y l /\ y <> x).
Proof.
  induction l as [|y l IH]; simpl; [tauto|].
  intros Hin. destruct (Nat.eqb_spec x y) as [<-|N].
  - exists l. split; [reflexivity|]. intros ND.
    apply List.NoDup_cons_iff in ND as [Hx ND]. split; [exact ND|].
    intros z. split.
    + intros Hz. split; [auto|]. intros ->. contradiction.
    + intros [[E|Hz] Hne]; [congruence | exact Hz].
  - destruct IH as (l' & -> & Hl'); [destruct Hin; [congruence | assumption]|].
    simpl. eexists. split; [reflexivity|]. intros ND.
    apply List.NoDup_cons_iff in ND as [Hy ND].
    destruct (Hl' ND) as [ND' Hiff]. split.
    + constructor; [|exact ND']. rewrite Hiff. tauto.
    + intros z. simpl. rewrite Hiff. split.
      * intros [<-|[Hz Hne]]; [split; [auto | congruence] | auto].
      * intros [[E|Hz] Hne]; auto.
Qed.

Lemma match_detection_spec s ids d :
  wf s -> List.NoDup ids -> (forall id, In id ids -> registered s id) ->
  exists s' ids',
    match_detection (s, ids) d = Some (s', ids')
    /\ ((exists b o,
           In b ids /\ obj s b = Some o /\ close d o = true
           /\ wf s'
           /\ max_disappeared s' = max_disappeared s
           /\ next_object_id s' = next_object_id s
           /\ obj s' b = Some d /\ dis s' b = Some 0%nat
           /\ (forall k, k <> b -> same_at s s' k)
           /\ List.NoDup ids'
           /\ (forall y, In y ids' <-> In y ids /\ y <> b)
           /\ (forall k, registered s' k <-> registered s k))
        \/ (ids' = ids /\ s' = fst (register s d))).
Proof.
  intros Hwf ND Hreg. unfold match_detection.
  destruct (closer_loop s (_get_center (det_bbox d)) ids (None, None) Hreg)
    as (best & m & -> & Hres).
  simpl.
  destruct Hres as [E | (b & o & -> & Hb & Ho & ->)].
  { inversion E; subst. eauto 10. }
  destruct (norm_ltb (norm_sq (_get_center (det_bbox d)) (_get_center (det_bbox o))) 100)
    eqn:Hclose; [|eauto 10].
  destruct (list_remove_first_spec b ids Hb) as (ids' & -> & Hids').
  destruct (Hids' ND) as [ND' Hiff]. simpl.
  eexists _, ids'. split; [reflexivity|]. left. exists b, o.
  pose proof (Hreg b Hb) as Hrb.
  destruct Hwf as (K & NDk & B).
  assert (Hrb' : In b (dict_keys (disappeared s))) by (rewrite <- K; exact Hrb).
  unfold wf, obj, dis, same_at, obj, dis, registered in *.
  destruct s as [nx os ds mx]; simpl in *.
  rewrite !dict_keys_set_In by assumption.
  split; [exact Hb|]. split; [exact Ho|]. split; [exact Hclose|].
  split; [auto|]. split; [reflexivity|]. split; [reflexivity|].
  split; [apply dict_get_set_eq|]. split; [apply dict_get_set_eq|].
  split; [intros k Hk; split; apply dict_get_set_ne; auto|].
  split; [exact ND'|]. split; [exact Hiff|]. tauto.
Qed.

Lemma register_fold dets : forall self,
  wf self ->
  let self' := fold_left (fun s d => fst (register s d)) dets self in
  wf self'
  /\ max_disappeared self' = max_disappeared self
  /\ next_object_id self' = (next_object_id self + length dets)%nat
  /\ dict_keys (objects self')
     = dict_keys (objects self) ++ seq (next_object_id self) (length dets)
  /\ (forall k, registered self k -> same_at self self' k)
  /\ (forall d, In d dets -> exists id, obj self' id = Some d).
Proof.
  induction dets as [|d dets IH]; intros self Hwf.
  - simpl. rewrite app_nil_r.
    split; [exact Hwf|]. split; [reflexivity|]. split; [lia|].
    split; [reflexivity|]. split; [intros; split; reflexivity | intros ? []].
  - destruct (register_spec self d Hwf)
      as (_ & Hwf1 & Hnx & Hmx & Hon & _ & Hsame & Hk).
    destruct (IH _ Hwf1) as (Hwf2 & Hmx2 & Hnx2 & Hk2 & Hsame2 & Hst).
    assert (Hlt : forall id, registered self id -> id <> next_object_id self).
    { intros id Hr. destruct Hwf as (_ & _ & B).
      rewrite List.Forall_forall in B. specialize (B id Hr). lia. }
    assert (Hreg1 : forall id, registered self id ->
              registered (fst (register self d)) id).
    { intros id Hr. unfold registered. rewrite Hk. apply in_app_iff. auto. }
    cbn [fold_left length seq].
    split; [exact Hwf2|]. split; [congruence|]. split; [lia|].
    split; [rewrite Hk2, Hk, Hnx, <- app_assoc; reflexivity|].
    split.
    + intros k Hr. destruct (Hsame k (Hlt k Hr)) as [E1 E2].
      destruct (Hsame2 k (Hreg1 k Hr)) as [E3 E4]. split; congruence.
    + intros d' [<-|Hd'].
      * exists (next_object_id self).
        destruct (Hsame2 (next_object_id self)) as [E _]; [|congruence].
        unfold registered. rewrite Hk. apply in_app_iff. right. left. reflexivity.
      * exact (Hst d' Hd').
Qed.

Lemma matching_step s0 dets st d rest :
  matching_inv s0 dets st (d :: rest) ->
  exists st', match_detection st d = Some st' /\ matching_inv s0 dets st' rest.
Proof.
  destruct st as [s ids].
  intros ((done & Hdone & Hst) & Hwf & Hmx & Hnx & ND & Hids & Hcl & Hnew).
  cbn [fst snd] in *.
  assert (Hreg : forall id, In id ids -> registered s id).
  { intros id Hid. destruct (Hids id Hid) as [Hr [Ho _]].
    apply registered_obj. apply registered_obj in Hr as [o Hr].
    exists o. congruence. }
  assert (Hd : dets = (done ++ [d]) ++ rest).
  { rewrite <- app_assoc. exact Hdone. }
  assert (Hdin : In d dets).
  { rewrite Hdone. apply in_app_iff. right. left. reflexivity. }
  destruct (match_detection_spec s ids d Hwf ND Hreg)
    as (s' & ids' & -> & Hcase).
  exists (s', ids'). split; [reflexivity|].
  destruct Hcase as
    [(b & o & Hb & Ho & Hclose & Hwf' & Hmx' & Hnx' & Hob & Hdb & Hsame
        & ND' & Hiff & Hregs) | [-> ->]].
  - unfold matching_inv; cbn [fst snd].
    split.
    { exists (done ++ [d]). split; [exact Hd|].
      intros d' Hd'. apply in_app_iff in Hd' as [Hd'|[<-|[]]].
      - destruct (Hst d' Hd') as (id & Hnot & Hobj).
        exists id. split; [rewrite Hiff; tauto|].
        destruct (Hsame id) as [E _]; [intros ->; contradiction | congruence].
      - exists b. split; [rewrite Hiff; tauto | exact Hob]. }
    split; [exact Hwf'|]. split; [congruence|].
    split; [lia|]. split; [exact ND'|]. split; [|split].
    + intros id Hid. apply Hiff in Hid as [Hid Hne].
      destruct (Hids id Hid) as [Hr [E1 E2]]. split; [exact Hr|].
      destruct (Hsame id Hne) as [E3 E4]. split; congruence.
    + intros id Hr Hnot.
      destruct (Nat.eq_dec id b) as [->|Hne].
      * destruct (Hids b Hb) as [_ [E1 _]].
        split; [exact Hdb|]. exists d, o.
        split; [exact Hdin|]. split; [congruence|]. split; [exact Hob|].
        exact Hclose.
      * assert (Hnot' : ~ In id ids) by (intros Hin; apply Hnot, Hiff; auto).
        destruct (Hcl id Hr Hnot') as (Hz & d' & old & H1 & H2 & H3 & H4).
        destruct (Hsame id Hne) as [E3 E4].
        split; [congruence|]. exists d', old.
        split; [exact H1|]. split; [exact H2|]. split; [congruence|].
        exact H4.
    + intros id Hr. apply Hnew, Hregs, Hr.
  - destruct (register_spec s d Hwf)
      as (_ & Hwf1 & Hnx1 & Hmx1 & Hon & Hdn & Hsame & Hk).
    assert (Hlt : forall id, registered s id -> id <> next_object_id s).
    { intros id Hr. destruct Hwf as (_ & _ & B).
      rewrite List.Forall_forall in B. specialize (B id Hr). lia. }
    unfold matching_inv; cbn [fst snd].
    split.
    { exists (done ++ [d]). split; [exact Hd|].
      intros d' Hd'. apply in_app_iff in Hd' as [Hd'|[<-|[]]].
      - destruct (Hst d' Hd') as (id & Hnot & Hobj).
        exists id. split; [exact Hnot|].
        assert (Hrs : registered s id) by (apply registered_obj; eauto).
        destruct (Hsame id (Hlt id Hrs)) as [E _]. congruence.
      - exists (next_object_id s). split; [|exact Hon].
        intros Hin. exact (Hlt _ (Hreg _ Hin) eq_refl). }
    split; [exact Hwf1|]. split; [congruence|].
    split; [lia|]. split; [exact ND|]. split; [|split].
    + intros id Hid. destruct (Hids id Hid) as [Hr [E1 E2]].
      split; [exact Hr|].
      destruct (Hsame id (Hlt id (Hreg id Hid))) as [E3 E4].
      split; congruence.
    + intros id Hr Hnot.
      destruct (Hcl id Hr Hnot) as (Hz & d' & old & H1 & H2 & H3 & H4).
      assert (Hrs : registered s id) by (apply registered_obj; eauto).
      destruct (Hsame id (Hlt id Hrs)) as [E3 E4].
      split; [congruence|]. exists d', old.
      split; [exact H1|]. split; [exact H2|]. split; [congruence|].
      exact H4.
    + intros id Hr. unfold registered in Hr. rewrite Hk in Hr.
      apply in_app_iff in Hr as [Hr | [<- | []]]; [apply Hnew, Hr|].
      right. exact Hnx.
Qed.

Lemma marked_registered s0 s id :
  marked s0 s id -> registered s id -> registered s0 id.
Proof.
  intros (n & Hn & Hc) Hr. apply registered_obj in Hr as [o Ho].
  destruct (max_disappeared s0 <? n + 1)%nat.
  - destruct Hc as [E _]. congruence.
  - destruct Hc as [E _]. apply registered_obj. exists o. congruence.
Qed.

Lemma same_at_registered s0 s id :
  same_at s0 s id -> registered s id <-> registered s0 id.
Proof.
  intros [E _]. rewrite !registered_obj, E. reflexivity.
Qed.

(** What [update] does, for every tracker it can be called on: it ends
    normally, returns the dictionary of the tracks it keeps, marks the
    unclaimed tracks and resets the claimed ones. *)
Lemma update_spec self dets :
  wf self ->
  exists self',
    update self dets = Some (self', objects self')
    /\ wf self'
    /\ max_disappeared self' = max_disappeared self
    /\ (next_object_id self <= next_object_id self')%nat
    /\ (forall id, In id (unmatched self dets) ->
          registered self id /\ marked self self' id)
    /\ (forall id, registered self id -> ~ In id (unmatched self dets) ->
          claimed self self' dets id)
    /\ (forall id, registered self' id ->
          registered self id \/ (next_object_id self <= id)%nat)
    /\ (forall d, In d dets -> exists id, obj self' id = Some d).
Proof.
  intros Hwf. unfold update, unmatched.
  destruct (length dets =? 0)%nat eqn:Hd.
  { (* no detection *)
    pose proof Hwf as (K & ND & _).
    destruct (mark_loop_spec (dict_keys (disappeared self)) self Hwf)
      as (s' & -> & Hwf' & Hnx & Hmx & Hmk & Hsame).
    { rewrite <- K. exact ND. }
    { intros id Hid. apply wf_registered_dis; [exact Hwf|].
      unfold registered. rewrite K. exact Hid. }
    simpl. exists s'. split; [reflexivity|]. split; [exact Hwf'|].
    split; [exact Hmx|]. split; [lia|]. split; [|split; [|split]].
    - intros id Hid. split; [unfold registered; rewrite K; exact Hid|].
      apply Hmk, Hid.
    - intros id Hr Hnot. exfalso. apply Hnot. rewrite <- K. exact Hr.
    - intros id Hr. left.
      destruct (in_dec Nat.eq_dec id (dict_keys (disappeared self))) as [Hi|Hi].
      + eapply marked_registered; [apply Hmk, Hi | exact Hr].
      + exact (proj1 (same_at_registered _ _ _ (Hsame id Hi)) Hr).
    - apply Nat.eqb_eq, length_zero_iff_nil in Hd. subst. intros ? []. }
  destruct (length (objects self) =? 0)%nat eqn:Ho.
  { (* no track yet *)
    destruct (register_fold dets self Hwf) as (Hwf' & Hmx & Hnx & Hk & _ & Hst).
    eexists. split; [reflexivity|]. split; [exact Hwf'|].
    split; [exact Hmx|]. split; [lia|].
    apply Nat.eqb_eq in Ho. apply length_zero_iff_nil in Ho.
    split; [intros id []|]. split; [|split].
    - intros id Hr. unfold registered in Hr. rewrite Ho in Hr. destruct Hr.
    - intros id Hr. right. unfold registered in Hr. rewrite Hk, Ho in Hr.
      simpl in Hr. apply in_seq in Hr. lia.
    - exact Hst. }
  (* matching *)
  assert (Hinv0 : matching_inv self dets (self, dict_keys (objects self)) dets).
  { unfold matching_inv; cbn [fst snd].
    split; [exists []; split; [reflexivity | intros ? []]|]. split; [exact Hwf|].
    split; [reflexivity|]. split; [lia|].
    split; [apply Hwf|]. split; [|split].
    - intros id Hid. split; [exact Hid | split; reflexivity].
    - intros id Hr Hnot. contradiction.
    - intros id Hr. left. exact Hr. }
  destruct (for_each_invariant match_detection (matching_inv self dets) dets
              (self, dict_keys (objects self)))
    as ([s1 ids] & -> & Hinv); [apply matching_step | exact Hinv0 |].
  destruct Hinv as ((done & Hdone & Hst) & Hwf1 & Hmx1 & Hnx1 & ND1 & Hids
                    & Hcl & Hnew).
  rewrite app_nil_r in Hdone. subst done.
  cbn [fst snd] in *. simpl.
  destruct (mark_loop_spec ids s1 Hwf1 ND1)
    as (s2 & -> & Hwf2 & Hnx2 & Hmx2 & Hmk & Hsame).
  { intros id Hid. destruct (Hids id Hid) as [Hr [_ E]].
    apply (wf_registered_dis self id Hwf) in Hr as [n Hn].
    exists n. congruence. }
  simpl. exists s2. split; [reflexivity|]. split; [exact Hwf2|].
  split; [congruence|]. split; [lia|]. split; [|split; [|split]]; cycle 3.
  - intros d Hd'. destruct (Hst d Hd') as (id & Hnot & Hobj).
    exists id. destruct (Hsame id Hnot) as [E _]. congruence.
  - intros id Hid. destruct (Hids id Hid) as [Hr [E1 E2]].
    split; [exact Hr|].
    destruct (Hmk id Hid) as (n & Hn & Hc).
    exists n. split; [congruence|]. rewrite <- Hmx1, <- E1. exact Hc.
  - intros id Hr Hnot.
    destruct (Hcl id Hr Hnot) as (Hz & d & old & H1 & H2 & H3 & H4).
    destruct (Hsame id Hnot) as [E1 E2].
    split; [congruence|]. exists d, old.
    split; [exact H1|]. split; [exact H2|]. split; [congruence|]. exact H4.
  - intros id Hr. apply Hnew.
    destruct (in_dec Nat.eq_dec id ids) as [Hi|Hi].
    + eapply marked_registered; [apply Hmk, Hi | exact Hr].
    + exact (proj1 (same_at_registered _ _ _ (Hsame id Hi)) Hr).
Qed.

Lemma update_unique self dets self1 ret :
  wf self -> update self dets = Some (self1, ret) ->
  ret = objects self1 /\ wf self1
  /\ max_disappeared self1 = max_disappeared self
  /\ (forall id, In id (unmatched self dets) -> marked self self1 id).
Proof.
  intros Hwf Hup.
  destruct (update_spec self dets Hwf)
    as (s' & Hup' & Hwf' & Hmx & _ & Hmk & _ & _ & _).
  rewrite Hup in Hup'. inversion Hup'; subst.
  repeat split; auto; apply Hwf' || apply Hmk; assumption.
Qed.

Lemma unmatched_run_count id frames : forall self n final,
  wf self -> dis self id = Some n ->
  unmatched_run id self frames final ->
  (n + length frames <= max_disappeared self)%nat ->
  wf final /\ max_disappeared final = max_disappeared self
  /\ dis final id = Some (n + length frames)%nat
  /\ obj final id = obj self id.
Proof.
  induction frames as [|dets frames IH]; intros self n final Hwf Hn Hrun Hle.
  - simpl in *. subst. rewrite Nat.add_0_r. auto.
  - destruct Hrun as (Hun & self1 & ret & Hup & Hrun).
    destruct (update_unique _ _ _ _ Hwf Hup) as (_ & Hwf1 & Hmx1 & Hmk).
    destruct (Hmk id Hun) as (n' & Hn' & Hc).
    assert (n' = n) by congruence. subst n'.
    cbn [length] in Hle.
    destruct (Nat.ltb_spec (max_disappeared self) (n + 1)); [lia|].
    destruct Hc as [Ho Hd1].
    destruct (IH self1 (n + 1)%nat final Hwf1 Hd1 Hrun) as (Hw & Hm & Hd2 & Ho2);
      [lia|].
    split; [exact Hw|]. split; [congruence|].
    split; [rewrite Hd2; f_equal; cbn [length]; lia | congruence].
Qed.




End Tracker.

(** ** Multi-frame confirmation *)

Section Confirmation.
Import MultiFrameConfirmation ConfirmInv.

Lemma _should_confirm_test self id :
  _should_confirm self id
  = confirm_test (min_consecutive_frames self) (max_frame_gap self)
      (detections (get_history self id)).
Proof. reflexivity. Qed.

Lemma frame_gaps_forall (g : Z) (fs : list nat) :
  forallb (fun gap => (gap <=? g)%Z) (frame_gaps fs) = true
  <-> forall (i f1 f2 : nat),
        fs !! i = Some f1 -> fs !! S i = Some f2 ->
        (Z.of_nat f2 - Z.of_nat f1 - 1 <= g)%Z.
Proof.
  induction fs as [|a [|b fs] IH].
  - simpl. split; [intros _ i f1 f2 H; discriminate | reflexivity].
  - simpl. split; [intros _ i f1 f2 H1 H2|reflexivity].
    destruct i; discriminate.
  - change (frame_gaps (a :: b :: fs))
      with ((Z.of_nat b - Z.of_nat a - 1)%Z :: frame_gaps (b :: fs)).
    cbn [forallb]. rewrite andb_true_iff, IH, Z.leb_le. split.
    + intros [H0 H] [|i] f1 f2 H1 H2.
      * simpl in H1, H2. inversion H1; inversion H2; subst. exact H0.
      * exact (H i f1 f2 H1 H2).
    + intros H. split.
      * exact (H 0%nat a b eq_refl eq_refl).
      * intros i f1 f2 H1 H2. exact (H (S i) f1 f2 H1 H2).
Qed.

(** The test of the code is the criterion of the specification, for a
    positive [min_frames]. *)
Lemma confirm_test_spec (min_frames max_gap : nat) (dets : list entry) :
  (0 < min_frames)%nat ->
  confirm_test min_frames max_gap dets = true
  <-> ConfirmSpec.confirmable min_frames max_gap (List.map e_frame dets).
Proof.
  intros Hpos. unfold confirm_test, ConfirmSpec.confirmable, slice_last.
  rewrite length_map.
  destruct (Nat.ltb_spec (length dets) min_frames) as [Hlt|Hge].
  - split; [discriminate | intros [H _]; lia].
  - destruct (Nat.eqb_spec min_frames 0); [lia|].
    rewrite frame_gaps_forall.
    assert (E : List.map e_frame (drop (length dets - min_frames) dets)
                = drop (length dets - min_frames) (List.map e_frame dets)).
    { apply (fmap_drop e_frame). }
    rewrite E. cbv zeta. tauto.
Qed.

Lemma get_history_set self id h : get_history (set_history self id h) id = h.
Proof. unfold get_history, set_history. cbn. rewrite lookup_insert_eq. reflexivity. Qed.

Lemma track_step_eq now self out item :
  track_step now (self, out) item
  = (stepped self now item, out ++ report_of self now item).
Proof.
  destruct item as [id d].
  unfold track_step, stepped, report_of. cbn [fst snd].
  rewrite _should_confirm_test, get_history_set.
  cbn [set_history min_consecutive_frames max_frame_gap movement_threshold
       obstacle_history confirmed_obstacles frame_count detections confirmed].
  unfold next_history, appended, first_of, static_of.
  destruct (confirm_test _ _ _) eqn:T; cbn [andb orb].
  - destruct (confirmed (get_history self id)) eqn:C; cbn [negb orb].
    + reflexivity.
    + rewrite insert_insert_eq. reflexivity.
  - rewrite orb_false_r, app_nil_r. reflexivity.
Qed.

Lemma same_params_sym a b : same_params a b -> same_params b a.
Proof. unfold same_params. intuition congruence. Qed.

Lemma same_params_trans a b c :
  same_params a b -> same_params b c -> same_params a c.
Proof. unfold same_params. intuition congruence. Qed.

Lemma next_history_params a b now d h :
  same_params a b -> next_history a now d h = next_history b now d h.
Proof.
  intros (E1 & E2 & E3 & E4).
  unfold next_history, appended, static_of, _is_static.
  rewrite E1, E2, E3, E4. reflexivity.
Qed.

Lemma report_of_params a b now item :
  same_params a b ->
  get_history a (fst item) = get_history b (fst item) ->
  report_of a now item = report_of b now item.
Proof.
  intros (E1 & E2 & E3 & E4) H.
  unfold report_of, appended, static_of, _is_static.
  rewrite E1, E2, E3, E4, H. reflexivity.
Qed.

Lemma stepped_params self now item : same_params self (stepped self now item).
Proof. repeat split. Qed.

Lemma stepped_history_eq self now id d :
  obstacle_history (stepped self now (id, d)) !! id
  = Some (next_history self now d (get_history self id)).
Proof. unfold stepped. cbn. apply lookup_insert_eq. Qed.

Lemma stepped_history_ne self now id d k :
  id <> k ->
  obstacle_history (stepped self now (id, d)) !! k = obstacle_history self !! k.
Proof. intros N. unfold stepped. cbn. apply lookup_insert_ne, N. Qed.

Lemma stepped_confirmed_ne self now id d k :
  id <> k ->
  confirmed_obstacles (stepped self now (id, d)) !! k
  = confirmed_obstacles self !! k.
Proof.
  intros N. unfold stepped. cbn.
  destruct (_ && _); [apply lookup_insert_ne, N | reflexivity].
Qed.

Lemma stepped_confirmed_eq self now id d :
  is_Some (confirmed_obstacles self !! id) ->
  is_Some (confirmed_obstacles (stepped self now (id, d)) !! id).
Proof.
  intros H. unfold stepped. cbn.
  destruct (_ && _); [rewrite lookup_insert_eq; eauto | exact H].
Qed.

Lemma flat_map_ext_In {A B : Type} (f g : A -> list B) (l : list A) :
  (forall a, In a l -> f a = g a) -> flat_map f l = flat_map g l.
Proof.
  induction l as [|a l IH]; intros H; simpl; [reflexivity|].
  rewrite (H a (or_introl eq_refl)), IH; [reflexivity|].
  intros b Hb. apply H. right. exact Hb.
Qed.

Lemma track_fold now tracked : forall self out,
  List.NoDup (dict_keys tracked) ->
  let r := fold_left (track_step now) tracked (self, out) in
  same_params self (fst r)
  /\ (forall id, ~ In id (dict_keys tracked) ->
        obstacle_history (fst r) !! id = obstacle_history self !! id
        /\ confirmed_obstacles (fst r) !! id = confirmed_obstacles self !! id)
  /\ (forall id d, dict_get id tracked = Some d ->
        obstacle_history (fst r) !! id
        = Some (next_history self now d (get_history self id))
        /\ (is_Some (confirmed_obstacles self !! id) ->
            is_Some (confirmed_obstacles (fst r) !! id)))
  /\ snd r = out ++ flat_map (report_of self now) tracked.
Proof.
  induction tracked as [|[k v] tracked IH]; intros self out ND.
  - simpl. split; [repeat split|]. split; [auto|].
    split; [discriminate|]. rewrite app_nil_r. reflexivity.
  - cbn [fold_left]. rewrite track_step_eq.
    apply List.NoDup_cons_iff in ND as [Hk ND]. fold (dict_keys tracked) in Hk.
    specialize (IH (stepped self now (k, v)) (out ++ report_of self now (k, v)) ND).
    cbv zeta in IH. destruct IH as (Hp & Hout & Hin & Hsnd).
    pose proof (stepped_params self now (k, v)) as Hp0.
    cbv zeta. split; [eapply same_params_trans; eassumption|].
    split; [|split].
    + intros id Hid. simpl in Hid.
      assert (k <> id) by tauto. assert (~ In id (dict_keys tracked)) by tauto.
      destruct (Hout id) as [E1 E2]; [assumption|].
      rewrite E1, E2, stepped_history_ne, stepped_confirmed_ne by assumption.
      auto.
    + intros id d Hd. simpl in Hd.
      destruct (Nat.eqb_spec id k) as [->|N].
      * inversion Hd; subst. destruct (Hout k Hk) as [E1 E2].
        rewrite E1, E2, stepped_history_eq. split; [reflexivity|].
        apply stepped_confirmed_eq.
      * destruct (Hin id d Hd) as [E1 E2].
        rewrite E1. unfold get_history at 1.
        rewrite stepped_history_ne by auto.
        fold (get_history self id).
        rewrite <- (next_history_params _ _ _ _ _ Hp0).
        split; [reflexivity|]. intros H. apply E2.
        rewrite stepped_confirmed_ne by auto. exact H.
    + rewrite Hsnd, <- app_assoc. f_equal. cbn [flat_map]. f_equal.
      apply flat_map_ext_In. intros [k' v'] Hi.
      assert (Hk' : In k' (dict_keys tracked)).
      { apply in_map_iff. exists (k', v'). auto. }
      apply report_of_params; [apply same_params_sym, Hp0|].
      cbn [fst]. unfold get_history.
      rewrite stepped_history_ne; [reflexivity|]. intros ->. contradiction.
Qed.

Lemma cleanup_history self now timeout id :
  obstacle_history (_cleanup_old_obstacles self now timeout) !! id
  = match obstacle_history self !! id with
    | Some h => if expired now timeout h then None else Some h
    | None => None
    end.
Proof.
  unfold _cleanup_old_obstacles. cbn [obstacle_history].
  destruct (obstacle_history self !! id) as [h|] eqn:E.
  - destruct (expired now timeout h) eqn:X.
    + apply map_lookup_filter_None_2. right. intros x Hx.
      assert (x = h) by congruence. subst. cbn. congruence.
    + apply map_lookup_filter_Some_2; [exact E | exact X].
  - apply map_lookup_filter_None_2. left. exact E.
Qed.

Lemma cleanup_confirmed self now timeout id :
  confirmed_obstacles (_cleanup_old_obstacles self now timeout) !! id
  = if expired_key now timeout (obstacle_history self) id then None
    else confirmed_obstacles self !! id.
Proof.
  unfold _cleanup_old_obstacles. cbn [confirmed_obstacles].
  destruct (expired_key now timeout (obstacle_history self) id) eqn:X.
  - apply map_lookup_filter_None_2. right. intros x _. cbn. congruence.
  - destruct (confirmed_obstacles self !! id) as [d|] eqn:E.
    + apply map_lookup_filter_Some_2; [exact E | exact X].
    + apply map_lookup_filter_None_2. left. exact E.
Qed.

Lemma just_seen_not_expired self now d h :
  expired now 10 (next_history self now d h) = false.
Proof.
  unfold expired, next_history. cbn [last_seen].
  apply andb_false_iff. right. apply Qltb_false_iff. lra.
Qed.

(** What [update] does: the histories of the tracked objects advance by
    the current frame, the others are kept unless the timeout removes
    them, and the returned list holds the tracked objects that pass the
    confirmation test, in the order of [tracked_objects]. *)
Lemma confirmation_update_spec self now tracked :
  List.NoDup (dict_keys tracked) ->
  let r := update self now tracked in
  same_params (counted self) (fst r)
  /\ snd r = flat_map (report_of (counted self) now) tracked
  /\ (forall id d, dict_get id tracked = Some d ->
        obstacle_history (fst r) !! id
        = Some (next_history (counted self) now d (get_history self id))
        /\ (is_Some (confirmed_obstacles self !! id) ->
            is_Some (confirmed_obstacles (fst r) !! id)))
  /\ (forall id, ~ In id (dict_keys tracked) ->
        obstacle_history (fst r) !! id
        = match obstacle_history self !! id with
          | Some h => if expired now 10 h then None else Some h
          | None => None
          end
        /\ confirmed_obstacles (fst r) !! id
           = if expired_key now 10 (obstacle_history self) id then None
             else confirmed_obstacles self !! id).
Proof.
  intros ND. unfold update. fold (counted self).
  pose proof (track_fold now tracked (counted self) [] ND) as H.
  cbv zeta in H.
  destruct (fold_left (track_step now) tracked (counted self, [])) as [s1 out].
  cbn [fst snd] in *. destruct H as (Hp & Hout & Hin & Hsnd).
  split; [exact Hp|]. split; [exact Hsnd|]. split.
  - intros id d Hd. destruct (Hin id d Hd) as [E1 E2].
    rewrite cleanup_history, cleanup_confirmed. unfold expired_key.
    rewrite E1, just_seen_not_expired. split; [reflexivity | exact E2].
  - intros id Hid. destruct (Hout id Hid) as [E1 E2].
    rewrite cleanup_history, cleanup_confirmed. unfold expired_key.
    rewrite E1, E2. split; reflexivity.
Qed.

Lemma reported_flat_map self now tracked id :
  List.NoDup (dict_keys tracked) ->
  reported id (flat_map (report_of self now) tracked)
  <-> exists d, dict_get id tracked = Some d
        /\ confirm_test (min_consecutive_frames self) (max_frame_gap self)
             (appended self now d (get_history self id)) = true.
Proof.
  intros ND. unfold reported. split.
  - intros (o & Ho & <-). apply in_flat_map in Ho as ([k v] & Hi & Ho).
    unfold report_of in Ho. cbn [fst snd] in Ho.
    destruct (confirm_test _ _ _) eqn:T; [|destruct Ho].
    destruct Ho as [<-|[]]. cbn [o_object_id].
    exists v. split; [|exact T].
    clear T. induction tracked as [|[k' v'] tracked IH]; [destruct Hi|].
    apply List.NoDup_cons_iff in ND as [Hk ND]. simpl.
    destruct Hi as [E|Hi].
    + inversion E; subst. rewrite Nat.eqb_refl. reflexivity.
    + destruct (Nat.eqb_spec k k') as [->|N]; [|exact (IH ND Hi)].
      exfalso. apply Hk. apply in_map_iff. exists (k', v). auto.
  - intros (d & Hd & T).
    eexists. split; [apply in_flat_map; exists (id, d); split|].
    + clear T ND. induction tracked as [|[k' v'] tracked IH]; [discriminate|].
      simpl in Hd. destruct (Nat.eqb_spec id k') as [->|N].
      * inversion Hd; subst. left. reflexivity.
      * right. exact (IH Hd).
    + unfold report_of. cbn [fst snd]. rewrite T. left. reflexivity.
    + reflexivity.
Qed.


Lemma deque_append_last {A : Type} (maxlen : nat) (dq : list A) (x : A) :
  (0 < maxlen)%nat -> last (deque_append maxlen dq x) = Some x.
Proof.
  intros H. unfold deque_append.
  rewrite last_lookup, length_drop, lookup_drop, length_app. cbn [length].
  replace (length dq + 1 - maxlen
           + Nat.pred (length dq + 1 - (length dq + 1 - maxlen)))%nat
    with (length dq + 0)%nat by lia.
  rewrite lookup_app_r by lia.
  replace (length dq + 0 - length dq)%nat with 0%nat by lia. reflexivity.
Qed.


Lemma get_history_Some self id h :
  obstacle_history self !! id = Some h -> get_history self id = h.
Proof. intros H. unfold get_history. rewrite H. reflexivity. Qed.

Lemma update_tracked self now tracked id d :
  List.NoDup (dict_keys tracked) -> dict_get id tracked = Some d ->
  let r := update self now tracked in
  let h := next_history (counted self) now d (get_history self id) in
  obstacle_history (fst r) !! id = Some h
  /\ detections h
     = deque_append (min_consecutive_frames self + max_frame_gap self)
         (detections (get_history self id))
         {| e_detection := d; e_frame := frame_count self + 1;
            e_timestamp := now |}
  /\ (reported id (snd r)
      <-> confirm_test (min_consecutive_frames self) (max_frame_gap self)
            (detections h) = true).
Proof.
  intros ND Hd.
  destruct (confirmation_update_spec self now tracked ND)
    as (_ & Hsnd & Hin & _).
  cbv zeta. split; [apply (Hin id d Hd)|]. split; [reflexivity|].
  rewrite Hsnd, reported_flat_map by exact ND.
  cbn [next_history detections]. split.
  - intros (d' & Hd' & T). assert (d' = d) by congruence. subst. exact T.
  - intros T. exists d. split; [exact Hd | exact T].
Qed.



(** C4, as the code has it.  Once the [confirmed] flag of a history is
    set it stays set, and the track stays in [confirmed_obstacles], for
    as long as the history exists: an [update] either keeps the history
    with its flag, or removes it because the track is not among the
    tracked objects and was last seen more than 10 seconds ago.  The
    track is in the returned list of an [update] exactly when it is
    among the tracked objects and its history passes the gap test. *)
Theorem confirmed_flag_is_sticky :
  forall (self : t) (now : Q) (tracked : dict detection) (id : nat)
         (h : history),
    List.NoDup (dict_keys tracked) ->
    obstacle_history self !! id = Some h ->
    confirmed h = true ->
    let r := update self now tracked in
    match obstacle_history (fst r) !! id with
    | Some h' => confirmed h' = true
    | None => ~ In id (dict_keys tracked) /\ expired now 10 h = true
    end
    /\ (In id (dict_keys tracked) -> is_Some (obstacle_history (fst r) !! id))
    /\ (is_Some (confirmed_obstacles self !! id) ->
        is_Some (obstacle_history (fst r) !! id) ->
        is_Some (confirmed_obstacles (fst r) !! id))
    /\ ((0 < min_consecutive_frames self)%nat ->
        reported id (snd r)
        <-> exists d h',
              dict_get id tracked = Some d
              /\ obstacle_history (fst r) !! id = Some h'
              /\ ConfirmSpec.confirmable (min_consecutive_frames self)
                   (max_frame_gap self) (List.map e_frame (detections h'))).
Proof.
  intros self now tracked id h ND Hh Hc r.
  destruct (confirmation_update_spec self now tracked ND)
    as (_ & _ & Hin & Hout).
  fold r in Hin, Hout.
  destruct (in_dec Nat.eq_dec id (dict_keys tracked)) as [Hi|Hi].
  - destruct (dict_get_Some_of_In id tracked Hi) as [d Hd].
    destruct (update_tracked self now tracked id d ND Hd) as (Hh' & _ & Hrep).
    fold r in Hh', Hrep.
    destruct (Hin id d Hd) as [_ Hco].
    rewrite Hh'. split; [|split; [|split; [|]]].
    + cbn [next_history confirmed]. rewrite (get_history_Some _ _ _ Hh), Hc.
      reflexivity.
    + eauto.
    + intros H _. exact (Hco H).
    + intros Hpos. rewrite Hrep, confirm_test_spec by exact Hpos. split.
      * intros H. eauto.
      * intros (d' & h' & _ & E & H). inversion E; subst. exact H.
  - destruct (Hout id Hi) as [E1 E2]. rewrite E1, Hh.
    assert (Hnone : dict_get id tracked = None) by (apply dict_get_None, Hi).
    assert (Hrep : ~ reported id (snd r)).
    { destruct (confirmation_update_spec self now tracked ND) as (_ & Hsnd & _).
      fold r in Hsnd. rewrite Hsnd, reported_flat_map by exact ND.
      intros (d & Hd & _). congruence. }
    destruct (expired now 10 h) eqn:X.
    + split; [auto|]. split; [contradiction|].
      split; [intros _ [? ?]; discriminate|].
      intros _. split; [contradiction|].
      intros (d & h' & Hd & _). congruence.
    + split; [exact Hc|]. split; [contradiction|]. split.
      * intros H _. rewrite E2. unfold expired_key. rewrite Hh, X. exact H.
      * intros _. split; [contradiction|].
        intros (d & h' & Hd & _). congruence.
Qed.

(** C4 as the specification words it does not hold: track 1, confirmed
    on frame 5 and absent from frames 6 to 9, is tracked again on frame
    10, still has its history and its [confirmed] flag, and is not
    returned. *)
Lemma confirmed_track_not_returned :
  let self := Scenario.seen_then_lost in
  let r := update self 0 [(1%nat, Scenario.person)] in
  (exists h, obstacle_history self !! 1%nat = Some h /\ confirmed h = true)
  /\ (exists h', obstacle_history (fst r) !! 1%nat = Some h'
                 /\ confirmed h' = true)
  /\ ~ reported 1 (snd r).
Proof.
  cbv zeta. split; [|split].
  - eexists. split; [vm_compute; reflexivity | reflexivity].
  - eexists. split; [vm_compute; reflexivity | reflexivity].
  - assert (E : snd (update Scenario.seen_then_lost 0 [(1%nat, Scenario.person)]) = [])
      by (vm_compute; reflexivity).
    rewrite E. intros (o & [] & _).
Qed.

End Confirmation.

(** ** The per-frame driver *)

Section Driver.
Import SeverityClassifier IncidentReporter RailTrackSystem PipelineInv.

Lemma calculate_ttc_total est d s :
  exists t, DistanceEstimator.calculate_ttc est d s = Some t.
Proof.
  unfold DistanceEstimator.calculate_ttc, py_truediv.
  destruct (Qeq_bool (default (DistanceEstimator.train_speed est) s) 0) eqn:E;
    [eauto|].
  apply Qeq_bool_neq in E.
  rewrite (Qeq_bool_false _ _ (kmh_to_ms_nonzero _ E)). eauto.
Qed.

Lemma make_incident_total est oz :
  exists inc, make_incident est oz = Some inc
              /\ inc_bbox inc = Some (det_bbox (o_detection (fst oz)))
              /\ SeverityClassifier.zone inc = Some (snd oz)
              /\ obstacle_class inc = Some (det_class (o_detection (fst oz))).
Proof.
  destruct oz as [o z].
  unfold make_incident, CollisionRiskAssessor.assess_risk.
  destruct (calculate_ttc_total est
              (DistanceEstimator.estimate_distance est
                 (det_class (o_detection o)) (det_bbox (o_detection o))) None)
    as [t ->].
  cbn. eauto.
Qed.

Lemma reportable_iff s : reportable s = true <-> s = critical \/ s = high.
Proof.
  destruct s; simpl; split; auto; try discriminate;
    intros [H|H]; discriminate.
Qed.

Lemma incident_step_eq est incidents emitted oz inc :
  make_incident est oz = Some inc ->
  incident_step est (incidents, emitted) oz
  = Some (if reportable (classify inc)
          then (incidents ++ [generate_report inc],
                emitted ++ emitted_for (generate_report inc))
          else (incidents, emitted)).
Proof.
  intros H. unfold incident_step. rewrite H. cbn.
  destruct (reportable (classify inc)); reflexivity.
Qed.

(** The loop of step 6 never raises, and reports exactly the incidents
    whose severity passes the test, in order. *)
Lemma incident_loop est ozs : forall incidents emitted,
  exists incs,
    Forall2 (fun oz inc => make_incident est oz = Some inc) ozs incs
    /\ for_each (incident_step est) ozs (incidents, emitted)
       = Some (incidents
                 ++ List.map generate_report
                      (List.filter (fun i => reportable (classify i)) incs),
               emitted
                 ++ flat_map emitted_for
                      (List.map generate_report
                         (List.filter (fun i => reportable (classify i)) incs))).
Proof.
  induction ozs as [|oz ozs IH]; intros incidents emitted.
  - exists []. split; [constructor|]. simpl. rewrite !app_nil_r. reflexivity.
  - destruct (make_incident_total est oz) as (inc & Hinc & _).
    cbn [for_each]. rewrite (incident_step_eq _ _ _ _ _ Hinc). cbn.
    destruct (reportable (classify inc)) eqn:R.
    + destruct (IH (incidents ++ [generate_report inc])
                   (emitted ++ emitted_for (generate_report inc)))
        as (incs & HF & ->).
      exists (inc :: incs). split; [constructor; assumption|].
      cbn [List.filter]. rewrite R. cbn [List.map flat_map].
      rewrite <- !app_assoc. reflexivity.
    + destruct (IH incidents emitted) as (incs & HF & ->).
      exists (inc :: incs). split; [constructor; assumption|].
      cbn [List.filter]. rewrite R. reflexivity.
Qed.

Lemma zone_loop ts os : forall acc ozs,
  for_each (zone_step ts) os acc = Some ozs ->
  exists new,
    ozs = acc ++ new /\ List.map fst new = os
    /\ Forall (fun oz =>
                 TrackSegmentation.classify_zone ts
                   (det_bbox (o_detection (fst oz))) = Some (snd oz)) new.
Proof.
  induction os as [|o os IH]; intros acc ozs H.
  - simpl in H. inversion H; subst. exists []. rewrite app_nil_r. auto.
  - cbn [for_each] in H.
    destruct (zone_step ts acc o) as [acc'|] eqn:Hz; cbn in H; [|discriminate].
    unfold zone_step in Hz.
    destruct (TrackSegmentation.classify_zone ts (det_bbox (o_detection o)))
      as [z|] eqn:Z; cbn in Hz; [|discriminate].
    inversion Hz; subst acc'.
    destruct (IH _ _ H) as (new & -> & Hm & HF).
    exists ((o, z) :: new). rewrite <- app_assoc. split; [reflexivity|].
    split; [simpl; congruence|]. constructor; assumption.
Qed.

Lemma classify_zone_total ts b w h :
  TrackSegmentation.frame_width ts = Some w ->
  TrackSegmentation.frame_height ts = Some h ->
  w <> 0%Z -> h <> 0%Z ->
  exists z, TrackSegmentation.classify_zone ts b = Some z.
Proof.
  intros Hw Hh Nw Nh. destruct b as [[[x1 y1] x2] y2].
  unfold TrackSegmentation.classify_zone, TrackSegmentation.q_truediv.
  rewrite Hw, Hh. cbn.
  rewrite !Qeq_bool_false by (unfold Qeq; simpl; lia). cbn.
  repeat match goal with |- context [if ?c then _ else _] => destruct c end;
    eauto.
Qed.

Lemma zone_loop_total ts os w h :
  TrackSegmentation.frame_width ts = Some w ->
  TrackSegmentation.frame_height ts = Some h ->
  w <> 0%Z -> h <> 0%Z ->
  forall acc, exists ozs, for_each (zone_step ts) os acc = Some ozs.
Proof.
  intros Hw Hh Nw Nh. induction os as [|o os IH]; intros acc; [simpl; eauto|].
  cbn [for_each].
  destruct (classify_zone_total ts (det_bbox (o_detection o)) w h Hw Hh Nw Nh)
    as [z Hz].
  assert (zone_step ts acc o = Some (acc ++ [(o, z)])) as ->
    by (unfold zone_step; rewrite Hz; reflexivity).
  cbn. apply IH.
Qed.

Lemma filter_eq min_size os : forall self acc,
  snd (fold_left (FalseAlertFilter.filter_step min_size) os (self, acc))
  = acc ++ List.filter (fun o => negb (FalseAlertFilter.rejected o min_size)) os.
Proof.
  induction os as [|o os IH]; intros self acc; simpl.
  - rewrite app_nil_r. reflexivity.
  - destruct (FalseAlertFilter.rejected o min_size); simpl.
    + apply IH.
    + rewrite IH, <- app_assoc. reflexivity.
Qed.

Lemma not_rejected_area o min_size :
  FalseAlertFilter.rejected o min_size = false ->
  (min_size <= area (det_bbox (o_detection o)))%Z.
Proof.
  unfold FalseAlertFilter.rejected, area.
  destruct (det_bbox (o_detection o)) as [[[x1 y1] x2] y2].
  destruct (Z.ltb_spec ((x2 - x1) * (y2 - y1)) min_size); [discriminate|].
  intros _. assumption.
Qed.

Lemma process_frame_inv self shape dets now self' res :
  process_frame self shape dets now = Some (self', res) ->
  exists tracked ozs,
    ObstacleTracker.update (obstacle_tracker self) dets
    = Some (obstacle_tracker self', tracked)
    /\ multi_frame_confirmation self'
       = fst (MultiFrameConfirmation.update (multi_frame_confirmation self)
                now tracked)
    /\ res_confirmed_obstacles res
       = snd (MultiFrameConfirmation.update (multi_frame_confirmation self)
                now tracked)
    /\ res_filtered_obstacles res
       = snd (FalseAlertFilter.filter (false_alert_filter self)
                (res_confirmed_obstacles res) 1000)
    /\ for_each (zone_step (ts_of self shape)) (res_filtered_obstacles res) []
       = Some ozs
    /\ for_each (incident_step (collision_risk_assessor self)) ozs ([], [])
       = Some (res_incidents res, res_emitted res)
    /\ track_segmentation self' = ts_of self shape.
Proof.
  unfold process_frame. fold (ts_of self shape). intros H.
  destruct (ObstacleTracker.update (obstacle_tracker self) dets)
    as [[tracker tracked]|] eqn:Hup; cbn in H; [|discriminate].
  destruct (MultiFrameConfirmation.update (multi_frame_confirmation self)
              now tracked) as [mfc confirmed] eqn:Hmfc.
  destruct (FalseAlertFilter.filter (false_alert_filter self) confirmed 1000)
    as [faf filtered] eqn:Hfaf.
  destruct (for_each (zone_step (ts_of self shape)) filtered [])
    as [ozs|] eqn:Hz; cbn in H; [|discriminate].
  destruct (for_each (incident_step (collision_risk_assessor self)) ozs ([], []))
    as [[incidents emitted]|] eqn:Hi; cbn in H; [|discriminate].
  inversion H; subst; clear H.
  cbn [obstacle_tracker multi_frame_confirmation res_confirmed_obstacles
       res_filtered_obstacles res_incidents res_emitted track_segmentation].
  exists tracked, ozs. rewrite Hmfc, Hfaf. cbn [fst snd]. auto 10.
Qed.

Lemma process_frame_total self shape dets now :
  TrackerInv.wf (obstacle_tracker self) -> dims_ok self shape ->
  exists self' res, process_frame self shape dets now = Some (self', res).
Proof.
  intros Hwf Hdims. unfold process_frame. fold (ts_of self shape).
  destruct (update_spec (obstacle_tracker self) dets Hwf) as (tr & -> & _).
  cbn.
  destruct (MultiFrameConfirmation.update _ _ _) as [mfc confirmed].
  destruct (FalseAlertFilter.filter _ _ _) as [faf filtered].
  assert (Hts : exists w h,
             TrackSegmentation.frame_width (ts_of self shape) = Some w
             /\ TrackSegmentation.frame_height (ts_of self shape) = Some h
             /\ w <> 0%Z /\ h <> 0%Z).
  { unfold dims_ok in Hdims. unfold ts_of.
    destruct (TrackSegmentation.frame_width (track_segmentation self)) as [w|] eqn:E.
    - destruct Hdims as (Nw & h & Hh & Nh). exists w, h. auto.
    - destruct Hdims as (Nh & Nw). exists (snd shape), (fst shape). cbn. auto. }
  destruct Hts as (w & h & Hw & Hh & Nw & Nh).
  destruct (zone_loop_total (ts_of self shape) filtered w h Hw Hh Nw Nh [])
    as [ozs ->].
  cbn.
  destruct (incident_loop (collision_risk_assessor self) ozs [] [])
    as (incs & _ & ->).
  cbn. eauto.
Qed.

Lemma generate_report_severity inc : rep_severity (generate_report inc) = classify inc.
Proof. reflexivity. Qed.

(** C8, as the code has it.  For the obstacles that survive
    confirmation and filtering, [process_frame] builds one incident
    dictionary each, in order; a report is generated for an incident
    exactly when its severity is 'critical' or 'high', and exactly the
    generated reports are handed to the alert and log collaborators.
    An incident of severity 'medium' or 'low' gives no report. *)
Theorem reports_for_critical_and_high :
  forall (self : t) (shape : Z * Z) (dets : list detection) (now : Q)
         (self' : t) (res : results),
    process_frame self shape dets now = Some (self', res) ->
    exists (ozs : list (obstacle * string)) (incs : list incident),
      List.map fst ozs = res_filtered_obstacles res
      /\ Forall (fun oz =>
                   TrackSegmentation.classify_zone (ts_of self shape)
                     (det_bbox (o_detection (fst oz))) = Some (snd oz)) ozs
      /\ Forall2 (fun oz inc =>
                    make_incident (collision_risk_assessor self) oz = Some inc)
           ozs incs
      /\ res_incidents res
         = List.map generate_report
             (List.filter (fun i => reportable (classify i)) incs)
      /\ res_emitted res = flat_map emitted_for (res_incidents res)
      /\ (forall inc, In inc incs ->
            In (generate_report inc) (res_incidents res)
            <-> classify inc = critical \/ classify inc = high).
Proof.
  intros self shape dets now self' res H.
  destruct (process_frame_inv _ _ _ _ _ _ H)
    as (tracked & ozs & _ & _ & _ & _ & Hz & Hi & _).
  destruct (zone_loop _ _ _ _ Hz) as (new & -> & Hm & HF).
  destruct (incident_loop (collision_risk_assessor self) ([] ++ new) [] [])
    as (incs & HF2 & Hloop).
  rewrite Hloop in Hi. inversion Hi as [[Hinc Hem]]. clear Hi.
  cbn [app] in *.
  exists new, incs. split; [exact Hm|]. split; [exact HF|].
  split; [exact HF2|]. split; [reflexivity|]. split; [reflexivity|].
  intros inc Hin. rewrite <- reportable_iff, in_map_iff. split.
  - intros (inc' & E & Hin'). apply filter_In in Hin' as [_ R].
    rewrite <- generate_report_severity, <- E, generate_report_severity.
    exact R.
  - intros R. exists inc. split; [reflexivity|]. apply filter_In. auto.
Qed.

Lemma reports_for_critical_and_high_witness :
  exists ozs incs,
    List.map fst ozs
    = res_filtered_obstacles (snd (Scenario.next_frame 4 Scenario.person))
    /\ Forall2 (fun oz inc =>
                  make_incident
                    (collision_risk_assessor (Scenario.after 4 Scenario.person))
                    oz = Some inc) ozs incs
    /\ res_incidents (snd (Scenario.next_frame 4 Scenario.person))
       = List.map generate_report
           (List.filter (fun i => reportable (classify i)) incs).
Proof.
  assert (H : process_frame (Scenario.after 4 Scenario.person) (480, 640)%Z
                [Scenario.person] 0
              = Some (fst (Scenario.next_frame 4 Scenario.person),
                      snd (Scenario.next_frame 4 Scenario.person)))
    by (vm_compute; reflexivity).
  destruct (reports_for_critical_and_high _ _ _ _ _ _ H)
    as (ozs & incs & H1 & _ & H2 & H3 & _).
  exists ozs, incs. auto.
Defined.

(** C8 as the specification words it does not hold for severity 'medium':
    the animal beside the track survives confirmation and filtering on
    the fifth frame, is of severity 'medium', and nothing is reported
    or emitted. *)
Lemma medium_incident_not_reported :
  exists self' res o inc,
    process_frame (Scenario.after 4 Scenario.animal) (480, 640)%Z
      [Scenario.animal] 0 = Some (self', res)
    /\ res_filtered_obstacles res = [o]
    /\ make_incident DistanceEstimator.defaults (o, "warning"%string) = Some inc
    /\ TrackSegmentation.classify_zone (track_segmentation self')
         (det_bbox (o_detection o)) = Some "warning"%string
    /\ classify inc = medium
    /\ res_incidents res = []
    /\ res_emitted res = [].
Proof.
  eexists _, _, _, _.
  split; [vm_compute; reflexivity|].
  split; [reflexivity|].
  split; [vm_compute; reflexivity|].
  split; [vm_compute; reflexivity|].
  split; [vm_compute; reflexivity|].
  split; reflexivity.
Qed.

Lemma area_of_degenerate (b : bbox) :
  degenerate b -> (1000 <= area b)%Z ->
  let '(x1, y1, x2, y2) := b in (x2 < x1)%Z /\ (y2 < y1)%Z.
Proof.
  destruct b as [[[x1 y1] x2] y2]. unfold degenerate, area.
  intros Hdeg Ha.
  assert (Hx : (x2 - x1 < 0)%Z).
  { destruct (Z.lt_ge_cases (x2 - x1) 0) as [H|H]; [exact H|].
    destruct Hdeg as [Hd|Hd].
    - assert (x2 - x1 = 0)%Z by lia. rewrite H0 in Ha. lia.
    - pose proof (Z.mul_nonneg_nonpos (x2 - x1) (y2 - y1) H). lia. }
  assert (Hy : (y2 - y1 < 0)%Z).
  { destruct (Z.lt_ge_cases (y2 - y1) 0) as [H|H]; [exact H|].
    pose proof (Z.mul_nonpos_nonneg (x2 - x1) (y2 - y1)). lia. }
  lia.
Qed.

(** C9, as the code has it.  No stage drops a detection before the
    tracker: [process_frame] passes the detector's list unchanged to
    [ObstacleTracker.update], after which every detection of the frame,
    degenerate or not, is the stored detection of some track.  The only
    screen is the false-alert filter, after confirmation: an obstacle
    it lets through, and so every incident, has a box of signed area at
    least 1000, which a degenerate box has only with both sides
    inverted.  Frame processing never aborts. *)
Theorem detections_reach_tracker_unfiltered :
  forall (self : t) (shape : Z * Z) (dets : list detection) (now : Q),
    TrackerInv.wf (obstacle_tracker self) ->
    dims_ok self shape ->
    exists self' res,
      process_frame self shape dets now = Some (self', res)
      /\ ObstacleTracker.update (obstacle_tracker self) dets
         = Some (obstacle_tracker self',
                 ObstacleTracker.objects (obstacle_tracker self'))
      /\ (forall d, In d dets ->
            exists id, TrackerInv.obj (obstacle_tracker self') id = Some d)
      /\ (forall o, In o (res_filtered_obstacles res) ->
            (1000 <= area (det_bbox (o_detection o)))%Z)
      /\ (forall r, In r (res_incidents res) ->
            exists b, rep_bbox r = Some b /\ (1000 <= area b)%Z
                      /\ (degenerate b ->
                          let '(x1, y1, x2, y2) := b in
                          (x2 < x1)%Z /\ (y2 < y1)%Z))
      /\ TrackerInv.wf (obstacle_tracker self')
      /\ dims_ok self' shape.
Proof.
  intros self shape dets now Hwf Hdims.
  destruct (process_frame_total self shape dets now Hwf Hdims)
    as (self' & res & H).
  exists self', res. split; [exact H|].
  destruct (process_frame_inv _ _ _ _ _ _ H)
    as (tracked & ozs & Hup & _ & _ & Hf & Hz & Hi & Hts).
  destruct (update_spec (obstacle_tracker self) dets Hwf)
    as (tr & Hup' & Hwf' & _ & _ & _ & _ & _ & Hst).
  rewrite Hup in Hup'. inversion Hup'; subst tracked. clear Hup'.
  assert (Hfilt : forall o, In o (res_filtered_obstacles res) ->
            (1000 <= area (det_bbox (o_detection o)))%Z).
  { intros o Ho. rewrite Hf in Ho. unfold FalseAlertFilter.filter in Ho.
    rewrite filter_eq in Ho. cbn [app] in Ho.
    apply filter_In in Ho as [_ Ho]. apply negb_true_iff in Ho.
    apply not_rejected_area, Ho. }
  split; [rewrite Hup; f_equal; f_equal; congruence|].
  split; [intros d Hd; rewrite <- H1 in Hst; exact (Hst d Hd)|].
  split; [exact Hfilt|]. split; [|split].
  - intros r Hr.
    destruct (zone_loop _ _ _ _ Hz) as (new & -> & Hm & _).
    destruct (incident_loop (collision_risk_assessor self) ([] ++ new) [] [])
      as (incs & HF2 & Hloop).
    rewrite Hloop in Hi. inversion Hi as [[Hinc Hem]]. clear Hi Hem.
    cbn [app] in *. rewrite <- Hinc in Hr.
    apply in_map_iff in Hr as (inc & <- & Hin).
    apply filter_In in Hin as [Hin _].
    assert (Hb : exists oz, In oz new
                 /\ inc_bbox inc = Some (det_bbox (o_detection (fst oz)))).
    { clear - HF2 Hin. induction HF2 as [|oz i ozs incs0 Hoi HF IH];
        [destruct Hin|].
      destruct Hin as [->|Hin].
      - exists oz. split; [left; reflexivity|].
        destruct (make_incident_total (collision_risk_assessor self) oz)
          as (i' & Hi' & Hbb & _).
        congruence.
      - destruct (IH Hin) as (oz' & Hoz' & Hbb).
        exists oz'. split; [right; exact Hoz' | exact Hbb]. }
    destruct Hb as (oz & Hoz & Hbb).
    exists (det_bbox (o_detection (fst oz))). split; [exact Hbb|].
    assert (Ha : (1000 <= area (det_bbox (o_detection (fst oz))))%Z).
    { apply Hfilt. rewrite <- Hm. apply in_map. exact Hoz. }
    split; [exact Ha|]. intros Hdeg. apply area_of_degenerate; assumption.
  - rewrite H1. exact Hwf'.
  - unfold dims_ok. rewrite Hts. unfold dims_ok in Hdims. unfold ts_of.
    destruct (TrackSegmentation.frame_width (track_segmentation self))
      as [w|] eqn:E.
    + rewrite E. exact Hdims.
    + cbn. destruct Hdims as [Nh Nw]. split; [exact Nw|]. eauto.
Qed.

Lemma detections_reach_tracker_unfiltered_witness :
  exists self' res,
    process_frame Scenario.system (480, 640)%Z [Scenario.sliver] 0
    = Some (self', res)
    /\ exists id, TrackerInv.obj (obstacle_tracker self') id = Some Scenario.sliver.
Proof.
  assert (Hwf : TrackerInv.wf (obstacle_tracker Scenario.system))
    by (repeat split; simpl; constructor).
  assert (Hdims : dims_ok Scenario.system (480, 640)%Z)
    by (unfold dims_ok; cbn; split; discriminate).
  destruct (detections_reach_tracker_unfiltered Scenario.system (480, 640)%Z
              [Scenario.sliver] 0 Hwf Hdims)
    as (self' & res & H & _ & Hst & _).
  exists self', res. split; [exact H|].
  apply Hst. left. reflexivity.
Defined.

(** C9 as the specification words it does not hold: on the first frame
    a detection of width 0 becomes track 0 of the tracker. *)
Lemma degenerate_detection_is_tracked :
  exists self' res,
    process_frame Scenario.system (480, 640)%Z [Scenario.sliver] 0
    = Some (self', res)
    /\ degenerate (det_bbox Scenario.sliver)
    /\ ObstacleTracker.objects (obstacle_tracker self')
       = [(0%nat, Scenario.sliver)].
Proof.
  eexists _, _. split; [vm_compute; reflexivity|].
  split; [simpl; lia | reflexivity].
Qed.

(** C10.  [update] returns the dictionary of the tracks that are
    registered after the call.  A track claimed by no detection whose
    counter stays within [max_disappeared] is in it with its stored
    detection unchanged, for up to [max_disappeared] consecutive
    unclaimed frames; a track leaves the returned dictionary only by
    being deregistered.  The confirmation stage, which [process_frame]
    calls on that dictionary, appends to the history of every track in
    it an entry for the current frame. *)
Theorem unmatched_tracks_stay_in_result :
  forall (tracker : ObstacleTracker.t) (dets : list detection),
    TrackerInv.wf tracker ->
    (exists tracker',
       ObstacleTracker.update tracker dets
       = Some (tracker', ObstacleTracker.objects tracker')
       /\ (forall id n d,
             In id (ObstacleTracker.unmatched tracker dets) ->
             TrackerInv.dis tracker id = Some n ->
             TrackerInv.obj tracker id = Some d ->
             (n + 1 <= ObstacleTracker.max_disappeared tracker)%nat ->
             dict_get id (ObstacleTracker.objects tracker') = Some d
             /\ TrackerInv.dis tracker' id = Some (n + 1)%nat)
       /\ (forall id,
             TrackerInv.registered tracker id ->
             dict_get id (ObstacleTracker.objects tracker') = None ->
             In id (ObstacleTracker.unmatched tracker dets)
             /\ exists n, TrackerInv.dis tracker id = Some n
                  /\ (ObstacleTracker.max_disappeared tracker < n + 1)%nat)
       /\ (forall mfc now id d,
             (0 < MultiFrameConfirmation.min_consecutive_frames mfc
                  + MultiFrameConfirmation.max_frame_gap mfc)%nat ->
             dict_get id (ObstacleTracker.objects tracker') = Some d ->
             exists h,
               MultiFrameConfirmation.obstacle_history
                 (fst (MultiFrameConfirmation.update mfc now
                         (ObstacleTracker.objects tracker'))) !! id = Some h
               /\ last (MultiFrameConfirmation.detections h)
                  = Some {| MultiFrameConfirmation.e_detection := d;
                            MultiFrameConfirmation.e_frame :=
                              MultiFrameConfirmation.frame_count mfc + 1;
                            MultiFrameConfirmation.e_timestamp := now |}))
    /\ (forall id frames final,
          TrackerInv.dis tracker id = Some 0%nat ->
          TrackerInv.unmatched_run id tracker frames final ->
          (length frames <= ObstacleTracker.max_disappeared tracker)%nat ->
          TrackerInv.registered final id
          /\ TrackerInv.obj final id = TrackerInv.obj tracker id)
    /\ (forall self shape now self' res,
          obstacle_tracker self = tracker ->
          process_frame self shape dets now = Some (self', res) ->
          (0 < MultiFrameConfirmation.min_consecutive_frames
                 (multi_frame_confirmation self)
               + MultiFrameConfirmation.max_frame_gap
                   (multi_frame_confirmation self))%nat ->
          forall id d,
            dict_get id (ObstacleTracker.objects (obstacle_tracker self'))
            = Some d ->
            exists h,
              MultiFrameConfirmation.obstacle_history
                (multi_frame_confirmation self') !! id = Some h
              /\ last (MultiFrameConfirmation.detections h)
                 = Some {| MultiFrameConfirmation.e_detection := d;
                           MultiFrameConfirmation.e_frame :=
                             MultiFrameConfirmation.frame_count
                               (multi_frame_confirmation self) + 1;
                           MultiFrameConfirmation.e_timestamp := now |}).
Proof.
  intros tracker dets Hwf.
  destruct (update_spec tracker dets Hwf)
    as (tr & Hup & Hwf' & Hmx & _ & Hmk & Hcl & _ & _).
  assert (Hmfc : forall mfc now id d,
             (0 < MultiFrameConfirmation.min_consecutive_frames mfc
                  + MultiFrameConfirmation.max_frame_gap mfc)%nat ->
             dict_get id (ObstacleTracker.objects tr) = Some d ->
             exists h,
               MultiFrameConfirmation.obstacle_history
                 (fst (MultiFrameConfirmation.update mfc now
                         (ObstacleTracker.objects tr))) !! id = Some h
               /\ last (MultiFrameConfirmation.detections h)
                  = Some {| MultiFrameConfirmation.e_detection := d;
                            MultiFrameConfirmation.e_frame :=
                              MultiFrameConfirmation.frame_count mfc + 1;
                            MultiFrameConfirmation.e_timestamp := now |}).
  { intros mfc now id d Hpos Hd.
    destruct (update_tracked mfc now (ObstacleTracker.objects tr) id d)
      as (Hh & Hdets & _); [apply Hwf' | exact Hd |].
    eexists. split; [exact Hh|]. rewrite Hdets.
    apply deque_append_last, Hpos. }
  split; [|split].
  - exists tr. split; [exact Hup|]. split; [|split; [|exact Hmfc]].
    + intros id n d Hun Hn Hd Hle. destruct (Hmk id Hun) as (_ & n' & Hn' & Hc).
      assert (n' = n) by congruence. subst n'.
      destruct (Nat.ltb_spec (ObstacleTracker.max_disappeared tracker) (n + 1));
        [lia|].
      destruct Hc as [Ho Hd']. split; [|exact Hd'].
      unfold TrackerInv.obj in Ho, Hd. congruence.
    + intros id Hr Hnone.
      destruct (in_dec Nat.eq_dec id (ObstacleTracker.unmatched tracker dets))
        as [Hi|Hi].
      * split; [exact Hi|]. destruct (Hmk id Hi) as (_ & n & Hn & Hc).
        exists n. split; [exact Hn|].
        destruct (Nat.ltb_spec (ObstacleTracker.max_disappeared tracker) (n + 1));
          [assumption|].
        destruct Hc as [Ho _]. apply registered_obj in Hr as [o Hr].
        unfold TrackerInv.obj in *. congruence.
      * destruct (Hcl id Hr Hi) as (_ & d & old & _ & _ & Ho & _).
        unfold TrackerInv.obj in Ho. congruence.
  - intros id frames final Hz Hrun Hle.
    destruct (unmatched_run_count id frames tracker 0%nat final Hwf Hz Hrun)
      as (Hw & _ & Hd & Ho); [simpl; lia|].
    split; [|exact Ho]. apply wf_registered_dis; eauto.
  - intros self shape now self' res Htr H Hpos id d Hd.
    destruct (process_frame_inv _ _ _ _ _ _ H)
      as (tracked & ozs & Hup2 & Hm & _).
    rewrite Htr, Hup in Hup2. inversion Hup2; subst. rewrite Hm.
    apply Hmfc; assumption.
Qed.

End Driver.

(** ** The theorems at concrete inputs *)




Lemma confirmed_flag_is_sticky_witness :
  match
    MultiFrameConfirmation.obstacle_history
      (fst (MultiFrameConfirmation.update Scenario.seen_then_lost 0
              [(1%nat, Scenario.person)])) !! 1%nat
  with
  | Some h' => MultiFrameConfirmation.confirmed h' = true
  | None =>
      ~ In 1%nat (dict_keys [(1%nat, Scenario.person)])
      /\ MultiFrameConfirmation.expired 0 10 Scenario.lost_history = true
  end.
Proof.
  assert (ND : List.NoDup (dict_keys [(1%nat, Scenario.person)])).
  { constructor; [simpl; tauto | constructor]. }
  assert (Hh : MultiFrameConfirmation.obstacle_history Scenario.seen_then_lost
               !! 1%nat = Some Scenario.lost_history)
    by (vm_compute; reflexivity).
  assert (Hc : MultiFrameConfirmation.confirmed Scenario.lost_history = true)
    by (vm_compute; reflexivity).
  exact (proj1 (confirmed_flag_is_sticky Scenario.seen_then_lost 0
                  [(1%nat, Scenario.person)] 1 Scenario.lost_history ND Hh Hc)).
Defined.

Lemma unmatched_tracks_stay_in_result_witness :
  exists tracker',
    ObstacleTracker.update Scenario.tracking []
    = Some (tracker', ObstacleTracker.objects tracker')
    /\ dict_get 0 (ObstacleTracker.objects tracker') = Some Scenario.person.
Proof.
  assert (Hwf : TrackerInv.wf Scenario.tracking).
  { unfold TrackerInv.wf. cbn. split; [reflexivity|]. split.
    - constructor; [simpl; tauto | constructor].
    - constructor; [lia | constructor]. }
  destruct (unmatched_tracks_stay_in_result Scenario.tracking [] Hwf)
    as ((tracker' & Hup & Hkeep & _) & _).
  exists tracker'. split; [exact Hup|].
  assert (Hun : In 0%nat (ObstacleTracker.unmatched Scenario.tracking []))
    by (left; reflexivity).
  assert (Hn : TrackerInv.dis Scenario.tracking 0 = Some 0%nat) by reflexivity.
  assert (Ho : TrackerInv.obj Scenario.tracking 0 = Some Scenario.person)
    by reflexivity.
  assert (Hle : (0 + 1 <= ObstacleTracker.max_disappeared Scenario.tracking)%nat)
    by (simpl; lia).
  exact (proj1 (Hkeep 0%nat 0%nat Scenario.person Hun Hn Ho Hle)).
Defined.

(** * Further properties *)

(** ** Batches of incidents *)

Section SortFacts.
Import SeverityBatch.
Context {A : Type} (key : A -> nat).

Lemma insert_desc_perm x xs : Permutation (x :: xs) (insert_desc key x xs).
Proof.
  induction xs as [|y xs IH]; simpl; [reflexivity|].
  destruct (key y <=? key x)%nat; [reflexivity|].
  rewrite perm_swap. apply perm_skip, IH.
Qed.

Lemma sort_desc_perm xs : Permutation xs (sort_desc key xs).
Proof.
  induction xs as [|x xs IH]; simpl; [reflexivity|].
  rewrite <- insert_desc_perm. apply perm_skip, IH.
Qed.

Lemma insert_desc_sorted x xs :
  StronglySorted (fun a b => (key b <= key a)%nat) xs ->
  StronglySorted (fun a b => (key b <= key a)%nat) (insert_desc key x xs).
Proof.
  induction 1 as [|y xs Hs IH Hy]; simpl.
  - constructor; constructor.
  - destruct (Nat.leb_spec (key y) (key x)) as [Hle|Hlt].
    + constructor; [constructor; assumption|].
      constructor; [exact Hle|].
      rewrite List.Forall_forall in Hy |- *. intros z Hz.
      specialize (Hy z Hz). simpl in Hy. lia.
    + constructor; [exact IH|].
      rewrite List.Forall_forall in Hy |- *. intros z Hz.
      apply (Permutation_in _ (Permutation_sym (insert_desc_perm x xs))) in Hz.
      destruct Hz as [<-|Hz]; [lia | exact (Hy z Hz)].
Qed.

Lemma sort_desc_sorted xs :
  StronglySorted (fun a b => (key b <= key a)%nat) (sort_desc key xs).
Proof.
  induction xs as [|x xs IH]; simpl; [constructor|].
  apply insert_desc_sorted, IH.
Qed.

(** Stability: the elements of one key come out in the order they went
    in. *)
Lemma insert_desc_filter (k : nat) x xs :
  List.filter (fun a => Nat.eqb (key a) k) (insert_desc key x xs)
  = List.filter (fun a => Nat.eqb (key a) k) (x :: xs).
Proof.
  induction xs as [|y xs IH]; simpl; [reflexivity|].
  destruct (Nat.leb_spec (key y) (key x)) as [Hle|Hlt]; [reflexivity|].
  simpl in *. rewrite IH.
  destruct (Nat.eqb_spec (key x) k) as [Ex|Nx];
    destruct (Nat.eqb_spec (key y) k) as [Ey|Ny]; try reflexivity.
  lia.
Qed.

Lemma sort_desc_filter (k : nat) xs :
  List.filter (fun a => Nat.eqb (key a) k) (sort_desc key xs)
  = List.filter (fun a => Nat.eqb (key a) k) xs.
Proof.
  induction xs as [|x xs IH]; [reflexivity|].
  change (sort_desc key (x :: xs)) with (insert_desc key x (sort_desc key xs)).
  rewrite insert_desc_filter. simpl. rewrite IH. reflexivity.
Qed.

End SortFacts.

Section Batches.
Import SeverityClassifier IncidentReporter SeverityBatch.

Lemma severity_eqb_eq a b : severity_eqb a b = true <-> a = b.
Proof. destruct a, b; simpl; split; congruence. Qed.

Lemma priority_eqb_severity c s :
  cl_severity_priority c = get_severity_priority (cl_severity c) ->
  Nat.eqb (cl_severity_priority c) (get_severity_priority s)
  = severity_eqb (cl_severity c) s.
Proof.
  intros ->. destruct (cl_severity c), s; reflexivity.
Qed.

Lemma filter_ext_In {B : Type} (f g : B -> bool) (l : list B) :
  (forall x, In x l -> f x = g x) -> List.filter f l = List.filter g l.
Proof.
  induction l as [|x l IH]; intros H; simpl; [reflexivity|].
  rewrite (H x (or_introl eq_refl)), IH; [reflexivity|].
  intros y Hy. apply H. right. exact Hy.
Qed.

Lemma filter_map_annotate s incidents :
  List.filter (fun c => severity_eqb (cl_severity c) s)
    (List.map annotate incidents)
  = List.map annotate
      (List.filter (fun i => severity_eqb (classify i) s) incidents).
Proof.
  induction incidents as [|i l IH]; simpl; [reflexivity|].
  destruct (severity_eqb (classify i) s); simpl; rewrite IH; reflexivity.
Qed.

Lemma classify_batch_annotated incidents c :
  In c (classify_batch incidents) ->
  exists i, In i incidents /\ c = annotate i.
Proof.
  intros H. unfold classify_batch in H.
  apply (Permutation_in _ (Permutation_sym (sort_desc_perm _ _))) in H.
  apply in_map_iff in H as (i & <- & Hi). eauto.
Qed.

Lemma classify_batch_filter s incidents :
  List.filter (fun c => severity_eqb (cl_severity c) s) (classify_batch incidents)
  = List.map annotate
      (List.filter (fun i => severity_eqb (classify i) s) incidents).
Proof.
  rewrite <- filter_map_annotate.
  transitivity
    (List.filter
       (fun c => Nat.eqb (cl_severity_priority c) (get_severity_priority s))
       (classify_batch incidents)).
  - apply filter_ext_In. intros c Hc.
    symmetry. apply priority_eqb_severity.
    destruct (classify_batch_annotated incidents c Hc) as (i & _ & ->).
    reflexivity.
  - unfold classify_batch. rewrite sort_desc_filter.
    apply filter_ext_In. intros c Hc.
    apply priority_eqb_severity.
    apply in_map_iff in Hc as (i & <- & _). reflexivity.
Qed.

(** X1.  [classify_batch] returns every incident once, annotated with
    its severity, priority and colour, in descending order of priority;
    incidents of equal severity keep the order in which they were
    given. *)
Theorem classify_batch_stable_sort :
  forall (incidents : list incident),
    Permutation (List.map annotate incidents) (classify_batch incidents)
    /\ StronglySorted
         (fun a b => (cl_severity_priority b <= cl_severity_priority a)%nat)
         (classify_batch incidents)
    /\ (forall s,
          List.filter (fun c => severity_eqb (cl_severity c) s)
            (classify_batch incidents)
          = List.map annotate
              (List.filter (fun i => severity_eqb (classify i) s) incidents))
    /\ (forall c, In c (classify_batch incidents) ->
          cl_severity c = classify (cl_incident c)
          /\ cl_severity_priority c = get_severity_priority (cl_severity c)
          /\ cl_severity_color c = get_severity_color (cl_severity c))
    /\ length (classify_batch incidents) = length incidents.
Proof.
  intros incidents. split; [apply sort_desc_perm|].
  split; [apply sort_desc_sorted|].
  split; [intros s; apply classify_batch_filter|]. split.
  - intros c Hc. destruct (classify_batch_annotated incidents c Hc) as (i & _ & ->).
    repeat split.
  - unfold classify_batch.
    rewrite <- (Permutation_length (sort_desc_perm cl_severity_priority
                                     (List.map annotate incidents))).
    apply length_map.
Qed.

End Batches.

Section Counters.
Import SeverityBatch Order.
Context {K : Type} (eqb : K -> K -> bool).
Hypothesis eqb_eq : forall a b, eqb a b = true <-> a = b.

Lemma counts_get_incr k k' counts :
  counts_get eqb k (count_incr eqb k' counts)
  = (counts_get eqb k counts + (if eqb k k' then 1 else 0))%nat.
Proof.
  induction counts as [|[k0 n] rest IH]; cbn [count_incr counts_get].
  - destruct (eqb k k'); reflexivity.
  - destruct (eqb k' k0) eqn:E0; cbn [counts_get].
    + apply eqb_eq in E0. subst k0.
      destruct (eqb k k'); lia.
    + destruct (eqb k k0) eqn:E1; [|exact IH].
      apply eqb_eq in E1. subst k0.
      destruct (eqb k k') eqn:E2; [|lia].
      apply eqb_eq in E2. subst k'.
      assert (eqb k k = true) by (apply eqb_eq; reflexivity). congruence.
Qed.

Lemma count_incr_keys k counts :
  List.NoDup (List.map fst counts) ->
  List.NoDup (List.map fst (count_incr eqb k counts))
  /\ (forall k0, In k0 (List.map fst (count_incr eqb k counts)) ->
        k0 = k \/ In k0 (List.map fst counts)).
Proof.
  induction counts as [|[k0 n] rest IH]; cbn [count_incr List.map fst]; intros Hnd.
  - split; [constructor; [intros []|constructor]|].
    intros k1 [<-|[]]. left. reflexivity.
  - destruct (eqb k k0) eqn:E; cbn [List.map fst].
    + split; [exact Hnd|]. intros k1 H. right. exact H.
    + apply List.NoDup_cons_iff in Hnd as [Hk0 Hnd].
      destruct (IH Hnd) as [IH1 IH2]. split.
      * constructor; [|exact IH1]. intros Hin.
        destruct (IH2 _ Hin) as [->|Hin']; [|contradiction].
        assert (eqb k k = true) by (apply eqb_eq; reflexivity). congruence.
      * intros k1 [<-|Hin]; [right; left; reflexivity|].
        destruct (IH2 _ Hin) as [->|Hin']; [left; reflexivity|].
        right. right. exact Hin'.
Qed.

Lemma count_incr_positive k counts :
  (forall k0 n, In (k0, n) counts -> (0 < n)%nat) ->
  forall k0 n, In (k0, n) (count_incr eqb k counts) -> (0 < n)%nat.
Proof.
  induction counts as [|[k1 m] rest IH]; cbn [count_incr]; intros Hpos k0 n Hin.
  - destruct Hin as [E|[]]. inversion E. lia.
  - destruct (eqb k k1).
    + destruct Hin as [E|Hin].
      * inversion E. lia.
      * apply (Hpos k0 n). right. exact Hin.
    + destruct Hin as [E|Hin].
      * apply (Hpos k0 n). left. exact E.
      * apply (IH (fun k2 n2 H => Hpos k2 n2 (or_intror H)) k0 n Hin).
Qed.

Lemma counts_fold {A : Type} (f : A -> K) (l : list A) (counts : list (K * nat)) :
  List.NoDup (List.map fst counts) ->
  (forall k0 n, In (k0, n) counts -> (0 < n)%nat) ->
  let r := fold_left (fun cs x => count_incr eqb (f x) cs) l counts in
  (forall k, counts_get eqb k r
             = (counts_get eqb k counts + count (fun x => eqb k (f x)) l)%nat)
  /\ List.NoDup (List.map fst r)
  /\ (forall k0 n, In (k0, n) r -> (0 < n)%nat).
Proof.
  revert counts. induction l as [|x l IH]; intros counts Hnd Hpos; cbn [fold_left].
  - refine (conj _ (conj Hnd Hpos)). intros k. unfold count. simpl. lia.
  - destruct (IH (count_incr eqb (f x) counts)
                (proj1 (count_incr_keys (f x) counts Hnd))
                (count_incr_positive (f x) counts Hpos)) as (H1 & H2 & H3).
    refine (conj _ (conj H2 H3)). intros k. rewrite H1, counts_get_incr.
    unfold count. cbn [List.filter]. destruct (eqb k (f x)); cbn [length]; lia.
Qed.
End Counters.

Section Summary.
Import SeverityClassifier IncidentReporter SeverityBatch Order.

Lemma severity_counts_fold (l : list classified) (a b c d : nat) :
  fold_left (fun counts inc => count_incr severity_eqb (cl_severity inc) counts)
    l [(critical, a); (high, b); (medium, c); (low, d)]
  = [(critical, (a + count (fun x => severity_eqb (cl_severity x) critical) l)%nat);
     (high, (b + count (fun x => severity_eqb (cl_severity x) high) l)%nat);
     (medium, (c + count (fun x => severity_eqb (cl_severity x) medium) l)%nat);
     (low, (d + count (fun x => severity_eqb (cl_severity x) low) l)%nat)].
Proof.
  unfold count.
  revert a b c d. induction l as [|x l IH]; intros a b c d.
  - simpl. rewrite !Nat.add_0_r. reflexivity.
  - cbn [fold_left]. destruct (cl_severity x) eqn:E; cbn [count_incr severity_eqb];
      rewrite IH; cbn [List.filter]; rewrite E; cbn [severity_eqb length];
      repeat match goal with
           | |- _ :: _ = _ :: _ => f_equal
           | |- (_, _) = (_, _) => f_equal
           end; lia.
Qed.

Lemma count_classified s incidents :
  count (fun x => severity_eqb (cl_severity x) s) (classify_batch incidents)
  = count (fun i => severity_eqb (classify i) s) incidents.
Proof.
  unfold count. rewrite classify_batch_filter. apply length_map.
Qed.

Lemma count_severities incidents :
  (count (fun i => severity_eqb (classify i) critical) incidents
   + count (fun i => severity_eqb (classify i) high) incidents
   + count (fun i => severity_eqb (classify i) medium) incidents
   + count (fun i => severity_eqb (classify i) low) incidents
   = length incidents)%nat.
Proof.
  unfold count. induction incidents as [|i l IH]; [reflexivity|].
  cbn [List.filter]. destruct (classify i); cbn [severity_eqb length]; lia.
Qed.


(** X2.  [generate_summary_report] counts every incident once: the
    total is the number of incidents, 'by_severity' holds for each of
    the four severities the number of incidents classified so (and they
    add up to the total), 'by_type' holds for each obstacle class,
    'unknown' for an incident without one, the number of its incidents,
    and 'critical_incidents' are the first five critical incidents in
    the order given.  For no incident both dictionaries are empty. *)
Theorem generate_summary_report_counts :
  forall (incidents : list incident),
    let r := generate_summary_report incidents in
    let n s := count (fun i => severity_eqb (classify i) s) incidents in
    total_incidents r = length incidents
    /\ by_severity r
       = match incidents with
         | [] => []
         | _ => [(critical, n critical); (high, n high);
                 (medium, n medium); (low, n low)]
         end
    /\ (n critical + n high + n medium + n low = length incidents)%nat
    /\ (forall k,
          counts_get String.eqb k (by_type r)
          = count (fun i => String.eqb k
                              (default "unknown"%string (obstacle_class i)))
              incidents)
    /\ List.NoDup (List.map fst (by_type r))
    /\ (forall k m, In (k, m) (by_type r) -> (0 < m)%nat)
    /\ critical_incidents r
       = List.map annotate
           (firstn 5 (List.filter (fun i => severity_eqb (classify i) critical)
                        incidents)).
Proof.
  intros incidents r n.
  destruct incidents as [|i0 l].
  - subst r n. cbn. refine (conj eq_refl (conj eq_refl (conj eq_refl _))).
    refine (conj (fun _ => eq_refl) (conj _ (conj _ eq_refl))).
    + constructor.
    + intros k m [].
  - remember (i0 :: l) as incidents eqn:El.
    assert (Hs : by_severity r
                 = [(critical, n critical); (high, n high);
                    (medium, n medium); (low, n low)]).
    { subst r n. rewrite El. unfold generate_summary_report.
      cbn [by_severity]. rewrite severity_counts_fold.
      rewrite !count_classified. reflexivity. }
    assert (Ht : by_type r
                 = fold_left
                     (fun counts inc =>
                        count_incr String.eqb
                          (default "unknown"%string (obstacle_class inc)) counts)
                     incidents []).
    { subst r. rewrite El. reflexivity. }
    assert (Hc : critical_incidents r
                 = firstn 5 (List.filter
                               (fun inc => severity_eqb (cl_severity inc) critical)
                               (classify_batch incidents))).
    { subst r. rewrite El. reflexivity. }
    assert (Hn : total_incidents r = length incidents).
    { subst r. rewrite El. reflexivity. }
    destruct (counts_fold String.eqb String.eqb_eq
                (fun inc => default "unknown"%string (obstacle_class inc))
                incidents [] (List.NoDup_nil _) (fun _ _ H => match H with end))
      as (T1 & T2 & T3).
    rewrite Ht, Hc, Hn, Hs. rewrite El at 2. rewrite <- El.
    refine (conj eq_refl (conj eq_refl (conj (count_severities incidents) _))).
    refine (conj T1 (conj T2 (conj T3 _))).
    rewrite classify_batch_filter. apply firstn_map.
Qed.

End Summary.

(** ** Monotonicity of the severity rules *)

Section SeverityOrder.
Import SeverityClassifier IncidentReporter Order.

Lemma pf_lt_le (t t' : pyfloat) (c : Q) : pf_le t' t -> pf_lt t c -> pf_lt t' c.
Proof.
  destruct t, t'; simpl; try tauto. intros H1 H2. lra.
Qed.

Lemma pf_lt_weaken (t : pyfloat) (c d : Q) : c <= d -> pf_lt t c -> pf_lt t d.
Proof.
  destruct t; simpl; try tauto. intros H1 H2. lra.
Qed.

Lemma zone_rank_critical z z' :
  (zone_rank z <= zone_rank z')%nat -> z = "critical"%string -> z' = "critical"%string.
Proof.
  intros H ->. unfold zone_rank in H. simpl in H.
  destruct (String.eqb z' "critical") eqn:E; [apply String.eqb_eq, E|].
  destruct (String.eqb z' "warning"); lia.
Qed.

Lemma zone_rank_warning z z' :
  (zone_rank z <= zone_rank z')%nat -> z = "warning"%string ->
  z' = "warning"%string \/ z' = "critical"%string.
Proof.
  intros H ->. unfold zone_rank in H. simpl in H.
  destruct (String.eqb z' "critical") eqn:E; [right; apply String.eqb_eq, E|].
  destruct (String.eqb z' "warning") eqn:E'; [left; apply String.eqb_eq, E'|lia].
Qed.

Lemma critical_rule_mono c z z' t t' s s' :
  (forall q, pf_lt t q -> pf_lt t' q) ->
  implb s s' = true -> (zone_rank z <= zone_rank z')%nat ->
  Spec.critical_rule c z t s -> Spec.critical_rule c z' t' s'.
Proof.
  intros Hl Hs Hz. unfold Spec.critical_rule.
  assert (Hc := zone_rank_critical z z' Hz).
  assert (Hs' : s = true -> s' = true) by (destruct s, s'; auto; discriminate).
  intuition auto.
Qed.

Lemma high_rule_mono c z z' t t' s s' :
  (forall q, pf_lt t q -> pf_lt t' q) ->
  implb s s' = true -> (zone_rank z <= zone_rank z')%nat ->
  Spec.high_rule c z t s -> Spec.high_rule c z' t' s'.
Proof.
  intros Hl Hs Hz. unfold Spec.high_rule.
  assert (Hc := zone_rank_critical z z' Hz).
  assert (Hw := zone_rank_warning z z' Hz).
  assert (H30 := pf_lt_weaken t' 30 40 ltac:(lra)).
  assert (Hs' : s = true -> s' = true) by (destruct s, s'; auto; discriminate).
  intros [(? & Hz1 & ?)|[(? & ?)|[(? & ? & ?)|[(? & Hz1 & ?)|(? & ?)]]]];
    try destruct (Hw Hz1); auto 10.
Qed.

Lemma medium_rule_mono c z z' t t' s' :
  (forall q, pf_lt t q -> pf_lt t' q) -> (zone_rank z <= zone_rank z')%nat ->
  Spec.medium_rule c z t ->
  Spec.high_rule c z' t' s' \/ Spec.medium_rule c z' t'.
Proof.
  intros Hl Hz. unfold Spec.medium_rule, Spec.high_rule.
  assert (Hc := zone_rank_critical z z' Hz).
  assert (Hw := zone_rank_warning z z' Hz).
  intros [(? & Hz1)|[(? & ?)|[(? & Hz1 & ?)|[(? & ?)|(? & ?)]]]];
    try destruct (Hw Hz1); auto 12.
Qed.

Lemma classify_priority_mono_gen c z z' t t' s s' :
  (forall q, pf_lt t q -> pf_lt t' q) ->
  implb s s' = true -> (zone_rank z <= zone_rank z')%nat ->
  (get_severity_priority (classify (incident_of c z t s))
   <= get_severity_priority (classify (incident_of c z' t' s')))%nat.
Proof.
  intros Ht Hs Hz.
  assert (Hc : _is_critical c z t s = true -> _is_critical c z' t' s' = true).
  { intros H. apply _is_critical_iff.
    apply (critical_rule_mono c z z' t t' s s' Ht Hs Hz).
    apply _is_critical_iff, H. }
  assert (Hh : _is_high c z t s = true -> _is_high c z' t' s' = true).
  { intros H. apply _is_high_iff.
    apply (high_rule_mono c z z' t t' s s' Ht Hs Hz).
    apply _is_high_iff, H. }
  assert (Hm : _is_medium c z t = true ->
               _is_high c z' t' s' = true \/ _is_medium c z' t' = true).
  { intros H. apply _is_medium_iff in H.
    destruct (medium_rule_mono c z z' t t' s' Ht Hz H) as [H'|H'].
    - left. apply _is_high_iff, H'.
    - right. apply _is_medium_iff, H'. }
  unfold classify, incident_of. cbn [obstacle_class zone ttc is_static default].
  unfold Datatypes.id.
  destruct (_is_critical c z t s), (_is_high c z t s), (_is_medium c z t),
    (_is_critical c z' t' s'), (_is_high c z' t' s'), (_is_medium c z' t');
    cbn [get_severity_priority]; try lia;
    try (specialize (Hc eq_refl); discriminate);
    try (specialize (Hh eq_refl); discriminate);
    try (destruct (Hm eq_refl); discriminate).
Qed.

Lemma classify_priority_mono c z z' t t' s s' :
  pf_le t' t -> implb s s' = true -> (zone_rank z <= zone_rank z')%nat ->
  (get_severity_priority (classify (incident_of c z t s))
   <= get_severity_priority (classify (incident_of c z' t' s')))%nat.
Proof.
  intros Ht. apply classify_priority_mono_gen.
  intros q. apply pf_lt_le, Ht.
Qed.

(** X3.  The severity of an incident never gets lower when the obstacle
    is nearer in time (a smaller time-to-collision), when it is static
    rather than moving, or when it lies in a more dangerous zone
    (safe, then warning, then critical), all else equal. *)
Theorem severity_never_lower_when_more_dangerous :
  forall (c z z' : string) (t t' : pyfloat) (s s' : bool),
    pf_le t' t ->
    implb s s' = true ->
    (zone_rank z <= zone_rank z')%nat ->
    (get_severity_priority (classify (incident_of c z t s))
     <= get_severity_priority (classify (incident_of c z' t' s')))%nat.
Proof.
  intros. apply classify_priority_mono; assumption.
Qed.

Lemma severity_never_lower_when_more_dangerous_witness :
  pf_le (Fin 15) (Fin 30)
  /\ implb false true = true
  /\ (zone_rank "warning" <= zone_rank "critical")%nat
  /\ (get_severity_priority
        (classify (incident_of "human" "warning" (Fin 30) false))
      <= get_severity_priority
           (classify (incident_of "human" "critical" (Fin 15) true)))%nat.
Proof.
  assert (H1 : pf_le (Fin 15) (Fin 30)) by (simpl; lra).
  assert (H2 : implb false true = true) by reflexivity.
  assert (H3 : (zone_rank "warning" <= zone_rank "critical")%nat)
    by (vm_compute; lia).
  refine (conj H1 (conj H2 (conj H3 _))).
  exact (severity_never_lower_when_more_dangerous
           "human" "warning" "critical" (Fin 30) (Fin 15) false true H1 H2 H3).
Defined.

End SeverityOrder.

(** ** Risk scores *)

Section RiskOrder.
Import DistanceEstimator CollisionRiskAssessor Order.

Lemma pf_ltb_le (t t' : pyfloat) (c : Q) :
  pf_le t' t -> pf_ltb t c = true -> pf_ltb t' c = true.
Proof.
  intros H L. apply pf_ltb_iff. apply pf_ltb_iff in L.
  destruct t, t'; simpl in *; try tauto. lra.
Qed.

Lemma pf_ltb_weaken (t : pyfloat) (c d : Q) :
  c <= d -> pf_ltb t c = true -> pf_ltb t d = true.
Proof.
  intros H L. apply pf_ltb_iff. apply pf_ltb_iff in L.
  destruct t; simpl in *; try tauto. lra.
Qed.

Ltac closed_le := apply Qle_bool_iff; vm_compute; reflexivity.

Lemma class_scores_get_range c :
  20 <= class_scores_get c /\ class_scores_get c <= 40.
Proof.
  unfold class_scores_get.
  repeat match goal with
         | |- context [String.eqb ?a ?b] => destruct (String.eqb a b)
         end; split; closed_le.
Qed.

Lemma zone_multipliers_get_range z :
  (1 # 2) <= zone_multipliers_get z /\ zone_multipliers_get z <= 2.
Proof.
  unfold zone_multipliers_get.
  repeat match goal with
         | |- context [String.eqb ?a ?b] => destruct (String.eqb a b)
         end; split; closed_le.
Qed.

(** The score before the cap, as a sum of three terms. *)
Lemma _calculate_risk_score_sum c z t s :
  exists bonus : Q,
    _calculate_risk_score c z t s
    == Qmin 100 (class_scores_get c * zone_multipliers_get z + bonus
                 + (if s then 10 else 0))
    /\ 0 <= bonus
    /\ bonus == (if pf_ltb t 10 then 30
                 else if pf_ltb t 20 then 20
                 else if pf_ltb t 40 then 10 else 0).
Proof.
  unfold _calculate_risk_score.
  set (b := class_scores_get c). set (m := zone_multipliers_get z).
  exists (if pf_ltb t 10 then 30
          else if pf_ltb t 20 then 20 else if pf_ltb t 40 then 10 else 0).
  split; [|split; [|reflexivity]].
  - apply min_100.
    destruct (pf_ltb t 10), (pf_ltb t 20), (pf_ltb t 40), s; ring.
  - destruct (pf_ltb t 10), (pf_ltb t 20), (pf_ltb t 40); closed_le.
Qed.

Lemma _get_risk_level_mono (r r' : Q) :
  r <= r' ->
  (level_rank (_get_risk_level r) <= level_rank (_get_risk_level r'))%nat.
Proof.
  intros H. unfold _get_risk_level.
  destruct (Qle_bool 75 r) eqn:A; [apply Qle_bool_iff in A|apply Qle_bool_false in A];
  destruct (Qle_bool 50 r) eqn:B; [apply Qle_bool_iff in B|apply Qle_bool_false in B| |];
  try (apply Qle_bool_iff in B); try (apply Qle_bool_false in B);
  destruct (Qle_bool 25 r) eqn:C;
  try (apply Qle_bool_iff in C); try (apply Qle_bool_false in C);
  destruct (Qle_bool 75 r') eqn:A';
  try (apply Qle_bool_iff in A'); try (apply Qle_bool_false in A');
  destruct (Qle_bool 50 r') eqn:B';
  try (apply Qle_bool_iff in B'); try (apply Qle_bool_false in B');
  destruct (Qle_bool 25 r') eqn:C';
  try (apply Qle_bool_iff in C'); try (apply Qle_bool_false in C');
  cbn [level_rank]; try lia; exfalso; lra.
Qed.

Lemma _get_risk_level_critical (r : Q) :
  _get_risk_level r = critical <-> 75 <= r.
Proof.
  unfold _get_risk_level. destruct (Qle_bool 75 r) eqn:A.
  - apply Qle_bool_iff in A. tauto.
  - apply Qle_bool_false in A.
    destruct (Qle_bool 50 r), (Qle_bool 25 r); split;
      first [discriminate | intros; lra].
Qed.

Lemma _get_risk_level_low (r : Q) :
  _get_risk_level r = low <-> r < 25.
Proof.
  unfold _get_risk_level.
  destruct (Qle_bool 75 r) eqn:A;
    [apply Qle_bool_iff in A|apply Qle_bool_false in A];
  (destruct (Qle_bool 50 r) eqn:B;
    [apply Qle_bool_iff in B|apply Qle_bool_false in B]);
  (destruct (Qle_bool 25 r) eqn:C;
    [apply Qle_bool_iff in C|apply Qle_bool_false in C]);
  split; first [discriminate | intros; reflexivity | intros; lra].
Qed.

Lemma Qmin_100_le (x y : Q) : x <= y -> Qmin 100 x <= Qmin 100 y.
Proof.
  intros H. apply Q.min_le_compat_l. exact H.
Qed.

Lemma risk_score_range c z t s :
  10 <= _calculate_risk_score c z t s /\ _calculate_risk_score c z t s <= 100.
Proof.
  destruct (_calculate_risk_score_sum c z t s) as (bonus & E & Hb & _).
  destruct (class_scores_get_range c) as [B1 B2].
  destruct (zone_multipliers_get_range z) as [M1 M2].
  rewrite E. split.
  - apply Q.min_glb; [lra|].
    assert (10 <= class_scores_get c * zone_multipliers_get z) by nra.
    destruct s; lra.
  - apply Q.le_min_l.
Qed.

(** X4.  The risk score always lies between 10 and 100 (the documented
    range starts at 0, which no input reaches).  A human in the critical
    zone is at risk level 'critical' whatever the time-to-collision; a
    moving obstacle in the safe zone 40 seconds or more away (or with
    no valid time-to-collision) is at level 'low' whatever its class. *)
Theorem risk_score_bounds :
  forall (c z : string) (t : pyfloat) (s : bool),
    10 <= _calculate_risk_score c z t s
    /\ _calculate_risk_score c z t s <= 100
    /\ _get_risk_level (_calculate_risk_score "human" "critical" t s) = critical
    /\ (pf_ltb t 40 = false ->
        _get_risk_level (_calculate_risk_score c "safe" t false) = low).
Proof.
  intros c z t s.
  refine (conj (proj1 (risk_score_range c z t s))
            (conj (proj2 (risk_score_range c z t s)) (conj _ _))).
  - apply _get_risk_level_critical.
    destruct (_calculate_risk_score_sum "human" "critical" t s) as (bonus & E & Hb & _).
    rewrite E. apply Q.min_glb; [lra|].
    change (class_scores_get "human") with 40.
    change (zone_multipliers_get "critical") with 2.0.
    destruct s; lra.
  - intros L. apply _get_risk_level_low.
    destruct (_calculate_risk_score_sum c "safe" t false) as (bonus & E & _ & Eb).
    assert (L20 : pf_ltb t 20 = false).
    { destruct (pf_ltb t 20) eqn:X; [|reflexivity].
      rewrite (pf_ltb_weaken t 20 40 ltac:(lra) X) in L. discriminate. }
    assert (L10 : pf_ltb t 10 = false).
    { destruct (pf_ltb t 10) eqn:X; [|reflexivity].
      rewrite (pf_ltb_weaken t 10 40 ltac:(lra) X) in L. discriminate. }
    rewrite L10, L20, L in Eb.
    destruct (class_scores_get_range c) as [_ B2].
    change (zone_multipliers_get "safe") with 0.5 in E.
    rewrite E. apply Q.min_lt_iff. right. lra.
Qed.

Lemma risk_score_mono c z t t' s s' :
  pf_le t' t -> implb s s' = true ->
  _calculate_risk_score c z t s <= _calculate_risk_score c z t' s'.
Proof.
  intros Ht Hs.
  destruct (_calculate_risk_score_sum c z t s) as (b1 & E1 & _ & B1).
  destruct (_calculate_risk_score_sum c z t' s') as (b2 & E2 & _ & B2).
  rewrite E1, E2. apply Qmin_100_le.
  assert (Hb : b1 <= b2).
  { rewrite B1, B2.
    assert (M10 := pf_ltb_le t t' 10 Ht).
    assert (M20 := pf_ltb_le t t' 20 Ht).
    assert (M40 := pf_ltb_le t t' 40 Ht).
    destruct (pf_ltb t 10), (pf_ltb t 20), (pf_ltb t 40),
      (pf_ltb t' 10), (pf_ltb t' 20), (pf_ltb t' 40);
      try (specialize (M10 eq_refl); discriminate);
      try (specialize (M20 eq_refl); discriminate);
      try (specialize (M40 eq_refl); discriminate);
      closed_le. }
  destruct s, s'; try discriminate; lra.
Qed.

Lemma risk_score_zone_mono c z z' t s :
  zone_multipliers_get z <= zone_multipliers_get z' ->
  _calculate_risk_score c z t s <= _calculate_risk_score c z' t s.
Proof.
  intros Hz.
  destruct (_calculate_risk_score_sum c z t s) as (b1 & E1 & _ & B1).
  destruct (_calculate_risk_score_sum c z' t s) as (b2 & E2 & _ & B2).
  rewrite E1, E2. apply Qmin_100_le.
  destruct (class_scores_get_range c) as [C1 _].
  assert (b1 == b2) by (rewrite B1, B2; reflexivity).
  assert (class_scores_get c * zone_multipliers_get z
          <= class_scores_get c * zone_multipliers_get z') by nra.
  lra.
Qed.

(** X5.  The risk score, and with it the risk level, never gets lower
    when the time-to-collision is smaller or when the obstacle is static
    rather than moving; and the same obstacle scores at least as much in
    the warning zone as in the safe zone, and in the critical zone as in
    the warning zone. *)
Theorem risk_never_lower_when_more_dangerous :
  forall (c z : string) (t t' : pyfloat) (s s' : bool),
    pf_le t' t ->
    implb s s' = true ->
    _calculate_risk_score c z t s <= _calculate_risk_score c z t' s'
    /\ (level_rank (_get_risk_level (_calculate_risk_score c z t s))
        <= level_rank (_get_risk_level (_calculate_risk_score c z t' s')))%nat
    /\ _calculate_risk_score c "safe" t s <= _calculate_risk_score c "warning" t s
    /\ _calculate_risk_score c "warning" t s
       <= _calculate_risk_score c "critical" t s.
Proof.
  intros c z t t' s s' Ht Hs.
  assert (H := risk_score_mono c z t t' s s' Ht Hs).
  refine (conj H (conj (_get_risk_level_mono _ _ H) (conj _ _)));
    apply risk_score_zone_mono; closed_le.
Qed.

Lemma risk_never_lower_when_more_dangerous_witness :
  pf_le (Fin 5) (Fin 30)
  /\ implb false true = true
  /\ _calculate_risk_score "animal" "warning" (Fin 30) false
     <= _calculate_risk_score "animal" "warning" (Fin 5) true.
Proof.
  assert (H1 : pf_le (Fin 5) (Fin 30)) by (simpl; lra).
  assert (H2 : implb false true = true) by reflexivity.
  refine (conj H1 (conj H2 _)).
  exact (proj1 (risk_never_lower_when_more_dangerous
                  "animal" "warning" (Fin 30) (Fin 5) false true H1 H2)).
Defined.

(** X6.  The time-to-collision level never gets lower when the
    time-to-collision gets smaller, whatever the three thresholds are;
    an infinite or invalid time-to-collision is at level 'low'. *)
Theorem ttc_level_never_lower_when_nearer :
  forall (est : DistanceEstimator.t) (t t' : pyfloat),
    pf_le t' t ->
    (level_rank (get_ttc_level est t) <= level_rank (get_ttc_level est t'))%nat
    /\ get_ttc_level est PInf = low
    /\ get_ttc_level est NaN = low.
Proof.
  intros est t t' Ht.
  refine (conj _ (conj eq_refl eq_refl)).
  unfold get_ttc_level.
  assert (M1 := pf_ltb_le t t' (ttc_critical est) Ht).
  assert (M2 := pf_ltb_le t t' (ttc_high est) Ht).
  assert (M3 := pf_ltb_le t t' (ttc_medium est) Ht).
  destruct (pf_ltb t (ttc_critical est)), (pf_ltb t (ttc_high est)),
    (pf_ltb t (ttc_medium est)), (pf_ltb t' (ttc_critical est)),
    (pf_ltb t' (ttc_high est)), (pf_ltb t' (ttc_medium est));
    cbn [level_rank]; try lia;
    try (specialize (M1 eq_refl); discriminate);
    try (specialize (M2 eq_refl); discriminate);
    try (specialize (M3 eq_refl); discriminate).
Qed.

Lemma ttc_level_never_lower_when_nearer_witness :
  pf_le (Fin 10) (Fin 50)
  /\ (level_rank (get_ttc_level defaults (Fin 50))
      <= level_rank (get_ttc_level defaults (Fin 10)))%nat.
Proof.
  assert (H1 : pf_le (Fin 10) (Fin 50)) by (simpl; lra).
  refine (conj H1 _).
  exact (proj1 (ttc_level_never_lower_when_nearer defaults (Fin 50) (Fin 10) H1)).
Defined.

End RiskOrder.

(** ** Distances, speeds and batches of obstacles *)

Section Estimates.
Import DistanceEstimator CollisionRiskAssessor Calibration RiskBatch Order.










Lemma Qabs_zero_iff (x : Q) : Qabs x == 0 <-> x == 0.
Proof.
  split; intros H.
  - revert H. apply Qabs_case; intros; lra.
  - rewrite H. reflexivity.
Qed.

Lemma Qabs_swap (x y : Q) : Qabs (x - y) == Qabs (y - x).
Proof.
  rewrite <- (Qabs_opp (x - y)). apply Qabs_wd. ring.
Qed.

(** X9.  The stereo estimate is +infinity exactly when the two boxes
    have the same horizontal centre; it does not depend on which of the
    two cameras is the first; and it is never negative when focal length
    and baseline are not. *)
Theorem estimate_with_triangulation_symmetric :
  forall (est : DistanceEstimator.t) (b1 b2 : bbox) (baseline : Q),
    pf_eq (estimate_with_triangulation est b1 b2 baseline)
          (estimate_with_triangulation est b2 b1 baseline)
    /\ (estimate_with_triangulation est b1 b2 baseline = PInf
        <-> (b1.1.1.1 + b1.1.2 = b2.1.1.1 + b2.1.2)%Z)
    /\ (0 <= focal_length est * baseline ->
        nonneg_or_inf (estimate_with_triangulation est b1 b2 baseline)).
Proof.
  intros est [[[x1a y1a] x2a] y2a] [[[x1b y1b] x2b] y2b] baseline.
  cbn [fst snd]. unfold estimate_with_triangulation.
  set (c1 := inject_Z (x1a + x2a) / 2). set (c2 := inject_Z (x1b + x2b) / 2).
  assert (Hc : c1 - c2 == 0 <-> (x1a + x2a = x1b + x2b)%Z).
  { unfold c1, c2. rewrite <- inject_Z_injective.
    unfold Qdiv. change (/ 2) with (1 # 2). split; intros; lra. }
  assert (Hsw := Qabs_swap c1 c2).
  destruct (Qeq_bool (Qabs (c1 - c2)) 0) eqn:E.
  - assert (E' : Qeq_bool (Qabs (c2 - c1)) 0 = true).
    { apply Qeq_bool_iff. rewrite <- Hsw. apply Qeq_bool_iff, E. }
    rewrite E'. apply Qeq_bool_iff in E.
    apply (proj1 (Qabs_zero_iff _)) in E.
    refine (conj I (conj _ (fun _ => I))).
    split; [intros _; apply Hc, E | reflexivity].
  - assert (E' : Qeq_bool (Qabs (c2 - c1)) 0 = false).
    { apply Qeq_bool_false. rewrite <- Hsw. apply Qeq_bool_neq, E. }
    rewrite E'. apply Qeq_bool_neq in E.
    split; [|split].
    + unfold pf_eq. rewrite Hsw. reflexivity.
    + split; [discriminate|]. intros H. exfalso. apply E.
      apply (proj2 (Qabs_zero_iff _)), Hc, H.
    + intros Hf. unfold nonneg_or_inf.
      assert (0 < Qabs (c1 - c2)).
      { assert (A := Qabs_nonneg (c1 - c2)). lra. }
      apply Qle_shift_div_l; [assumption|]. lra.
Qed.

End Estimates.

Section Batch.
Import DistanceEstimator CollisionRiskAssessor RiskBatch Order.

Lemma assess_total est oz :
  exists r, assess est oz = Some r
            /\ r_risk_level r = _get_risk_level (r_risk_score r).
Proof.
  unfold assess, assess_risk.
  destruct (calculate_ttc_total est
              (estimate_distance est (ro_class oz.1) (ro_bbox oz.1)) None)
    as (t & Et).
  rewrite Et. cbn [mbind option_bind]. eexists. split; reflexivity.
Qed.

Lemma assess_all_total est pairs :
  exists rs, assess_all est pairs = Some rs
             /\ length rs = length pairs
             /\ (forall r, In r rs ->
                   r_risk_level r = _get_risk_level (r_risk_score r)).
Proof.
  induction pairs as [|oz rest (rs & E & L & H)]; cbn [assess_all].
  - exists []. repeat split. intros r [].
  - destruct (assess_total est oz) as (r & Er & Hr).
    rewrite Er, E. cbn [mbind option_bind].
    exists (r :: rs). split; [reflexivity|]. split; [simpl; lia|].
    intros r' [<-|Hin]; [exact Hr | exact (H r' Hin)].
Qed.

Lemma max_by_spec {A : Type} (key : A -> Q) (xs : list A) (best : A) :
  In (max_by key best xs) (best :: xs)
  /\ (forall x, In x (best :: xs) -> key x <= key (max_by key best xs)).
Proof.
  revert best. induction xs as [|y xs IH]; intros best; cbn [max_by].
  - split; [left; reflexivity|]. intros x [E|[]]. subst x. lra.
  - destruct (Qltb (key best) (key y)) eqn:L.
    + apply Qltb_iff in L. destruct (IH y) as [I1 I2]. split.
      * right. exact I1.
      * intros x [E|Hin]; [subst x|exact (I2 x Hin)].
        assert (H := I2 y (or_introl eq_refl)). lra.
    + apply Qltb_false_iff in L. destruct (IH best) as [I1 I2]. split.
      * destruct I1 as [E|Hin]; [left; exact E | right; right; exact Hin].
      * intros x [E|[E|Hin]].
        -- apply (I2 x). left. exact E.
        -- subst x. assert (H := I2 best (or_introl eq_refl)). lra.
        -- apply (I2 x). right. exact Hin.
Qed.

Lemma count_level_positive l rs :
  (0 < count_level l rs)%nat <-> exists a, In a rs /\ r_risk_level a = l.
Proof.
  unfold count_level. split.
  - destruct (List.filter _ rs) as [|a rest] eqn:E; [simpl; lia|]. intros _.
    assert (Hin : In a (List.filter (fun a => level_eqb (r_risk_level a) l) rs))
      by (rewrite E; left; reflexivity).
    apply filter_In in Hin as [Hin Hl]. exists a. split; [exact Hin|].
    destruct (r_risk_level a), l; try discriminate; reflexivity.
  - intros (a & Hin & Hl).
    assert (Hf : In a (List.filter (fun a => level_eqb (r_risk_level a) l) rs)).
    { apply filter_In. split; [exact Hin|]. rewrite Hl. destruct l; reflexivity. }
    destruct (List.filter _ rs); [destruct Hf | simpl; lia].
Qed.

(** X10.  [assess_multiple_obstacles] raises exactly when there are
    obstacles but no zone (the maximum of an empty list).  Otherwise
    obstacles and zones are paired up to the shorter list, so
    'obstacle_count' is the number of obstacles given even when fewer
    were assessed; the maximum score is the score of one of the
    assessments and bounds all of them, the maximum level is the level
    of that assessment and is the highest level of all, and it is
    'critical' exactly when the count of critical assessments is
    positive. *)
Theorem assess_multiple_obstacles_summary :
  forall (est : DistanceEstimator.t)
         (obstacles : list risk_obstacle) (zones : list string),
    (assess_multiple_obstacles est obstacles zones = None
     <-> obstacles <> [] /\ zones = [])
    /\ (forall r,
          assess_multiple_obstacles est obstacles zones = Some r ->
          obstacle_count r = length obstacles
          /\ length (assessments r)
             = Nat.min (length obstacles) (length zones)
          /\ (forall a, In a (assessments r) ->
                r_risk_score a <= max_risk_score r
                /\ (level_rank (r_risk_level a)
                    <= level_rank (max_risk_level r))%nat)
          /\ (obstacles <> [] ->
              exists a, In a (assessments r)
                        /\ r_risk_score a = max_risk_score r
                        /\ r_risk_level a = max_risk_level r)
          /\ (obstacles <> [] ->
              critical_count r = Some (count_level critical (assessments r))
              /\ high_count r = Some (count_level high (assessments r)))
          /\ (max_risk_level r = critical
              <-> exists n, critical_count r = Some n /\ (0 < n)%nat)).
Proof.
  intros est obstacles zones.
  destruct obstacles as [|o os].
  - cbn [assess_multiple_obstacles]. split.
    + split; [discriminate|]. intros [H _]. contradiction.
    + intros r E. injection E as <-.
      cbn [obstacle_count assessments max_risk_level max_risk_score
             critical_count high_count length].
      refine (conj eq_refl (conj eq_refl (conj _ (conj _ (conj _ _))))).
      * intros a [].
      * intros H. contradiction.
      * intros H. contradiction.
      * split; [discriminate|]. intros (n & E & _). discriminate.
  - remember (o :: os) as obstacles eqn:Eo.
    assert (Hne : obstacles <> []) by (rewrite Eo; discriminate).
    assert (Hdef : assess_multiple_obstacles est obstacles zones
              = (assessments ← assess_all est (combine obstacles zones);
                 match assessments with
                 | [] => None
                 | first :: rest =>
                     let max_assessment := max_by r_risk_score first rest in
                     Some {| max_risk_level := r_risk_level max_assessment;
                             max_risk_score := r_risk_score max_assessment;
                             obstacle_count := length obstacles;
                             assessments := assessments;
                             critical_count :=
                               Some (count_level critical assessments);
                             high_count := Some (count_level high assessments) |}
                 end)).
    { rewrite Eo. reflexivity. }
    rewrite Hdef. clear Hdef.
    destruct (assess_all_total est (combine obstacles zones)) as (rs & E & L & Hl).
    rewrite E. cbn [mbind option_bind].
    rewrite length_combine in L.
    destruct rs as [|first rest].
    + split.
      * split; [intros _|reflexivity]. split; [exact Hne|].
        destruct zones; [reflexivity|]. rewrite Eo in L. simpl in L. lia.
      * intros r H. discriminate.
    + split.
      * split; [discriminate|]. intros [_ ->]. rewrite Eo in L.
        simpl in L. lia.
      * intros r H. injection H as <-.
        cbn [obstacle_count assessments max_risk_level max_risk_score
               critical_count high_count].
        destruct (max_by_spec r_risk_score rest first) as [M1 M2].
        set (m := max_by r_risk_score first rest) in *.
        assert (Hlev : forall a, In a (first :: rest) ->
                  (level_rank (r_risk_level a) <= level_rank (r_risk_level m))%nat).
        { intros a Ha. rewrite (Hl a Ha), (Hl m M1).
          apply _get_risk_level_mono, M2, Ha. }
        refine (conj eq_refl (conj L (conj _ (conj _ (conj _ _))))).
        -- intros a Ha. split; [apply M2, Ha | apply Hlev, Ha].
        -- intros _. exists m. repeat split. exact M1.
        -- intros _. split; reflexivity.
        -- split.
           ++ intros Hm. eexists. split; [reflexivity|].
              apply count_level_positive. exists m. split; assumption.
           ++ intros (n & En & Hn). injection En as <-.
              apply count_level_positive in Hn as (a & Ha & Hc).
              assert (H := Hlev a Ha). rewrite Hc in H.
              destruct (r_risk_level m); cbn [level_rank] in H; try lia.
              reflexivity.
Qed.

End Batch.

(** ** The tracker: bounds and nearest-neighbour matching *)

Section DictForall.
Context {V : Type} (P : nat * V -> Prop).

Lemma dict_set_Forall k v (d : dict V) :
  Forall P d -> P (k, v) -> Forall P (dict_set k v d).
Proof.
  intros Hd Hv. induction d as [|[k' v'] rest IH]; simpl.
  - constructor; [exact Hv | constructor].
  - inversion Hd as [|? ? Hx Hrest]; subst.
    destruct (Nat.eqb_spec k k') as [<-|N].
    + constructor; assumption.
    + constructor; [exact Hx | exact (IH Hrest)].
Qed.

Lemma dict_remove_Forall k (d : dict V) : Forall P d -> Forall P (dict_remove k d).
Proof.
  intros Hd. unfold dict_remove. rewrite List.Forall_forall in Hd |- *.
  intros x Hx. apply filter_In in Hx as [Hx _]. exact (Hd x Hx).
Qed.

Lemma dict_set_In_other k v (d : dict V) kv :
  In kv (dict_set k v d) -> fst kv <> k -> In kv d.
Proof.
  induction d as [|[k' v'] rest IH]; simpl; intros Hin Hne.
  - destruct Hin as [<-|[]]. simpl in Hne. congruence.
  - destruct (Nat.eqb_spec k k') as [<-|N].
    + destruct Hin as [<-|Hin]; [simpl in Hne; congruence | right; exact Hin].
    + destruct Hin as [<-|Hin]; [left; reflexivity | right; exact (IH Hin Hne)].
Qed.

Lemma dict_remove_set_Forall k v (d : dict V) :
  Forall P d -> Forall P (dict_remove k (dict_set k v d)).
Proof.
  intros Hd. unfold dict_remove. rewrite List.Forall_forall in Hd |- *.
  intros x Hx. apply filter_In in Hx as [Hx Hk].
  apply Hd, (dict_set_In_other k v d x Hx).
  apply negb_true_iff, Nat.eqb_neq in Hk. congruence.
Qed.
End DictForall.

Lemma for_each_preserves {S A : Type} (body : S -> A -> option S)
    (P : S -> Prop) (xs : list A) :
  (forall s x s', P s -> body s x = Some s' -> P s') ->
  forall s s', P s -> for_each body xs s = Some s' -> P s'.
Proof.
  intros Hstep. induction xs as [|x xs IH]; intros s s' HP H; cbn [for_each] in H.
  - inversion H; subst. exact HP.
  - destruct (body s x) as [s1|] eqn:E; cbn [mbind option_bind] in H; [|discriminate].
    exact (IH s1 s' (Hstep s x s1 HP E) H).
Qed.

Section TrackerBounded.
Import ObstacleTracker TrackerInv TrackerBounds.

Lemma register_bounded self d :
  counters_bounded self ->
  counters_bounded (fst (register self d))
  /\ next_object_id (fst (register self d)) = S (next_object_id self)
  /\ max_disappeared (fst (register self d)) = max_disappeared self.
Proof.
  intros Hb. unfold counters_bounded, register in *.
  cbn [fst disappeared max_disappeared next_object_id].
  split; [|split; [lia | reflexivity]].
  apply dict_set_Forall; [exact Hb | cbn [snd]; lia].
Qed.

Lemma mark_disappeared_bounded self id self' :
  counters_bounded self ->
  mark_disappeared self id = Some self' ->
  counters_bounded self'
  /\ next_object_id self' = next_object_id self
  /\ max_disappeared self' = max_disappeared self.
Proof.
  intros Hb. unfold mark_disappeared.
  destruct (dict_get id (disappeared self)) as [n|] eqn:En; [|discriminate].
  cbn [mbind option_bind disappeared max_disappeared].
  rewrite dict_get_set_eq. cbn [mbind option_bind].
  destruct (Nat.ltb_spec (max_disappeared self) (n + 1)) as [Hlt|Hle].
  - unfold deregister. cbn [objects disappeared max_disappeared next_object_id].
    destruct (dict_del id (objects self)) as [objs|]; [|discriminate].
    unfold dict_del. rewrite dict_get_set_eq.
    cbn [mbind option_bind]. intros H. inversion H; subst; clear H.
    unfold counters_bounded. cbn [disappeared max_disappeared next_object_id].
    split; [|split; reflexivity].
    apply dict_remove_set_Forall. exact Hb.
  - intros H. inversion H; subst; clear H.
    unfold counters_bounded. cbn [disappeared max_disappeared next_object_id].
    split; [|split; reflexivity].
    apply dict_set_Forall; [exact Hb | cbn [snd]; lia].
Qed.

Lemma mark_loop_bounded ids self self' :
  counters_bounded self ->
  for_each mark_disappeared ids self = Some self' ->
  counters_bounded self'
  /\ next_object_id self' = next_object_id self
  /\ max_disappeared self' = max_disappeared self.
Proof.
  intros Hb H.
  apply (for_each_preserves mark_disappeared
           (fun s => counters_bounded s
                     /\ next_object_id s = next_object_id self
                     /\ max_disappeared s = max_disappeared self)
           ids) with (s := self); [|auto|exact H].
  intros s x s' (B & N & M) E.
  destruct (mark_disappeared_bounded s x s' B E) as (B' & N' & M').
  split; [exact B'|]. split; congruence.
Qed.

Lemma match_detection_bounded s ids d s' ids' :
  counters_bounded s ->
  match_detection (s, ids) d = Some (s', ids') ->
  counters_bounded s'
  /\ (next_object_id s <= next_object_id s' <= next_object_id s + 1)%nat
  /\ max_disappeared s' = max_disappeared s.
Proof.
  intros Hb. unfold match_detection.
  destruct (for_each (closer s (_get_center (det_bbox d))) ids (None, None))
    as [[best m]|]; [|discriminate].
  cbn [mbind option_bind].
  assert (Hreg : forall r, Some (fst (register s d), ids) = Some (s', ids') ->
            r = tt ->
            counters_bounded s'
            /\ (next_object_id s <= next_object_id s' <= next_object_id s + 1)%nat
            /\ max_disappeared s' = max_disappeared s).
  { intros _ H _. assert (Es : s' = fst (register s d)) by congruence.
    rewrite Es.
    destruct (register_bounded s d Hb) as (B & N & M).
    split; [exact B|]. split; [lia | exact M]. }
  destruct best as [b|]; [|intros H; exact (Hreg tt H eq_refl)].
  destruct m as [m|]; [|intros H; exact (Hreg tt H eq_refl)].
  destruct (norm_ltb m 100); [|intros H; exact (Hreg tt H eq_refl)].
  destruct (list_remove_first b ids) as [ids1|]; [|discriminate].
  cbn [mbind option_bind]. intros H. inversion H; subst; clear H.
  unfold counters_bounded. cbn [disappeared max_disappeared next_object_id].
  split; [|split; [lia | reflexivity]].
  apply dict_set_Forall; [exact Hb | cbn [snd]; lia].
Qed.

Lemma matching_loop_bounded dets : forall s ids s' ids',
  counters_bounded s ->
  for_each match_detection dets (s, ids) = Some (s', ids') ->
  counters_bounded s'
  /\ (next_object_id s <= next_object_id s'
      <= next_object_id s + length dets)%nat
  /\ max_disappeared s' = max_disappeared s.
Proof.
  induction dets as [|d dets IH]; intros s ids s' ids' Hb H; cbn [for_each] in H.
  - inversion H; subst. split; [exact Hb|]. split; [simpl; lia | reflexivity].
  - destruct (match_detection (s, ids) d) as [[s1 ids1]|] eqn:E;
      cbn [mbind option_bind] in H; [|discriminate].
    destruct (match_detection_bounded s ids d s1 ids1 Hb E) as (B1 & N1 & M1).
    destruct (IH s1 ids1 s' ids' B1 H) as (B2 & N2 & M2).
    split; [exact B2|]. split; [cbn [length]; lia | congruence].
Qed.

Lemma register_fold_bounded dets : forall self,
  counters_bounded self ->
  let self' := fold_left (fun s d => fst (register s d)) dets self in
  counters_bounded self'
  /\ next_object_id self' = (next_object_id self + length dets)%nat
  /\ max_disappeared self' = max_disappeared self.
Proof.
  induction dets as [|d dets IH]; intros self Hb; cbn [fold_left length].
  - split; [exact Hb|]. split; [lia | reflexivity].
  - destruct (register_bounded self d Hb) as (B & N & M).
    destruct (IH _ B) as (B2 & N2 & M2).
    split; [exact B2|]. split; [lia | congruence].
Qed.

Lemma update_bounded self dets self' ret :
  counters_bounded self ->
  update self dets = Some (self', ret) ->
  counters_bounded self'
  /\ (next_object_id self <= next_object_id self'
      <= next_object_id self + length dets)%nat
  /\ max_disappeared self' = max_disappeared self
  /\ (dets = [] -> next_object_id self' = next_object_id self)
  /\ (objects self = [] -> dets <> [] ->
      next_object_id self' = (next_object_id self + length dets)%nat).
Proof.
  intros Hb. unfold update.
  destruct (length dets =? 0)%nat eqn:Hd.
  { apply Nat.eqb_eq in Hd.
    destruct (for_each mark_disappeared (dict_keys (disappeared self)) self)
      as [s1|] eqn:E; [|discriminate].
    cbn [mbind option_bind]. intros H. inversion H; subst; clear H.
    destruct (mark_loop_bounded _ _ _ Hb E) as (B & N & M).
    split; [exact B|]. split; [lia|]. split; [exact M|].
    split; [intros _; exact N|].
    intros _ Hne. apply length_zero_iff_nil in Hd. contradiction. }
  apply Nat.eqb_neq in Hd.
  assert (Hne : dets <> []) by (intros ->; apply Hd; reflexivity).
  destruct (length (objects self) =? 0)%nat eqn:Ho.
  { intros H. injection H as <- <-.
    pose proof (register_fold_bounded dets self Hb) as R. cbv zeta in R.
    destruct R as (B & N & M).
    unfold register in B, N, M. cbn [fst] in B, N, M.
    split; [exact B|]. split; [lia|]. split; [exact M|].
    split; [intros ->; contradiction|]. intros _ _. exact N. }
  apply Nat.eqb_neq in Ho.
  destruct (for_each match_detection dets (self, dict_keys (objects self)))
    as [[s1 ids]|] eqn:E; [|discriminate].
  cbn [mbind option_bind].
  destruct (for_each mark_disappeared ids s1) as [s2|] eqn:E2; [|discriminate].
  cbn [mbind option_bind]. intros H. inversion H; subst; clear H.
  destruct (matching_loop_bounded _ _ _ _ _ Hb E) as (B1 & N1 & M1).
  destruct (mark_loop_bounded _ _ _ B1 E2) as (B2 & N2 & M2).
  split; [exact B2|]. split; [lia|]. split; [congruence|].
  split; [intros ->; contradiction|].
  intros Hnil. rewrite Hnil in Ho. contradiction.
Qed.

Lemma counters_bounded_dis self id n :
  counters_bounded self -> dis self id = Some n ->
  (n <= max_disappeared self)%nat.
Proof.
  unfold counters_bounded, dis. intros Hb Hn.
  induction (disappeared self) as [|[k v] rest IH]; simpl in Hn; [discriminate|].
  inversion Hb as [|? ? Hx Hrest]; subst.
  destruct (Nat.eqb id k).
  - inversion Hn; subst. exact Hx.
  - exact (IH Hrest Hn).
Qed.

(** X11.  From a tracker state that [__init__] and [update] can reach,
    [update] ends normally and keeps every disappearance counter at or
    below [max_disappeared] (a track that would pass it is gone); it
    hands out at most one new identifier per detection, none when there
    is no detection and exactly one per detection when no track exists,
    so the number of tracks grows by at most the number of
    detections.  The initial tracker is such a state. *)
Theorem tracker_counters_stay_bounded :
  forall (self : ObstacleTracker.t) (dets : list detection),
    wf self ->
    counters_bounded self ->
    (exists self',
       update self dets = Some (self', objects self')
       /\ wf self'
       /\ counters_bounded self'
       /\ max_disappeared self' = max_disappeared self
       /\ (forall id n, dis self' id = Some n ->
             (n <= max_disappeared self)%nat)
       /\ (next_object_id self <= next_object_id self'
           <= next_object_id self + length dets)%nat
       /\ (dets = [] -> next_object_id self' = next_object_id self)
       /\ (objects self = [] -> dets <> [] ->
           next_object_id self' = (next_object_id self + length dets)%nat)
       /\ (length (objects self') <= length (objects self) + length dets)%nat)
    /\ wf (init (max_disappeared self))
    /\ counters_bounded (init (max_disappeared self)).
Proof.
  intros self dets Hwf Hb.
  split; [|split; [apply wf_init | constructor]].
  destruct (update_spec self dets Hwf)
    as (self' & Hup & Hwf' & Hmx & _ & _ & _ & Hnew & _).
  destruct (update_bounded self dets self' _ Hb Hup) as (B & N & M & N0 & N1).
  exists self'. split; [exact Hup|]. split; [exact Hwf'|]. split; [exact B|].
  split; [exact M|]. split.
  { intros id n Hn. rewrite <- M. exact (counters_bounded_dis self' id n B Hn). }
  split; [exact N|]. split; [exact N0|]. split; [exact N1|].
  destruct Hwf' as (_ & ND' & Bd').
  assert (Hincl : incl (dict_keys (objects self'))
                    (dict_keys (objects self)
                     ++ seq (next_object_id self)
                          (next_object_id self' - next_object_id self))).
  { intros id Hid. apply in_app_iff.
    destruct (Hnew id Hid) as [Hr|Hge]; [left; exact Hr|].
    right. apply in_seq. rewrite List.Forall_forall in Bd'.
    specialize (Bd' id Hid). simpl in Bd'. lia. }
  apply NoDup_incl_length in Hincl; [|exact ND'].
  unfold dict_keys in Hincl.
  rewrite length_app, !length_map, length_seq in Hincl. lia.
Qed.

Lemma tracker_counters_stay_bounded_witness :
  exists self',
    update Scenario.tracking [Scenario.animal]
    = Some (self', objects self')
    /\ counters_bounded self'
    /\ next_object_id self' = 2%nat.
Proof.
  assert (Hwf : wf Scenario.tracking).
  { unfold wf. cbn. split; [reflexivity|]. split.
    - constructor; [simpl; tauto | constructor].
    - constructor; [lia | constructor]. }
  assert (Hb : counters_bounded Scenario.tracking).
  { unfold counters_bounded. cbn. constructor; [simpl; lia | constructor]. }
  destruct (proj1 (tracker_counters_stay_bounded Scenario.tracking
                     [Scenario.animal] Hwf Hb))
    as (self' & Hup & _ & B & _ & _ & _ & _ & _ & _).
  exists self'. split; [exact Hup|]. split; [exact B|].
  assert (E : option_map (fun p => next_object_id (fst p))
                (update Scenario.tracking [Scenario.animal]) = Some 2%nat)
    by (vm_compute; reflexivity).
  rewrite Hup in E. cbn [option_map fst] in E. congruence.
Defined.

End TrackerBounded.

Section TrackerMatching.
Import ObstacleTracker TrackerInv TrackerBounds.

Lemma closer_loop_min self c ids : forall acc best m,
  for_each (closer self c) ids acc = Some (best, m) ->
  (forall m0, snd acc = Some m0 -> exists mv, m = Some mv /\ mv <= m0)
  /\ (forall id o, In id ids -> obj self id = Some o ->
        exists mv, m = Some mv /\ mv <= norm_sq c (_get_center (det_bbox o))).
Proof.
  induction ids as [|id ids IH]; intros [b0 m0] best m H; cbn [for_each] in H.
  - inversion H; subst. split.
    + intros m1 E. exists m1. split; [exact E | lra].
    + intros ? ? [].
  - destruct (closer self c (b0, m0) id) as [acc1|] eqn:Ec;
      cbn [mbind option_bind] in H; [|discriminate].
    unfold closer in Ec.
    destruct (dict_get id (objects self)) as [o|] eqn:Eo;
      cbn [mbind option_bind] in Ec; [|discriminate].
    set (dist := norm_sq c (_get_center (det_bbox o))) in *.
    destruct (IH _ _ _ H) as [I1 I2].
    assert (Hid : forall mv, m = Some mv -> mv <= dist ->
              forall id' o', In id' (id :: ids) -> obj self id' = Some o' ->
                exists mv, m = Some mv
                           /\ mv <= norm_sq c (_get_center (det_bbox o'))).
    { intros mv Em Hle id' o' [<-|Hin] Ho'; [|exact (I2 id' o' Hin Ho')].
      unfold obj in Ho'. rewrite Eo in Ho'.
      assert (Eq' : o' = o) by congruence. rewrite Eq'.
      exists mv. split; [exact Em | exact Hle]. }
    destruct m0 as [mm|].
    + destruct (Qltb dist mm) eqn:L; injection Ec as <-.
      * apply Qltb_iff in L.
        destruct (I1 dist eq_refl) as (mv & Em & Hle).
        split; [|exact (Hid mv Em Hle)].
        intros m1 E. cbn [snd] in E.
        assert (E1 : mm = m1) by congruence. rewrite <- E1.
        exists mv. split; [exact Em | lra].
      * apply Qltb_false_iff in L.
        destruct (I1 mm eq_refl) as (mv & Em & Hle).
        split; [|apply (Hid mv Em); lra].
        intros m1 E. cbn [snd] in E.
        assert (E1 : mm = m1) by congruence. rewrite <- E1.
        exists mv. split; [exact Em | exact Hle].
    + injection Ec as <-.
      destruct (I1 dist eq_refl) as (mv & Em & Hle).
      split; [|exact (Hid mv Em Hle)].
      intros m1 E. discriminate.
Qed.

Lemma close_gap d o :
  close d o = true <-> gap d o < 100 * 100.
Proof.
  unfold close, gap, norm_ltb.
  change (Qltb 0 100) with true. cbn [andb]. apply Qltb_iff.
Qed.

(** X12.  One turn of the matching loop of [update], for a detection
    and the tracks no earlier detection of the frame has claimed: when
    none of these tracks is within 100 pixels (centre to centre) the
    detection is registered as a new track; when one is, the detection
    replaces the stored detection of a nearest one, no other track
    changes, no identifier is used up, that track's counter is reset and
    it can be claimed by no later detection of the frame. *)
Theorem detection_claims_nearest_track :
  forall (s : ObstacleTracker.t) (ids : list nat) (d : detection),
    wf s ->
    List.NoDup ids ->
    (forall id, In id ids -> registered s id) ->
    exists s' ids',
      match_detection (s, ids) d = Some (s', ids')
      /\ ((forall id o, In id ids -> obj s id = Some o -> close d o = false) ->
          s' = fst (register s d) /\ ids' = ids)
      /\ (forall id o, In id ids -> obj s id = Some o -> close d o = true ->
          exists b ob,
            In b ids /\ obj s b = Some ob
            /\ (forall id' o', In id' ids -> obj s id' = Some o' ->
                  gap d ob <= gap d o')
            /\ obj s' b = Some d
            /\ dis s' b = Some 0%nat
            /\ ~ In b ids'
            /\ (forall k, In k ids' <-> In k ids /\ k <> b)
            /\ next_object_id s' = next_object_id s
            /\ (forall k, k <> b -> same_at s s' k)).
Proof.
  intros s ids d Hwf ND Hreg. unfold match_detection.
  set (c := _get_center (det_bbox d)).
  destruct (closer_loop s c ids (None, None) Hreg) as (best & m & Hloop & Hres).
  destruct (closer_loop_min s c ids (None, None) best m Hloop) as [_ Hmin].
  rewrite Hloop. cbn [mbind option_bind].
  destruct Hres as [E | (b & ob & -> & Hb & Hob & ->)].
  { inversion E; subst. eexists _, _. split; [reflexivity|]. split.
    - intros _. split; reflexivity.
    - intros id o Hin Ho _. destruct (Hmin id o Hin Ho) as (mv & Em & _).
      discriminate. }
  fold (gap d ob). fold (close d ob) in *.
  assert (Hnear : forall id' o', In id' ids -> obj s id' = Some o' ->
                    gap d ob <= gap d o').
  { intros id' o' Hin Ho'. destruct (Hmin id' o' Hin Ho') as (mv & Em & Hle).
    inversion Em; subst. exact Hle. }
  change (norm_ltb (norm_sq c (_get_center (det_bbox ob))) 100) with (close d ob).
  destruct (close d ob) eqn:Hc.
  - destruct (list_remove_first_spec b ids Hb) as (ids1 & -> & Hids1).
    destruct (Hids1 ND) as [ND1 Hiff]. cbn [mbind option_bind].
    eexists _, ids1. split; [reflexivity|]. split.
    + intros Hfar. rewrite (Hfar b ob Hb Hob) in Hc. discriminate.
    + intros id o Hin Ho Hclose. exists b, ob.
      split; [exact Hb|]. split; [exact Hob|]. split; [exact Hnear|].
      unfold obj, dis, same_at, obj, dis.
      cbn [objects disappeared next_object_id].
      split; [apply dict_get_set_eq|]. split; [apply dict_get_set_eq|].
      split; [intros Hin1; apply Hiff in Hin1; tauto|].
      split; [exact Hiff|]. split; [reflexivity|].
      intros k Hk. split; apply dict_get_set_ne; auto.
  - eexists _, _. split; [reflexivity|]. split.
    + intros _. split; reflexivity.
    + intros id o Hin Ho Hclose. exfalso.
      apply close_gap in Hclose.
      assert (Hle := Hnear id o Hin Ho).
      assert (Hcl : close d ob = true) by (apply close_gap; lra).
      congruence.
Qed.

Lemma detection_claims_nearest_track_witness :
  exists s' ids',
    match_detection (Scenario.tracking, [0%nat]) Scenario.person = Some (s', ids')
    /\ ids' = [].
Proof.
  assert (Hwf : wf Scenario.tracking).
  { unfold wf. cbn. split; [reflexivity|]. split.
    - constructor; [simpl; tauto | constructor].
    - constructor; [lia | constructor]. }
  assert (ND : List.NoDup [0%nat])
    by (constructor; [simpl; tauto | constructor]).
  assert (Hreg : forall id, In id [0%nat] -> registered Scenario.tracking id).
  { intros id [<-|[]]. left. reflexivity. }
  destruct (detection_claims_nearest_track Scenario.tracking [0%nat]
              Scenario.person Hwf ND Hreg) as (s' & ids' & E & _ & Hnear).
  exists s', ids'. split; [exact E|].
  destruct (Hnear 0%nat Scenario.person (or_introl eq_refl) eq_refl eq_refl)
    as (b & ob & Hb & _ & _ & _ & _ & _ & Hiff & _).
  destruct Hb as [<-|[]].
  destruct ids' as [|k rest]; [reflexivity|].
  destruct (proj1 (Hiff k) (or_introl eq_refl)) as [[<-|[]] Hne].
  contradiction.
Defined.

Lemma dict_remove_set_fresh {V : Type} (k : nat) (v : V) (d : dict V) :
  ~ In k (dict_keys d) -> dict_remove k (dict_set k v d) = d.
Proof.
  induction d as [|[k' v'] rest IH]; simpl; intros Hk.
  - rewrite Nat.eqb_refl. reflexivity.
  - destruct (Nat.eqb_spec k k') as [E|N];
      [exfalso; apply Hk; left; congruence|].
    simpl. apply Nat.eqb_neq in N. rewrite N. simpl.
    f_equal. apply IH. intros H. apply Hk. right. exact H.
Qed.

(** X13.  [deregister] undoes [register] except for the counter of
    identifiers: after registering a detection and deregistering the
    identifier returned, the tracks and their counters are what they
    were, and the next identifier stays advanced, so that identifier is
    not handed out again.  Deregistering an identifier that is not
    tracked raises; deregistering a tracked one removes it and leaves
    every other track as it was. *)
Theorem register_then_deregister :
  forall (self : ObstacleTracker.t) (d : detection),
    wf self ->
    snd (register self d) = next_object_id self
    /\ (exists self2,
          deregister (fst (register self d)) (snd (register self d)) = Some self2
          /\ objects self2 = objects self
          /\ disappeared self2 = disappeared self
          /\ max_disappeared self2 = max_disappeared self
          /\ next_object_id self2 = S (next_object_id self))
    /\ (forall id, ~ registered self id -> deregister self id = None)
    /\ (forall id, registered self id ->
          exists self', deregister self id = Some self'
            /\ ~ registered self' id
            /\ dis self' id = None
            /\ next_object_id self' = next_object_id self
            /\ (forall k, k <> id -> same_at self self' k)).
Proof.
  intros self d Hwf. pose proof Hwf as (K & ND & B).
  assert (Hfresh : ~ In (next_object_id self) (dict_keys (objects self))).
  { intros H. rewrite List.Forall_forall in B. specialize (B _ H). simpl in B. lia. }
  assert (Hfresh' : ~ In (next_object_id self) (dict_keys (disappeared self)))
    by (rewrite <- K; exact Hfresh).
  split; [unfold register; cbn [snd next_object_id]; lia|]. split; [|split].
  - unfold register. cbn [fst snd next_object_id].
    replace (next_object_id self + 1 - 1)%nat with (next_object_id self) by lia.
    unfold deregister, dict_del. cbn [objects disappeared].
    rewrite !dict_get_set_eq. cbn [mbind option_bind].
    eexists. split; [reflexivity|].
    cbn [objects disappeared max_disappeared next_object_id].
    rewrite !dict_remove_set_fresh by assumption.
    repeat split. lia.
  - intros id Hn. unfold deregister, dict_del.
    apply dict_get_None in Hn. rewrite Hn. reflexivity.
  - intros id Hr.
    destruct (proj1 (registered_obj self id) Hr) as [o Ho].
    destruct (proj1 (wf_registered_dis self id Hwf) Hr) as [n Hn].
    unfold obj in Ho. unfold dis in Hn.
    unfold deregister, dict_del. rewrite Ho. cbn [mbind option_bind].
    rewrite Hn. cbn [mbind option_bind].
    eexists. split; [reflexivity|].
    unfold registered, dis, same_at, obj, dis.
    cbn [objects disappeared next_object_id].
    split.
    { rewrite dict_keys_remove, filter_In. intros [_ H].
      rewrite Nat.eqb_refl in H. discriminate. }
    split; [apply dict_get_remove_eq|]. split; [reflexivity|].
    intros k Hk. split; apply dict_get_remove_ne; auto.
Qed.

Lemma register_then_deregister_witness :
  exists self2,
    deregister (fst (register Scenario.tracking Scenario.animal))
      (snd (register Scenario.tracking Scenario.animal)) = Some self2
    /\ objects self2 = objects Scenario.tracking
    /\ next_object_id self2 = 2%nat.
Proof.
  assert (Hwf : wf Scenario.tracking).
  { unfold wf. cbn. split; [reflexivity|]. split.
    - constructor; [simpl; tauto | constructor].
    - constructor; [lia | constructor]. }
  destruct (proj1 (proj2 (register_then_deregister Scenario.tracking
                            Scenario.animal Hwf)))
    as (self2 & E & Ho & _ & _ & Hn).
  exists self2. split; [exact E|]. split; [exact Ho | exact Hn].
Defined.

End TrackerMatching.

(** ** False alerts and duplicate alerts *)

Section FalseAlerts.
Import FalseAlertFilter Order PipelineInv.

Lemma filter_count min_size os : forall self acc,
  suppressed_count
    (fst (fold_left (filter_step min_size) os (self, acc)))
  = (suppressed_count self + count (fun o => rejected o min_size) os)%nat.
Proof.
  unfold count.
  induction os as [|o os IH]; intros self acc; cbn [fold_left List.filter].
  - cbn [fst length]. lia.
  - unfold filter_step at 2. destruct (rejected o min_size).
    + rewrite IH. cbn [suppressed_count length]. lia.
    + rewrite IH. lia.
Qed.

Lemma count_filter_complement {A : Type} (p : A -> bool) (l : list A) :
  (length (List.filter (fun x => negb (p x)) l) + count p l = length l)%nat.
Proof.
  unfold count. induction l as [|x l IH]; [reflexivity|].
  cbn [List.filter]. destruct (p x); cbn [negb length]; lia.
Qed.

Lemma filter_all_true {A : Type} (p : A -> bool) (l : list A) :
  (forall x, In x l -> p x = true) -> List.filter p l = l.
Proof.
  induction l as [|x l IH]; intros H; [reflexivity|].
  cbn [List.filter]. rewrite (H x (or_introl eq_refl)).
  f_equal. apply IH. intros y Hy. apply H. right. exact Hy.
Qed.

Lemma filter_all_false {A : Type} (p : A -> bool) (l : list A) :
  (forall x, In x l -> p x = false) -> List.filter p l = [].
Proof.
  induction l as [|x l IH]; intros H; [reflexivity|].
  cbn [List.filter]. rewrite (H x (or_introl eq_refl)).
  apply IH. intros y Hy. apply H. right. exact Hy.
Qed.

Lemma not_rejected_shape o min_size :
  rejected o min_size = false ->
  let '(x1, y1, x2, y2) := det_bbox (o_detection o) in
  (min_size <= (x2 - x1) * (y2 - y1))%Z
  /\ ((0 < Z.min (x2 - x1) (y2 - y1))%Z ->
      (Z.max (x2 - x1) (y2 - y1) <= 10 * Z.min (x2 - x1) (y2 - y1))%Z)
  /\ (det_class (o_detection o) = "debris"%string ->
      0.6 <= det_confidence (o_detection o)).
Proof.
  unfold rejected.
  destruct (det_bbox (o_detection o)) as [[[x1 y1] x2] y2].
  destruct (Z.ltb_spec ((x2 - x1) * (y2 - y1)) min_size) as [|Ha]; [discriminate|].
  set (w := (x2 - x1)%Z). set (h := (y2 - y1)%Z).
  destruct (Z.ltb_spec 0 (Z.min w h)) as [Hpos|Hneg].
  - destruct (Qltb 10 (inject_Z (Z.max w h) / inject_Z (Z.min w h))) eqn:L;
      [discriminate|].
    apply Qltb_false_iff in L. intros Hd.
    split; [exact Ha|]. split.
    + intros _.
      assert (P : 0 < inject_Z (Z.min w h)).
      { change 0 with (inject_Z 0). rewrite <- Zlt_Qlt. exact Hpos. }
      assert (M : inject_Z (Z.max w h) <= 10 * inject_Z (Z.min w h)).
      { assert (E : inject_Z (Z.max w h)
                    == inject_Z (Z.max w h) / inject_Z (Z.min w h)
                       * inject_Z (Z.min w h))
          by (field; lra).
        rewrite E at 1. apply Qmult_le_compat_r; [exact L | lra]. }
      change 10 with (inject_Z 10) in M.
      rewrite <- inject_Z_mult, <- Zle_Qle in M. exact M.
    + intros Ec. rewrite Ec in Hd. cbn [String.eqb Ascii.eqb Bool.eqb andb] in Hd.
      apply Qltb_false_iff in Hd. exact Hd.
  - change (Qltb 10 0) with false. cbn iota. intros Hd.
    split; [exact Ha|]. split; [lia|].
    intros Ec. rewrite Ec in Hd. cbn [String.eqb Ascii.eqb Bool.eqb andb] in Hd.
    apply Qltb_false_iff in Hd. exact Hd.
Qed.

(** X14.  [FalseAlertFilter.filter] returns, in their order, exactly the
    obstacles that pass its three tests, and adds to [suppressed_count]
    the number of the others; filtering the result again changes
    nothing.  An obstacle that passes has a (signed) box area of at
    least [min_size], sides whose ratio is at most 10 when both are
    positive, and a confidence of at least 0.6 if it is debris. *)
Theorem false_alert_filter_accounting :
  forall (self : FalseAlertFilter.t) (obstacles : list obstacle) (min_size : Z),
    let r := FalseAlertFilter.filter self obstacles min_size in
    snd r = List.filter (fun o => negb (rejected o min_size)) obstacles
    /\ suppressed_count (fst r)
       = (suppressed_count self
          + count (fun o => rejected o min_size) obstacles)%nat
    /\ (length (snd r) + count (fun o => rejected o min_size) obstacles
        = length obstacles)%nat
    /\ FalseAlertFilter.filter (fst r) (snd r) min_size = r
    /\ (forall o, In o (snd r) ->
          In o obstacles
          /\ let '(x1, y1, x2, y2) := det_bbox (o_detection o) in
             (min_size <= (x2 - x1) * (y2 - y1))%Z
             /\ ((0 < Z.min (x2 - x1) (y2 - y1))%Z ->
                 (Z.max (x2 - x1) (y2 - y1)
                  <= 10 * Z.min (x2 - x1) (y2 - y1))%Z)
             /\ (det_class (o_detection o) = "debris"%string ->
                 0.6 <= det_confidence (o_detection o))).
Proof.
  intros self obstacles min_size r.
  assert (Hs : snd r = List.filter (fun o => negb (rejected o min_size)) obstacles).
  { subst r. unfold FalseAlertFilter.filter. rewrite filter_eq. reflexivity. }
  assert (Hc : suppressed_count (fst r)
               = (suppressed_count self
                  + count (fun o => rejected o min_size) obstacles)%nat).
  { subst r. unfold FalseAlertFilter.filter. apply filter_count. }
  assert (Hin : forall o, In o (snd r) ->
            In o obstacles /\ rejected o min_size = false).
  { intros o Ho. rewrite Hs in Ho. apply filter_In in Ho as [H1 H2].
    split; [exact H1|]. apply negb_true_iff, H2. }
  split; [exact Hs|]. split; [exact Hc|]. split.
  { rewrite Hs. apply count_filter_complement. }
  split.
  { assert (E1 : snd (FalseAlertFilter.filter (fst r) (snd r) min_size) = snd r).
    { unfold FalseAlertFilter.filter at 1. rewrite filter_eq. cbn [app].
      apply filter_all_true. intros o Ho.
      apply negb_true_iff. exact (proj2 (Hin o Ho)). }
    assert (E2 : suppressed_count
                   (fst (FalseAlertFilter.filter (fst r) (snd r) min_size))
                 = suppressed_count (fst r)).
    { unfold FalseAlertFilter.filter at 1. rewrite filter_count.
      unfold count. rewrite filter_all_false; [cbn; lia|].
      intros o Ho. exact (proj2 (Hin o Ho)). }
    destruct (FalseAlertFilter.filter (fst r) (snd r) min_size) as [[c] out].
    destruct r as [[c'] out']. cbn [fst snd suppressed_count] in *.
    congruence. }
  intros o Ho. destruct (Hin o Ho) as [H1 H2].
  split; [exact H1|]. exact (not_rejected_shape o min_size H2).
Qed.

End FalseAlerts.

Section DuplicateAlerts.
Import AlertHistory MultiFrameConfirmation.





End DuplicateAlerts.

(** ** The detector around the model *)

Section Detector.
Import ObstacleDetector Order Coverage.

Lemma int_of_Z (z : Z) : int_of (inject_Z z) = z.
Proof.
  unfold int_of. destruct (Qle_bool 0 (inject_Z z));
    [apply Qfloor_Z | apply Qceiling_Z].
Qed.

Lemma int_of_mono (q r : Q) : q <= r -> (int_of q <= int_of r)%Z.
Proof.
  intros H. unfold int_of.
  destruct (Qle_bool 0 q) eqn:A; [apply Qle_bool_iff in A|apply Qle_bool_false in A];
    (destruct (Qle_bool 0 r) eqn:B;
     [apply Qle_bool_iff in B|apply Qle_bool_false in B]).
  - apply Qfloor_resp_le, H.
  - exfalso. lra.
  - assert (C : (Qceiling q <= Qceiling 0)%Z) by (apply Qceiling_resp_le; lra).
    assert (F : (Qfloor 0 <= Qfloor r)%Z) by (apply Qfloor_resp_le, B).
    change (Qceiling 0) with 0%Z in C. change (Qfloor 0) with 0%Z in F. lia.
  - apply Qceiling_resp_le, H.
Qed.

Lemma _get_obstacle_class_four self class_id name :
  _get_obstacle_class self class_id = Some name -> In name four_classes.
Proof.
  unfold _get_obstacle_class, four_classes.
  destruct (equals _ _); [intros [= <-]; simpl; tauto|].
  destruct (among _ (vehicle_ids self)); [intros [= <-]; simpl; tauto|].
  destruct (among _ (animal_ids self)); [intros [= <-]; simpl; tauto|].
  destruct (among _ (debris_ids self)); [intros [= <-]; simpl; tauto|].
  discriminate.
Qed.

Lemma detection_of_spec self box d :
  In d (detection_of self box) ->
  _get_obstacle_class self (int_of (rb_cls box)) = Some (det_class d)
  /\ det_class_id d = int_of (rb_cls box)
  /\ det_confidence d = rb_conf box
  /\ det_bbox d
     = (int_of (rb_xyxy box).1.1.1, int_of (rb_xyxy box).1.1.2,
        int_of (rb_xyxy box).1.2, int_of (rb_xyxy box).2).
Proof.
  unfold detection_of. destruct (rb_xyxy box) as [[[x1 y1] x2] y2].
  destruct (_get_obstacle_class self (int_of (rb_cls box))) as [name|];
    [|intros []].
  intros [<-|[]]. repeat split.
Qed.

Lemma default_classes (class_id : Z) :
  _get_obstacle_class defaults class_id
  = if (class_id =? 0)%Z then Some "human"%string
    else if existsb (Z.eqb class_id) [2; 3; 5; 7]%Z then Some "vehicle"%string
    else if (15 <=? class_id)%Z && (class_id <=? 23)%Z then Some "animal"%string
    else if (24 <=? class_id)%Z && (class_id <=? 27)%Z then Some "debris"%string
    else None.
Proof.
  unfold _get_obstacle_class, defaults, equals, among.
  cbn [human_ids vehicle_ids animal_ids debris_ids].
  destruct (class_id =? 0)%Z; [reflexivity|].
  destruct (existsb (Z.eqb class_id) [2; 3; 5; 7]%Z); [reflexivity|].
  assert (A : existsb (Z.eqb class_id) (List.map Z.of_nat (seq 15 9))
              = (15 <=? class_id)%Z && (class_id <=? 23)%Z).
  { cbn [seq List.map existsb].
    destruct (Z.leb_spec 15 class_id), (Z.leb_spec class_id 23); cbn [andb];
      repeat match goal with
             | |- context [(class_id =? ?n)%Z] =>
                 destruct (Z.eqb_spec class_id n); cbn [orb]; try lia
             end; reflexivity. }
  assert (B : existsb (Z.eqb class_id) (List.map Z.of_nat (seq 24 4))
              = (24 <=? class_id)%Z && (class_id <=? 27)%Z).
  { cbn [seq List.map existsb].
    destruct (Z.leb_spec 24 class_id), (Z.leb_spec class_id 27); cbn [andb];
      repeat match goal with
             | |- context [(class_id =? ?n)%Z] =>
                 destruct (Z.eqb_spec class_id n); cbn [orb]; try lia
             end; reflexivity. }
  rewrite A, B. reflexivity.
Qed.

(** X16.  [detect] returns nothing without a model (or when the
    prediction raises); otherwise it keeps, in the model's order and
    with the model's confidence, the boxes whose class identifier maps
    to one of the four obstacle categories, each with its corners
    rounded towards zero, so that a box the model gives with
    [x1 <= x2] and [y1 <= y2] is never turned around (it can lose its
    width or height).  'human' is matched by equality only: a list of
    identifiers configured for it matches nothing.  With the default
    mapping, class 0 is 'human', 2, 3, 5, 7 are 'vehicle', 15 to 23
    'animal', 24 to 27 'debris', and every other class is dropped. *)
Theorem detect_keeps_mapped_classes :
  forall (self : ObstacleDetector.t) (boxes : list raw_box),
    detect self None = []
    /\ (length (detect self (Some boxes)) <= length boxes)%nat
    /\ (forall d, In d (detect self (Some boxes)) ->
          In (det_class d) four_classes
          /\ _get_obstacle_class self (det_class_id d) = Some (det_class d)
          /\ exists box,
               In box boxes
               /\ det_class_id d = int_of (rb_cls box)
               /\ det_confidence d = rb_conf box
               /\ det_bbox d
                  = (int_of (rb_xyxy box).1.1.1, int_of (rb_xyxy box).1.1.2,
                     int_of (rb_xyxy box).1.2, int_of (rb_xyxy box).2)
               /\ ((rb_xyxy box).1.1.1 <= (rb_xyxy box).1.2 ->
                   ((det_bbox d).1.1.1 <= (det_bbox d).1.2)%Z)
               /\ ((rb_xyxy box).1.1.2 <= (rb_xyxy box).2 ->
                   ((det_bbox d).1.1.2 <= (det_bbox d).2)%Z))
    /\ (forall box, In box boxes ->
          _get_obstacle_class self (int_of (rb_cls box)) <> None ->
          exists d, In d (detect self (Some boxes))
                    /\ det_confidence d = rb_conf box
                    /\ det_class_id d = int_of (rb_cls box))
    /\ List.map det_confidence (detect self (Some boxes))
       = List.map rb_conf
           (List.filter
              (fun box =>
                 match _get_obstacle_class self (int_of (rb_cls box)) with
                 | Some _ => true
                 | None => false
                 end) boxes)
    /\ (forall ids class_id,
          human_ids self = Many ids ->
          _get_obstacle_class self class_id <> Some "human"%string)
    /\ (forall class_id,
          _get_obstacle_class defaults class_id
          = if (class_id =? 0)%Z then Some "human"%string
            else if existsb (Z.eqb class_id) [2; 3; 5; 7]%Z
            then Some "vehicle"%string
            else if (15 <=? class_id)%Z && (class_id <=? 23)%Z
            then Some "animal"%string
            else if (24 <=? class_id)%Z && (class_id <=? 27)%Z
            then Some "debris"%string
            else None).
Proof.
  intros self boxes. split; [reflexivity|]. cbn [detect].
  split; [|split; [|split; [|split; [|split]]]].
  - induction boxes as [|box boxes IH]; [simpl; lia|].
    cbn [flat_map]. rewrite length_app.
    assert (length (detection_of self box) <= 1)%nat.
    { unfold detection_of. destruct (rb_xyxy box) as [[[? ?] ?] ?].
      destruct (_get_obstacle_class _ _); simpl; lia. }
    cbn [length]. lia.
  - intros d Hd. apply in_flat_map in Hd as (box & Hbox & Hd).
    destruct (detection_of_spec self box d Hd) as (Hc & Hid & Hconf & Hb).
    split; [exact (_get_obstacle_class_four _ _ _ Hc)|].
    split; [rewrite Hid; exact Hc|].
    exists box. split; [exact Hbox|]. split; [exact Hid|].
    split; [exact Hconf|]. split; [exact Hb|].
    rewrite Hb. cbn [fst snd]. split; apply int_of_mono.
  - intros box Hbox Hc.
    destruct (_get_obstacle_class self (int_of (rb_cls box))) as [name|] eqn:E;
      [|contradiction].
    destruct (rb_xyxy box) as [[[x1 y1] x2] y2] eqn:Exy.
    eexists. split.
    + apply in_flat_map. exists box. split; [exact Hbox|].
      unfold detection_of. rewrite Exy, E. left. reflexivity.
    + split; reflexivity.
  - induction boxes as [|box boxes IH]; [reflexivity|].
    cbn [flat_map List.filter]. rewrite map_app, IH.
    unfold detection_of at 1. destruct (rb_xyxy box) as [[[? ?] ?] ?].
    destruct (_get_obstacle_class self (int_of (rb_cls box))); reflexivity.
  - intros ids class_id Hh. unfold _get_obstacle_class. rewrite Hh.
    cbn [equals].
    destruct (among _ (vehicle_ids self)); [discriminate|].
    destruct (among _ (animal_ids self)); [discriminate|].
    destruct (among _ (debris_ids self)); discriminate.
  - apply default_classes.
Qed.






End Detector.

(** ** Zones in pixels *)

Section ZonePixels.
Import TrackSegmentation ZoneCoordinates.

(** X18.  [get_zone_coordinates] returns the empty dictionary while a
    frame dimension is unset.  Once both are set, for a width that is
    not negative and zone widths with
    [0 <= critical_zone_width <= warning_zone_width], the critical
    rectangle lies inside the warning rectangle and both contain the
    centre column [width // 2]; the two rectangles share their top and
    bottom rows, and the top row is not below the bottom row when
    [track_top_y <= track_bottom_y] and the height is not negative. *)
Theorem zone_rectangles_nested :
  forall (self : TrackSegmentation.t),
    ((frame_width self = None \/ frame_height self = None) ->
     get_zone_coordinates self = None)
    /\ (forall W H,
          frame_width self = Some W -> frame_height self = Some H ->
          exists crit warn,
            get_zone_coordinates self = Some (crit, warn)
            /\ y1 crit = y1 warn /\ y2 crit = y2 warn
            /\ ((0 <= W)%Z ->
                0 <= critical_zone_width self ->
                critical_zone_width self <= warning_zone_width self ->
                (x1 warn <= x1 crit)%Z /\ (x1 crit <= W / 2)%Z
                /\ (W / 2 <= x2 crit)%Z /\ (x2 crit <= x2 warn)%Z)
            /\ ((0 <= H)%Z -> track_top_y self <= track_bottom_y self ->
                (y1 crit <= y2 crit)%Z)).
Proof.
  intros self. split.
  - unfold get_zone_coordinates. intros [E|E]; rewrite E; [reflexivity|].
    destruct (frame_width self); reflexivity.
  - intros W H HW HH. unfold get_zone_coordinates. rewrite HW, HH.
    eexists _, _. split; [reflexivity|]. cbn [x1 x2 y1 y2].
    split; [reflexivity|]. split; [reflexivity|]. split.
    + intros Wpos Hc Hcw.
      assert (P : 0 <= inject_Z W).
      { change 0 with (inject_Z 0). rewrite <- Zle_Qle. exact Wpos. }
      set (c := inject_Z (W / 2)).
      set (a := inject_Z W * critical_zone_width self / 2).
      set (b := inject_Z W * warning_zone_width self / 2).
      assert (Ha : 0 <= a).
      { unfold a. apply Qle_shift_div_l; [reflexivity|].
        assert (0 <= inject_Z W * critical_zone_width self) by nra. lra. }
      assert (Hab : a <= b).
      { unfold a, b. unfold Qdiv. change (/ 2) with (1 # 2).
        assert (inject_Z W * critical_zone_width self
                <= inject_Z W * warning_zone_width self) by nra.
        lra. }
      rewrite <- (int_of_Z (W / 2)). fold c.
      repeat split; apply int_of_mono; lra.
    + intros Hpos Htb. apply int_of_mono.
      assert (P : 0 <= inject_Z H).
      { change 0 with (inject_Z 0). rewrite <- Zle_Qle. exact Hpos. }
      nra.
Qed.

Lemma zone_rectangles_nested_witness :
  exists crit warn,
    get_zone_coordinates Scenario.framed = Some (crit, warn)
    /\ (x1 warn <= x1 crit)%Z /\ (x2 crit <= x2 warn)%Z.
Proof.
  destruct (proj2 (zone_rectangles_nested Scenario.framed) 640%Z 480%Z
              eq_refl eq_refl)
    as (crit & warn & E & _ & _ & Hx & _).
  exists crit, warn. split; [exact E|].
  assert (H1 : (0 <= 640)%Z) by lia.
  assert (H2 : 0 <= critical_zone_width Scenario.framed)
    by (apply Qle_bool_iff; reflexivity).
  assert (H3 : critical_zone_width Scenario.framed
               <= warning_zone_width Scenario.framed)
    by (apply Qle_bool_iff; reflexivity).
  destruct (Hx H1 H2 H3) as (A & _ & _ & B). split; assumption.
Defined.

End ZonePixels.

(** ** The buffer of recent frames *)

Section Buffer.
Import FrameBuffer Coverage.
Context {frame : Type}.

Lemma add_frame_spec (self : FrameBuffer.t frame) f ts :
  length (frames self) = length (timestamps self) ->
  (length (frames self) <= Z.to_nat (max_size self))%nat ->
  exists self',
    add_frame self f ts = Some self'
    /\ max_size self' = max_size self
    /\ frames self'
       = drop (length (frames self) + 1 - Z.to_nat (max_size self))
           (frames self ++ [f])
    /\ timestamps self'
       = drop (length (frames self) + 1 - Z.to_nat (max_size self))
           (timestamps self ++ [ts])
    /\ length (frames self') = length (timestamps self')
    /\ (length (frames self') <= Z.to_nat (max_size self))%nat.
Proof.
  intros Hlen Hmax. unfold add_frame.
  rewrite length_app. cbn [length].
  destruct (Z.ltb_spec (max_size self) (Z.of_nat (length (frames self) + 1)))
    as [Hlt|Hge].
  - assert (Ek : (length (frames self) + 1 - Z.to_nat (max_size self) = 1)%nat)
      by lia.
    rewrite Ek.
    destruct (frames self) as [|f0 fs] eqn:Ef;
      destruct (timestamps self) as [|t0 tss] eqn:Et;
      cbn [length] in Hlen; try discriminate;
      cbn [app pop0 mbind option_bind]; eexists;
      (split; [reflexivity|]);
      cbn [max_size frames timestamps drop];
      rewrite ?drop_0, ?length_app; cbn [length] in *;
      repeat split; lia.
  - assert (Ek : (length (frames self) + 1 - Z.to_nat (max_size self) = 0)%nat)
      by lia.
    rewrite Ek. eexists. split; [reflexivity|].
    cbn [max_size frames timestamps]. rewrite !drop_0, !length_app.
    cbn [length]. repeat split; lia.
Qed.

Lemma add_frames_spec (xs : list (frame * Q)) : forall self : FrameBuffer.t frame,
  length (frames self) = length (timestamps self) ->
  (length (frames self) <= Z.to_nat (max_size self))%nat ->
  exists final,
    add_frames self xs = Some final
    /\ max_size final = max_size self
    /\ frames final
       = drop (length (frames self) + length xs - Z.to_nat (max_size self))
           (frames self ++ List.map fst xs)
    /\ timestamps final
       = drop (length (frames self) + length xs - Z.to_nat (max_size self))
           (timestamps self ++ List.map snd xs).
Proof.
  induction xs as [|[f ts] xs IH]; intros self Hlen Hmax; cbn [add_frames].
  - exists self. split; [reflexivity|]. split; [reflexivity|].
    cbn [length List.map]. rewrite !app_nil_r.
    replace (length (frames self) + 0 - Z.to_nat (max_size self))%nat
      with 0%nat by lia.
    split; reflexivity.
  - destruct (add_frame_spec self f ts Hlen Hmax)
      as (s1 & -> & M1 & F1 & T1 & L1 & B1).
    cbn [mbind option_bind].
    destruct (IH s1 L1 ltac:(rewrite M1; exact B1)) as (final & -> & M & F & T).
    exists final. split; [reflexivity|]. split; [congruence|].
    rewrite M1 in F, T.
    set (M0 := Z.to_nat (max_size self)) in *.
    set (k := (length (frames self) + 1 - M0)%nat) in *.
    assert (Hl1 : length (frames s1) = (length (frames self) + 1 - k)%nat).
    { rewrite F1, length_drop, length_app. cbn [length]. lia. }
    cbn [List.map fst snd length].
    split.
    + rewrite F, Hl1, F1.
      rewrite <- (drop_app_le (frames self ++ [f]) (List.map fst xs) k)
        by (rewrite length_app; cbn [length]; lia).
      rewrite drop_drop, <- app_assoc. cbn [app]. f_equal. lia.
    + rewrite T, Hl1, T1.
      rewrite <- (drop_app_le (timestamps self ++ [ts]) (List.map snd xs) k)
        by (rewrite length_app; cbn [length]; lia).
      rewrite drop_drop, <- app_assoc. cbn [app]. f_equal. lia.
Qed.

(** X19.  A [FrameBuffer] filled by [add_frame] from empty holds the
    last [max_size] frames added, oldest first, with their timestamps
    at the same positions (nothing for a [max_size] of zero or
    below), and [add_frame] never raises.  [get_frames(n)]
    returns the last [n] frames for a positive [n] but all of them
    for [n = 0]; [get_frame_at] returns [None] outside
    [0 <= index < len] instead of counting from the end. *)
Theorem frame_buffer_keeps_last :
  forall (m : Z) (xs : list (frame * Q)),
    exists buf : FrameBuffer.t frame,
      add_frames (FrameBuffer.init m) xs = Some buf
      /\ frames buf = drop (length xs - Z.to_nat m) (List.map fst xs)
      /\ timestamps buf = drop (length xs - Z.to_nat m) (List.map snd xs)
      /\ len buf = Nat.min (length xs) (Z.to_nat m)
      /\ length (timestamps buf) = len buf
      /\ get_frames buf None = frames buf
      /\ get_frames buf (Some 0%Z) = frames buf
      /\ (forall n, (0 < n)%Z ->
            get_frames buf (Some n) = drop (len buf - Z.to_nat n) (frames buf))
      /\ (forall i, (i < 0)%Z \/ (Z.of_nat (len buf) <= i)%Z ->
            get_frame_at buf i = None)
      /\ (forall i, (0 <= i < Z.of_nat (len buf))%Z ->
            get_frame_at buf i = frames buf !! Z.to_nat i
            /\ is_Some (get_frame_at buf i))
      /\ len (clear buf) = 0%nat.
Proof.
  intros m xs.
  destruct (add_frames_spec xs (FrameBuffer.init m) eq_refl)
    as (buf & E & _ & F & T); [cbn; lia|].
  cbn [FrameBuffer.init frames timestamps max_size length app Nat.add] in F, T.
  exists buf. split; [exact E|]. split; [exact F|]. split; [exact T|].
  assert (Hlen : len buf = Nat.min (length xs) (Z.to_nat m)).
  { unfold len. rewrite F, length_drop, length_map. lia. }
  split; [exact Hlen|]. split.
  { rewrite T, length_drop, length_map. lia. }
  split; [reflexivity|]. split; [reflexivity|]. split.
  { intros n Hn. cbn [get_frames]. unfold slice_from_neg.
    destruct (Z.ltb_spec 0 n); [reflexivity | lia]. }
  split.
  { intros i Hi. unfold get_frame_at. fold (len buf).
    destruct (Z.leb_spec 0 i); destruct (Z.ltb_spec i (Z.of_nat (len buf)));
      cbn [andb]; try reflexivity. lia. }
  split; [|reflexivity].
  intros i Hi. unfold get_frame_at. fold (len buf).
  destruct (Z.leb_spec 0 i); destruct (Z.ltb_spec i (Z.of_nat (len buf)));
    cbn [andb]; try lia.
  split; [reflexivity|]. apply lookup_lt_is_Some. unfold len in *. lia.
Qed.

End Buffer.
